(** * Read-receipt and unread-tracking reconciliation of the chat view

    A shallow embedding of the [ChatArea] component (the version with
    read receipts): its React state and refs become one record, every
    handler becomes a function from state to state, and the browser
    (clock, timers, socket, alerts) is threaded through the same record.

    React runs handlers one at a time on the UI thread and applies a
    functional updater [setX (prev => ...)] to the latest value, so a
    handler is modelled as an ordinary sequential state transformer.
    An [async] handler is cut at its [await]: one function up to the
    request, one from the point where the request has settled, so that
    other events can be delivered in between.

    Identifiers are integers.  A timestamp is the string the component
    holds; it is compared as a string where the code uses [===] and
    through [getTime] where the code builds a [Date].  The props
    [chat.conversationId] and [currentUserId] are arguments of every
    handler, since a handler sees the props of the render that created
    it. *)

From Stdlib Require Import ZArith List String Ascii Bool Lia.
From Stdlib Require Import Sorting.Sorted Sorting.Permutation.
From stdpp Require Import base list strings.
From stdpp Require Import gmap pretty.

Local Open Scope string_scope.
Local Open Scope list_scope.
Local Open Scope Z_scope.

(** ** JavaScript values the component relies on *)

Module Js.

(** Truthiness of an optional number ([undefined], [0] are falsy). *)
Definition truthy_num (o : option Z) : bool :=
  match o with
  | Some n => negb (n =? 0)
  | None => false
  end.

(** Truthiness of a string (only the empty string is falsy). *)
Definition truthy_str (s : string) : bool :=
  match s with
  | EmptyString => false
  | String _ _ => true
  end.

(** Truthiness of [string | null]. *)
Definition truthy_ostr (o : option string) : bool :=
  match o with
  | Some s => truthy_str s
  | None => false
  end.

(** [a === b] for a [string | null] reference against a string. *)
Definition strict_eq_ref (r : option string) (s : string) : bool :=
  match r with
  | Some x => String.eqb x s
  | None => false
  end.

(** *** [String.prototype.trim]

    The component calls [trim] on the typed text, and only to test
    whether anything but white space was typed.  The component is
    parametric in [trim]; what follows is the instance used to run it
    on concrete inputs.  It reads a string as UTF-8 text and removes,
    from both ends, the code points of ECMAScript's WhiteSpace and
    LineTerminator productions:
    U+0009..U+000D, U+0020, U+00A0, U+1680, U+2000..U+200A, U+2028,
    U+2029, U+202F, U+205F, U+3000 and U+FEFF.  UTF-8 is
    self-synchronising, so the bytes of such a code point at either
    end of a text are that code point. *)

(** The UTF-8 encodings of these code points, byte by byte. *)
Definition whiteSpace : list (list nat) :=
  [[9]; [10]; [11]; [12]; [13]; [32];
   [194; 160];
   [225; 154; 128];
   [226; 128; 128]; [226; 128; 129]; [226; 128; 130]; [226; 128; 131];
   [226; 128; 132]; [226; 128; 133]; [226; 128; 134]; [226; 128; 135];
   [226; 128; 136]; [226; 128; 137]; [226; 128; 138];
   [226; 128; 168]; [226; 128; 169]; [226; 128; 175];
   [226; 129; 159];
   [227; 128; 128];
   [239; 187; 191]]%nat.

Fixpoint sameBytes (w : list nat) (l : list ascii) : bool :=
  match w, l with
  | [], [] => true
  | n :: w', a :: l' => Nat.eqb n (nat_of_ascii a) && sameBytes w' l'
  | _, _ => false
  end.

Definition isWhiteSpace (l : list ascii) : bool :=
  existsb (fun w => sameBytes w l) whiteSpace.

(** Remove white space from the front of a text; [fromEnd] tells that
    the text is given last byte first. *)
Fixpoint strip (fromEnd : bool) (l : list ascii) : list ascii :=
  match l with
  | [] => []
  | a :: r =>
      if isWhiteSpace [a] then strip fromEnd r
      else
        match r with
        | [] => l
        | b :: r2 =>
            if isWhiteSpace (if fromEnd then [b; a] else [a; b])
            then strip fromEnd r2
            else
              match r2 with
              | [] => l
              | c :: r3 =>
                  if isWhiteSpace
                       (if fromEnd then [c; b; a] else [a; b; c])
                  then strip fromEnd r3
                  else l
              end
        end
  end.

Definition trim (s : string) : string :=
  string_of_list_ascii
    (rev (strip true (rev (strip false (list_ascii_of_string s))))).

(** The numbers the component compares: the result of [getTime]
    (an integer or [NaN]) and the constant [-Infinity]. *)
Inductive num :=
| NaN
| NegInfinity
| Num (z : Z).

(** [Date.prototype.getTime] yields an integer, or [NaN] for an
    invalid date; an invalid date is [None] throughout. *)
Definition of_time (t : option Z) : num :=
  match t with
  | Some z => Num z
  | None => NaN
  end.

Definition isFinite (n : num) : bool :=
  match n with
  | Num _ => true
  | _ => false
  end.

(** [a > b] *)
Definition gt (a b : num) : bool :=
  match a, b with
  | Num x, Num y => y <? x
  | Num _, NegInfinity => true
  | _, _ => false
  end.

(** [a <= b] *)
Definition le (a b : num) : bool :=
  match a, b with
  | Num x, Num y => x <=? y
  | NegInfinity, Num _ => true
  | NegInfinity, NegInfinity => true
  | _, _ => false
  end.

(** [a - b] on the results of [getTime]. *)
Definition sub (a b : num) : num :=
  match a, b with
  | Num x, Num y => Num (x - y)
  | _, _ => NaN
  end.

End Js.

(** ** A concrete calendar for ISO-8601 instants

    The component only ever parses dates with [new Date(s).getTime()]
    and prints them with [toISOString()].  The development is
    parametric in both; this module gives the instance used to run the
    model on concrete inputs: the UTC format [YYYY-MM-DDTHH:mm:ss.sssZ]
    that [toISOString] emits, every other string being an invalid date
    ([NaN], here [None]). *)

Module IsoDate.

Definition digit (c : ascii) : option Z :=
  let n := Z.of_nat (nat_of_ascii c) in
  if (48 <=? n) && (n <=? 57) then Some (n - 48) else None.

Fixpoint number (acc : Z) (l : list ascii) : option Z :=
  match l with
  | [] => Some acc
  | c :: r =>
      match digit c with
      | Some d => number (10 * acc + d) r
      | None => None
      end
  end.

Definition days_from_civil (y m d : Z) : Z :=
  let y' := if m <=? 2 then y - 1 else y in
  let era := y' / 400 in
  let yoe := y' - era * 400 in
  let doy := (153 * (m + (if 2 <? m then -3 else 9)) + 2) / 5 + d - 1 in
  let doe := yoe * 365 + yoe / 4 - yoe / 100 + doy in
  era * 146097 + doe - 719468.

Definition civil_from_days (days : Z) : Z * Z * Z :=
  let z := days + 719468 in
  let era := z / 146097 in
  let doe := z - era * 146097 in
  let yoe := (doe - doe / 1460 + doe / 36524 - doe / 146096) / 365 in
  let doy := doe - (365 * yoe + yoe / 4 - yoe / 100) in
  let mp := (5 * doy + 2) / 153 in
  let d := doy - (153 * mp + 2) / 5 + 1 in
  let m := if mp <? 10 then mp + 3 else mp - 9 in
  let y := yoe + era * 400 in
  (if m <=? 2 then y + 1 else y, m, d).

Definition ms_per_day : Z := 86400000.

Definition is_char (c : ascii) (s : string) : bool :=
  String.eqb (String c EmptyString) s.

(** The fields of [YYYY-MM-DDTHH:mm:ss.sssZ], when the separators are
    in place and every field is a number. *)
Definition fields (l : list ascii) : option (Z * Z * Z * Z * Z * Z * Z) :=
  match l with
  | [y1; y2; y3; y4; c1; m1; m2; c2; d1; d2; c3;
     h1; h2; c4; i1; i2; c5; s1; s2; c6; f1; f2; f3; c7] =>
      if is_char c1 "-" && is_char c2 "-" && is_char c3 "T"
         && is_char c4 ":" && is_char c5 ":" && is_char c6 "."
         && is_char c7 "Z"
      then
        match number 0 [y1; y2; y3; y4], number 0 [m1; m2],
              number 0 [d1; d2], number 0 [h1; h2],
              number 0 [i1; i2], number 0 [s1; s2],
              number 0 [f1; f2; f3] with
        | Some y, Some m, Some d, Some h, Some i, Some s, Some f =>
            Some (y, m, d, h, i, s, f)
        | _, _, _, _, _, _, _ => None
        end
      else None
  | _ => None
  end.

(** [new Date(s).getTime()]: milliseconds since the epoch. *)
Definition getTime (s : string) : option Z :=
  match fields (list_ascii_of_string s) with
  | Some (y, m, d, h, i, sec, f) =>
      let days := days_from_civil y m d in
      let '(y', m', d') := civil_from_days days in
      if (y' =? y) && (m' =? m) && (d' =? d) && (1 <=? m) && (m <=? 12)
         && (1 <=? d) && (h <? 24) && (i <? 60) && (sec <? 60)
      then Some (days * ms_per_day + ((h * 60 + i) * 60 + sec) * 1000 + f)
      else None
  | None => None
  end.

Definition digit_char (n : Z) : ascii :=
  ascii_of_nat (Z.to_nat (48 + n mod 10)).

Definition pad2 (n : Z) : list ascii :=
  [digit_char (n / 10); digit_char n].

Definition pad3 (n : Z) : list ascii :=
  [digit_char (n / 100); digit_char (n / 10); digit_char n].

Definition pad4 (n : Z) : list ascii :=
  [digit_char (n / 1000); digit_char (n / 100);
   digit_char (n / 10); digit_char n].

Definition sep (s : string) : list ascii := list_ascii_of_string s.

(** [new Date(ms).toISOString()], for years 0000 to 9999. *)
Definition toISOString (ms : Z) : string :=
  let days := ms / ms_per_day in
  let rest := ms mod ms_per_day in
  let '(y, m, d) := civil_from_days days in
  string_of_list_ascii
    (pad4 y ++ sep "-" ++ pad2 m ++ sep "-" ++ pad2 d ++ sep "T"
     ++ pad2 (rest / 3600000) ++ sep ":" ++ pad2 (rest / 60000 mod 60)
     ++ sep ":" ++ pad2 (rest / 1000 mod 60) ++ sep "."
     ++ pad3 (rest mod 1000) ++ sep "Z").

End IsoDate.

(** ** The data model ([shared/api.ts]) and the browser objects *)

Module Chat.

(** [type: 'message' | 'file'] *)
Inductive MessageType :=
| message
| file.

Record Message := mkMessage {
  id : Z;
  conversation_id : Z;
  attachment_id : option Z;
  sender_id : Z;
  content : option string;
  file_name : option string;
  file_type : option string;
  description : option string;
  file_size : option Z;
  created_at : string;
  type : MessageType;
  is_read : bool
}.

(** [{ ...msg, is_read: b }] *)
Definition with_is_read (msg : Message) (b : bool) : Message :=
  mkMessage (id msg) (conversation_id msg) (attachment_id msg)
    (sender_id msg) (content msg) (file_name msg) (file_type msg)
    (description msg) (file_size msg) (created_at msg) (type msg) b.

(** A history record as the backend sends it: any field but the
    identifiers may be missing. *)
Record RawMessage := mkRaw {
  raw_id : Z;
  raw_conversation_id : Z;
  raw_attachment_id : option Z;
  raw_sender_id : Z;
  raw_content : option string;
  raw_file_name : option string;
  raw_file_type : option string;
  raw_description : option string;
  raw_file_size : option Z;
  raw_created_at : option string;
  raw_timestamp : option string;
  raw_type : option string;
  raw_is_read : bool
}.

(** Body of [POST /all-messages]; a field is [Some] when it is an array. *)
Record HistoryResponse := mkHistory {
  readed_messages : option (list RawMessage);
  not_readed_messages : option (list RawMessage)
}.

Inductive FetchOutcome :=
| FetchOk (data : HistoryResponse)   (* response.ok *)
| FetchNotOk                         (* an HTTP error status *)
| FetchError.                        (* fetch or json() threw *)

Record FileMetadata := mkFile {
  name : string;
  size : Z;
  mime : string
}.

(** Body of a successful [POST /file]. *)
Record BackendFileData := mkBackendFile {
  b_attachment_id : Z;
  b_file_name : string;
  b_file_type : string;
  b_description : option string;
  b_file_size : Z
}.

Inductive UploadOutcome :=
| UploadOk (data : BackendFileData)
| UploadNotOk
| UploadError.

Inductive ReadyState :=
| CONNECTING
| OPEN
| CLOSING
| CLOSED.

Definition is_open (r : ReadyState) : bool :=
  match r with
  | OPEN => true
  | _ => false
  end.

(** A socket to [ws://.../ws/{conversation}/{user}]. *)
Record WebSocket := mkWebSocket {
  ws_conversation : Z;
  ws_user : Z;
  readyState : ReadyState
}.

(** Frames the component sends. *)
Inductive Outbound :=
| mark_as_read (last_seen_date : string) (user_id : Z)
    (conv : option Z)
| out_message (mid : Z) (conv : Z) (sender : Z) (text : string)
    (timestamp : string)
| out_file (mid : Z) (conv : Z) (sender : Z) (attachment : Z)
    (fname ftype fdescription : string) (fsize : Z) (timestamp : string).

(** Payload of an inbound text message; [p_id] is the result of
    [Number.parseInt], [None] for [NaN]. *)
Record TextPayload := mkTextPayload {
  p_id : option Z;
  p_conversation_id : Z;
  p_sender_id : Z;
  p_content : string;
  p_timestamp : string
}.

Record FilePayload := mkFilePayload {
  fp_id : option Z;
  fp_conversation_id : Z;
  fp_sender_id : Z;
  fp_attachment_id : option Z;
  fp_file_name : string;
  fp_file_type : string;
  fp_description : string;
  fp_file_size : Z;
  fp_timestamp : string
}.

(** A decoded frame, by its [type] field.  The three reader fields of
    [messages_read] are [Some] when [typeof] is ['number']. *)
Inductive Inbound :=
| InMessage (payload : option TextPayload)
| InFile (payload : option FilePayload)
| InMessagesRead (last_seen_date : option string)
    (user_id reader_id readerId : option Z)
| InUnknown (tag : string)
| InMalformed.

(** What the observer reads off one observed element. *)
Record Entry := mkEntry {
  createdAt : string;        (* data-created-at, or '' *)
  isIntersecting : bool;
  isUnreadMessage : bool;    (* data-is-unread === 'true' *)
  isFromOthers : bool        (* data-from-others === 'true' *)
}.

Record State := mkState {
  messages : list Message;  (* the message store *)
  newMessage : string;  (* the text being typed *)
  loading : bool;
  sending : bool;
  uploading : bool;
  wsConnected : bool;
  selectedFile : option FileMetadata;
  unreadCount : nat;
  firstUnreadId : option Z;
  wsRef : option WebSocket;
  fileInputRef : option FileMetadata;  (* fileInputRef.current.files[0] *)
  intersectionObserverRef : bool;  (* an observer is connected *)
  pendingLastSeenDateRef : option string;
  readTimerRef : option nat;  (* handle of the last timeout set *)
  lastSentReadDateRef : option string;
  clock : Z;  (* Date.now() *)
  nextTimer : nat;  (* next timeout handle *)
  timers : list (nat * Z);  (* pending timeouts: handle, deadline *)
  outbox : list Outbound;  (* frames passed to WebSocket.send, oldest first *)
  alerts : list string  (* messages shown with alert(), oldest first *)
}.

Definition set_messages (v : list Message) (s : State) : State :=
  mkState v (newMessage s) (loading s) (sending s) (uploading s)
    (wsConnected s) (selectedFile s) (unreadCount s) (firstUnreadId s)
    (wsRef s) (fileInputRef s) (intersectionObserverRef s)
    (pendingLastSeenDateRef s) (readTimerRef s) (lastSentReadDateRef s)
    (clock s) (nextTimer s) (timers s) (outbox s) (alerts s).

Definition set_newMessage (v : string) (s : State) : State :=
  mkState (messages s) v (loading s) (sending s) (uploading s)
    (wsConnected s) (selectedFile s) (unreadCount s) (firstUnreadId s)
    (wsRef s) (fileInputRef s) (intersectionObserverRef s)
    (pendingLastSeenDateRef s) (readTimerRef s) (lastSentReadDateRef s)
    (clock s) (nextTimer s) (timers s) (outbox s) (alerts s).

Definition set_loading (v : bool) (s : State) : State :=
  mkState (messages s) (newMessage s) v (sending s) (uploading s)
    (wsConnected s) (selectedFile s) (unreadCount s) (firstUnreadId s)
    (wsRef s) (fileInputRef s) (intersectionObserverRef s)
    (pendingLastSeenDateRef s) (readTimerRef s) (lastSentReadDateRef s)
    (clock s) (nextTimer s) (timers s) (outbox s) (alerts s).

Definition set_sending (v : bool) (s : State) : State :=
  mkState (messages s) (newMessage s) (loading s) v (uploading s)
    (wsConnected s) (selectedFile s) (unreadCount s) (firstUnreadId s)
    (wsRef s) (fileInputRef s) (intersectionObserverRef s)
    (pendingLastSeenDateRef s) (readTimerRef s) (lastSentReadDateRef s)
    (clock s) (nextTimer s) (timers s) (outbox s) (alerts s).

Definition set_uploading (v : bool) (s : State) : State :=
  mkState (messages s) (newMessage s) (loading s) (sending s) v
    (wsConnected s) (selectedFile s) (unreadCount s) (firstUnreadId s)
    (wsRef s) (fileInputRef s) (intersectionObserverRef s)
    (pendingLastSeenDateRef s) (readTimerRef s) (lastSentReadDateRef s)
    (clock s) (nextTimer s) (timers s) (outbox s) (alerts s).

Definition set_wsConnected (v : bool) (s : State) : State :=
  mkState (messages s) (newMessage s) (loading s) (sending s)
    (uploading s) v (selectedFile s) (unreadCount s) (firstUnreadId s)
    (wsRef s) (fileInputRef s) (intersectionObserverRef s)
    (pendingLastSeenDateRef s) (readTimerRef s) (lastSentReadDateRef s)
    (clock s) (nextTimer s) (timers s) (outbox s) (alerts s).

Definition set_selectedFile (v : option FileMetadata) (s : State) : State :=
  mkState (messages s) (newMessage s) (loading s) (sending s)
    (uploading s) (wsConnected s) v (unreadCount s) (firstUnreadId s)
    (wsRef s) (fileInputRef s) (intersectionObserverRef s)
    (pendingLastSeenDateRef s) (readTimerRef s) (lastSentReadDateRef s)
    (clock s) (nextTimer s) (timers s) (outbox s) (alerts s).

Definition set_unreadCount (v : nat) (s : State) : State :=
  mkState (messages s) (newMessage s) (loading s) (sending s)
    (uploading s) (wsConnected s) (selectedFile s) v (firstUnreadId s)
    (wsRef s) (fileInputRef s) (intersectionObserverRef s)
    (pendingLastSeenDateRef s) (readTimerRef s) (lastSentReadDateRef s)
    (clock s) (nextTimer s) (timers s) (outbox s) (alerts s).

Definition set_firstUnreadId (v : option Z) (s : State) : State :=
  mkState (messages s) (newMessage s) (loading s) (sending s)
    (uploading s) (wsConnected s) (selectedFile s) (unreadCount s) v
    (wsRef s) (fileInputRef s) (intersectionObserverRef s)
    (pendingLastSeenDateRef s) (readTimerRef s) (lastSentReadDateRef s)
    (clock s) (nextTimer s) (timers s) (outbox s) (alerts s).

Definition set_wsRef (v : option WebSocket) (s : State) : State :=
  mkState (messages s) (newMessage s) (loading s) (sending s)
    (uploading s) (wsConnected s) (selectedFile s) (unreadCount s)
    (firstUnreadId s) v (fileInputRef s) (intersectionObserverRef s)
    (pendingLastSeenDateRef s) (readTimerRef s) (lastSentReadDateRef s)
    (clock s) (nextTimer s) (timers s) (outbox s) (alerts s).

Definition set_fileInputRef (v : option FileMetadata) (s : State) : State :=
  mkState (messages s) (newMessage s) (loading s) (sending s)
    (uploading s) (wsConnected s) (selectedFile s) (unreadCount s)
    (firstUnreadId s) (wsRef s) v (intersectionObserverRef s)
    (pendingLastSeenDateRef s) (readTimerRef s) (lastSentReadDateRef s)
    (clock s) (nextTimer s) (timers s) (outbox s) (alerts s).

Definition set_intersectionObserverRef (v : bool) (s : State) : State :=
  mkState (messages s) (newMessage s) (loading s) (sending s)
    (uploading s) (wsConnected s) (selectedFile s) (unreadCount s)
    (firstUnreadId s) (wsRef s) (fileInputRef s) v
    (pendingLastSeenDateRef s) (readTimerRef s) (lastSentReadDateRef s)
    (clock s) (nextTimer s) (timers s) (outbox s) (alerts s).

Definition set_pendingLastSeenDateRef (v : option string) (s : State) : State :=
  mkState (messages s) (newMessage s) (loading s) (sending s)
    (uploading s) (wsConnected s) (selectedFile s) (unreadCount s)
    (firstUnreadId s) (wsRef s) (fileInputRef s)
    (intersectionObserverRef s) v (readTimerRef s) (lastSentReadDateRef s)
    (clock s) (nextTimer s) (timers s) (outbox s) (alerts s).

Definition set_readTimerRef (v : option nat) (s : State) : State :=
  mkState (messages s) (newMessage s) (loading s) (sending s)
    (uploading s) (wsConnected s) (selectedFile s) (unreadCount s)
    (firstUnreadId s) (wsRef s) (fileInputRef s)
    (intersectionObserverRef s) (pendingLastSeenDateRef s) v
    (lastSentReadDateRef s) (clock s) (nextTimer s) (timers s) (outbox s)
    (alerts s).

Definition set_lastSentReadDateRef (v : option string) (s : State) : State :=
  mkState (messages s) (newMessage s) (loading s) (sending s)
    (uploading s) (wsConnected s) (selectedFile s) (unreadCount s)
    (firstUnreadId s) (wsRef s) (fileInputRef s)
    (intersectionObserverRef s) (pendingLastSeenDateRef s)
    (readTimerRef s) v (clock s) (nextTimer s) (timers s) (outbox s)
    (alerts s).

Definition set_clock (v : Z) (s : State) : State :=
  mkState (messages s) (newMessage s) (loading s) (sending s)
    (uploading s) (wsConnected s) (selectedFile s) (unreadCount s)
    (firstUnreadId s) (wsRef s) (fileInputRef s)
    (intersectionObserverRef s) (pendingLastSeenDateRef s)
    (readTimerRef s) (lastSentReadDateRef s) v (nextTimer s) (timers s)
    (outbox s) (alerts s).

Definition set_nextTimer (v : nat) (s : State) : State :=
  mkState (messages s) (newMessage s) (loading s) (sending s)
    (uploading s) (wsConnected s) (selectedFile s) (unreadCount s)
    (firstUnreadId s) (wsRef s) (fileInputRef s)
    (intersectionObserverRef s) (pendingLastSeenDateRef s)
    (readTimerRef s) (lastSentReadDateRef s) (clock s) v (timers s)
    (outbox s) (alerts s).

Definition set_timers (v : list (nat * Z)) (s : State) : State :=
  mkState (messages s) (newMessage s) (loading s) (sending s)
    (uploading s) (wsConnected s) (selectedFile s) (unreadCount s)
    (firstUnreadId s) (wsRef s) (fileInputRef s)
    (intersectionObserverRef s) (pendingLastSeenDateRef s)
    (readTimerRef s) (lastSentReadDateRef s) (clock s) (nextTimer s) v
    (outbox s) (alerts s).

Definition set_outbox (v : list Outbound) (s : State) : State :=
  mkState (messages s) (newMessage s) (loading s) (sending s)
    (uploading s) (wsConnected s) (selectedFile s) (unreadCount s)
    (firstUnreadId s) (wsRef s) (fileInputRef s)
    (intersectionObserverRef s) (pendingLastSeenDateRef s)
    (readTimerRef s) (lastSentReadDateRef s) (clock s) (nextTimer s)
    (timers s) v (alerts s).

Definition set_alerts (v : list string) (s : State) : State :=
  mkState (messages s) (newMessage s) (loading s) (sending s)
    (uploading s) (wsConnected s) (selectedFile s) (unreadCount s)
    (firstUnreadId s) (wsRef s) (fileInputRef s)
    (intersectionObserverRef s) (pendingLastSeenDateRef s)
    (readTimerRef s) (lastSentReadDateRef s) (clock s) (nextTimer s)
    (timers s) (outbox s) v.

(** ** The component *)

Section Component.

(** [new Date(String(s)).getTime()] and [new Date(ms).toISOString()]. *)
Variable getTime : string -> option Z.
Variable toISOString : Z -> string.

(** [String.prototype.trim] *)
Variable trim : string -> string.

(** *** Derived unread state *)

(** [m.is_read === false && m.sender_id !== currentUserId] *)
Definition unreadFromOthers (currentUserId : Z) (m : Message) : bool :=
  negb (is_read m) && negb (sender_id m =? currentUserId).

(** [updated.filter(...).length] *)
Definition countUnread (currentUserId : Z) (l : list Message) : nat :=
  length (List.filter (unreadFromOthers currentUserId) l).

(** [firstUnread ? firstUnread.id : null] of [updated.find(...)] *)
Definition findFirstUnreadId (currentUserId : Z) (l : list Message)
  : option Z :=
  match List.find (unreadFromOthers currentUserId) l with
  | Some m => Some (id m)
  | None => None
  end.

(** The tail of the three recomputing updaters: store the new list
    and both counters derived from it. *)
Definition recompute (currentUserId : Z) (updated : list Message)
    (st : State) : State :=
  set_messages updated
    (set_firstUnreadId (findFirstUnreadId currentUserId updated)
       (set_unreadCount (countUnread currentUserId updated) st)).

(** *** Marking messages read *)

(** The [map] callback of [sendReadReceipts]. *)
Definition markSeen (currentUserId cutoff : Z) (msg : Message)
  : Message :=
  let t := Js.of_time (getTime (created_at msg)) in
  if negb (sender_id msg =? currentUserId) && Js.isFinite t
     && Js.le t (Js.Num cutoff) && negb (is_read msg)
  then with_is_read msg true
  else msg.

(** The [map] callback of the [messages_read] branch. *)
Definition markRead (currentUserId cutoff : Z) (isPeerReader : bool)
    (msg : Message) : Message :=
  let t := Js.of_time (getTime (created_at msg)) in
  if negb (Js.isFinite t) || Js.gt t (Js.Num cutoff) || is_read msg
  then msg
  else if isPeerReader
  then (if sender_id msg =? currentUserId
        then with_is_read msg true else msg)
  else (if negb (sender_id msg =? currentUserId)
        then with_is_read msg true else msg).

(** The whole updater of the [messages_read] branch. *)
Definition markReadUpTo (currentUserId cutoff : Z) (isPeerReader : bool)
    (st : State) : State :=
  recompute currentUserId
    (map (markRead currentUserId cutoff isPeerReader) (messages st)) st.

(** *** History load *)

Definition or_else {A} (o : option A) (d : A) : A :=
  match o with
  | Some x => x
  | None => d
  end.

Definition is_some {A} (o : option A) : bool :=
  match o with
  | Some _ => true
  | None => false
  end.

Definition ensureType (now : Z) (raw : RawMessage) : Message :=
  let inferredType :=
    if Js.truthy_ostr (raw_type raw)
    then (if Js.strict_eq_ref (raw_type raw) "file" then file else message)
    else (if is_some (raw_attachment_id raw) || is_some (raw_file_name raw)
          then file else message) in
  mkMessage (raw_id raw) (raw_conversation_id raw)
    (raw_attachment_id raw) (raw_sender_id raw) (raw_content raw)
    (raw_file_name raw) (raw_file_type raw) (raw_description raw)
    (raw_file_size raw)
    (or_else (raw_created_at raw)
       (or_else (raw_timestamp raw) (toISOString now)))
    inferredType (raw_is_read raw).

(** The comparator handed to [sort]. *)
Definition byCreatedAt (a b : Message) : Js.num :=
  Js.sub (Js.of_time (getTime (created_at a)))
         (Js.of_time (getTime (created_at b))).

(** [Array.prototype.sort] is a stable sort (ECMAScript 2019); with a
    consistent comparator its result is the one computed by this
    insertion sort.  A comparator result of [NaN] counts as [+0]. *)
Fixpoint sort_insert (cmp : Message -> Message -> Js.num) (x : Message)
    (l : list Message) : list Message :=
  match l with
  | [] => [x]
  | y :: r =>
      if Js.gt (cmp x y) (Js.Num 0)
      then y :: sort_insert cmp x r
      else x :: y :: r
  end.

Fixpoint Array_sort (cmp : Message -> Message -> Js.num)
    (l : list Message) : list Message :=
  match l with
  | [] => []
  | x :: r => sort_insert cmp x (Array_sort cmp r)
  end.

(** [readMessages]: the read array, every item tagged read. *)
Definition taggedRead (now : Z) (data : HistoryResponse)
  : list Message :=
  match readed_messages data with
  | Some l => map (fun raw => with_is_read (ensureType now raw) true) l
  | None => []
  end.

(** [allUnreadMessages]: the unread array, every item tagged unread. *)
Definition taggedUnread (now : Z) (data : HistoryResponse)
  : list Message :=
  match not_readed_messages data with
  | Some l => map (fun raw => with_is_read (ensureType now raw) false) l
  | None => []
  end.

(** The continuation of [loadMessages] once [fetch] has settled, in
    the closure of the render whose conversation is
    [conversationId]. *)
Definition loadMessages (conversationId : option Z) (currentUserId : Z)
    (outcome : FetchOutcome) (st : State) : State :=
  if negb (Js.truthy_num conversationId) then set_loading false st
  else
    match outcome with
    | FetchOk data =>
        let allUnreadMessages := taggedUnread (clock st) data in
        let unreadMessages :=
          List.filter (fun m => negb (sender_id m =? currentUserId))
            allUnreadMessages in
        let allMessages :=
          Array_sort byCreatedAt
            (taggedRead (clock st) data ++ allUnreadMessages) in
        let firstUnreadMessage :=
          findFirstUnreadId currentUserId allMessages in
        set_loading false
          (set_messages allMessages
             (set_firstUnreadId firstUnreadMessage
                (set_unreadCount (length unreadMessages) st)))
    | FetchNotOk => set_loading false st
    | FetchError => set_loading false st
    end.

(** *** Timers *)

Definition clearTimeout (h : nat) (st : State) : State :=
  set_timers
    (List.filter (fun p => negb (Nat.eqb (fst p) h)) (timers st)) st.

(** [setTimeout(cb, delay)]: queue a timeout and return its handle. *)
Definition setTimeout (delay : Z) (st : State) : nat * State :=
  (nextTimer st,
   set_nextTimer (S (nextTimer st))
     (set_timers (timers st ++ [(nextTimer st, clock st + delay)]) st)).

(** *** Socket state *)

(** [wsRef.current && wsRef.current.readyState === WebSocket.OPEN] *)
Definition ws_ready (st : State) : bool :=
  match wsRef st with
  | Some ws => is_open (readyState ws)
  | None => false
  end.

(** [wsRef.current.send(frame)] on an open socket. *)
Definition ws_send (frame : Outbound) (st : State) : State :=
  set_outbox (outbox st ++ [frame]) st.

Definition alert (text : string) (st : State) : State :=
  set_alerts (alerts st ++ [text]) st.

(** *** Read receipts *)

Definition sendReadReceipts (conversationId : option Z)
    (currentUserId : Z) (st : State) : State :=
  if negb (ws_ready st) then st
  else
    match pendingLastSeenDateRef st with
    | None => st
    | Some lastSeen =>
        if negb (Js.truthy_str lastSeen) then st
        else
          let st1 := set_lastSentReadDateRef (Some lastSeen) st in
          let st2 :=
            ws_send (mark_as_read lastSeen currentUserId conversationId)
              st1 in
          let st3 := set_pendingLastSeenDateRef None st2 in
          match getTime lastSeen with
          | Some cutoff =>
              recompute currentUserId
                (map (markSeen currentUserId cutoff) (messages st3)) st3
          | None => st3
          end
    end.

Definition scheduleReadReceipts (st : State) : State :=
  let st1 :=
    match readTimerRef st with
    | Some h => clearTimeout h st
    | None => st
    end in
  let '(h, st2) := setTimeout 200 st1 in
  set_readTimerRef (Some h) st2.

(** One round of the [entries.forEach] callback. *)
Definition observeEntry (st : State) (entry : Entry) : State :=
  if isIntersecting entry && isUnreadMessage entry && isFromOthers entry
  then
    let st1 :=
      if Js.truthy_str (createdAt entry)
      then
        let current := pendingLastSeenDateRef st in
        let tNew := Js.of_time (getTime (createdAt entry)) in
        let tOld :=
          match current with
          | Some c =>
              if Js.truthy_str c then Js.of_time (getTime c)
              else Js.NegInfinity
          | None => Js.NegInfinity
          end in
        if Js.isFinite tNew && Js.gt tNew tOld
        then set_pendingLastSeenDateRef (Some (createdAt entry)) st
        else st
      else st in
    scheduleReadReceipts st1
  else st.

(** The [IntersectionObserver] callback; a disconnected observer
    delivers nothing. *)
Definition observerCallback (entries : list Entry) (st : State)
  : State :=
  if intersectionObserverRef st then fold_left observeEntry entries st
  else st.

Definition setupIntersectionObserver (st : State) : State :=
  set_intersectionObserverRef true st.

(** Time passes: the clock advances by [dt] and every timeout that
    has come due runs [sendReadReceipts], the only callback the
    component ever queues. *)
Definition due (now : Z) (p : nat * Z) : bool := snd p <=? now.

Definition tick (conversationId : option Z) (currentUserId : Z)
    (dt : Z) (st : State) : State :=
  let st1 := set_clock (clock st + dt) st in
  let fired := List.filter (due (clock st1)) (timers st1) in
  let st2 :=
    set_timers
      (List.filter (fun p => negb (due (clock st1) p)) (timers st1))
      st1 in
  fold_left
    (fun s _ => sendReadReceipts conversationId currentUserId s)
    fired st2.

(** *** The socket *)

Definition connectWebSocket (conversationId : option Z)
    (currentUserId : Z) (st : State) : State :=
  match conversationId with
  | Some c =>
      if negb (Js.truthy_num conversationId) then st
      else if ws_ready st then set_wsConnected true st
      else set_wsRef (Some (mkWebSocket c currentUserId CONNECTING)) st
  | None => st
  end.

(** The browser opens the socket, then [onopen] runs. *)
Definition ws_onopen (st : State) : State :=
  match wsRef st with
  | Some ws =>
      set_wsConnected true
        (set_wsRef
           (Some (mkWebSocket (ws_conversation ws) (ws_user ws) OPEN))
           st)
  | None => st
  end.

(** The connection drops, then [onclose] runs. *)
Definition ws_onclose (st : State) : State :=
  match wsRef st with
  | Some ws =>
      set_wsConnected false
        (set_wsRef
           (Some (mkWebSocket (ws_conversation ws) (ws_user ws) CLOSED))
           st)
  | None => st
  end.

(** [typeof data.user_id === 'number' ? data.user_id : ...] *)
Definition readerIdOf (user_id reader_id readerId : option Z)
  : option Z :=
  match user_id with
  | Some n => Some n
  | None =>
      match reader_id with
      | Some n => Some n
      | None => readerId
      end
  end.

(** [isPeerReader] *)
Definition isPeerReader (currentUserId : Z) (readerId : option Z)
    (isSelfAckByTimestamp : bool) : bool :=
  match readerId with
  | Some r => negb (r =? currentUserId)
  | None => negb isSelfAckByTimestamp
  end.

Definition liveTextMessage (now : Z) (p : TextPayload) : Message :=
  mkMessage (or_else (p_id p) now) (p_conversation_id p) None
    (p_sender_id p) (Some (p_content p)) None None None None
    (p_timestamp p) message false.

Definition liveFileMessage (now : Z) (p : FilePayload) : Message :=
  mkMessage (or_else (fp_id p) now) (fp_conversation_id p)
    (fp_attachment_id p) (fp_sender_id p) None
    (Some (fp_file_name p)) (Some (fp_file_type p))
    (Some (fp_description p)) (Some (fp_file_size p))
    (fp_timestamp p) file false.

(** [wsRef.current.onmessage] *)
Definition ws_onmessage (currentUserId : Z) (data : Inbound)
    (st : State) : State :=
  match data with
  | InMessage (Some p) =>
      recompute currentUserId
        (messages st ++ [liveTextMessage (clock st) p]) st
  | InMessage None => st
  | InFile (Some p) =>
      recompute currentUserId
        (messages st ++ [liveFileMessage (clock st) p]) st
  | InFile None => st
  | InMessagesRead None _ _ _ => st
  | InMessagesRead (Some lastSeen) user_id reader_id readerId =>
      if negb (Js.truthy_str lastSeen) then st
      else
        match getTime lastSeen with
        | None => st
        | Some cutoff =>
            let readerId := readerIdOf user_id reader_id readerId in
            let isSelfAckByTimestamp :=
              Js.strict_eq_ref (lastSentReadDateRef st) lastSeen in
            let st1 :=
              if isSelfAckByTimestamp
              then set_lastSentReadDateRef None st
              else st in
            markReadUpTo currentUserId cutoff
              (isPeerReader currentUserId readerId isSelfAckByTimestamp)
              st1
        end
  | InUnknown _ => st
  | InMalformed => st
  end.

(** *** Sending *)

Definition optimisticMessage (now conv currentUserId : Z)
    (text : string) : Message :=
  mkMessage now conv None currentUserId (Some text) None None None None
    (toISOString now) message false.

Definition sendMessage (conversationId : option Z) (currentUserId : Z)
    (st : State) : State :=
  if negb (Js.truthy_str (trim (newMessage st))) then st
  else if negb (ws_ready st)
  then alert
         "Chat connection lost or not ready. Please wait a moment and try again."
         st
  else
    match conversationId with
    | None => st
    | Some conv =>
        if negb (Js.truthy_num conversationId) then st
        else
          let st1 := set_sending true st in
          let now := clock st in
          let st2 :=
            ws_send
              (out_message now conv currentUserId (newMessage st)
                 (toISOString now)) st1 in
          let st3 := set_newMessage "" st2 in
          let st4 :=
            set_messages
              (messages st3
               ++ [optimisticMessage now conv currentUserId
                     (newMessage st)]) st3 in
          set_sending false st4
    end.

(** [handleFileUpload] up to the [await fetch(...)]. *)
Definition handleFileUpload (conversationId : option Z) (st : State)
  : State :=
  if negb (is_some (fileInputRef st))
     || negb (Js.truthy_num conversationId)
     || negb (is_some (selectedFile st))
  then st
  else if negb (ws_ready st)
  then alert "Chat connection not ready. Please wait and try again." st
  else set_uploading true st.

(** The [finally] block of [handleFileUpload]. *)
Definition uploadFinally (st : State) : State :=
  set_fileInputRef None (set_uploading false st).

Definition optimisticFileMessage (now conv currentUserId : Z)
    (data : BackendFileData) : Message :=
  mkMessage now conv (Some (b_attachment_id data)) currentUserId None
    (Some (b_file_name data)) (Some (b_file_type data))
    (Some (or_else (b_description data) ""))
    (Some (b_file_size data)) (toISOString now) file false.

(** [handleFileUpload] from the point where the upload has settled.
    The same closure has checked [chat.conversationId] before the
    upload, so it is present here. *)
Definition handleFileUpload_settled (conversationId : option Z)
    (currentUserId : Z) (outcome : UploadOutcome) (st : State)
  : State :=
  match outcome, conversationId with
  | UploadOk data, Some conv =>
      if negb (ws_ready st)
      then uploadFinally
             (alert
                "Connection lost during upload. File uploaded but not sent to chat."
                st)
      else
        let now := clock st in
        let st1 :=
          ws_send
            (out_file now conv currentUserId (b_attachment_id data)
               (b_file_name data) (b_file_type data)
               (or_else (b_description data) "") (b_file_size data)
               (toISOString now)) st in
        let st2 :=
          set_messages
            (messages st1
             ++ [optimisticFileMessage now conv currentUserId data])
            st1 in
        uploadFinally (set_selectedFile None st2)
  | UploadOk _, None => uploadFinally st
  | UploadNotOk, _ => uploadFinally (alert "Failed to upload file." st)
  | UploadError, _ => uploadFinally (alert "Error uploading file." st)
  end.

(** [handleFileSelect]; the image preview, which only the file card
    shows, is left out. *)
Definition handleFileSelect (f : FileMetadata) (st : State) : State :=
  set_selectedFile (Some f) (set_fileInputRef (Some f) st).

Definition cancelFileSelection (st : State) : State :=
  set_fileInputRef None (set_selectedFile None st).

(** *** Conversation changes *)

(** The [cleanup] closure of the conversation effect. *)
Definition cleanup (st : State) : State :=
  let st1 := set_wsConnected false (set_wsRef None st) in
  let st2 := set_intersectionObserverRef false st1 in
  let st3 :=
    match readTimerRef st2 with
    | Some h => set_readTimerRef None (clearTimeout h st2)
    | None => st2
    end in
  set_pendingLastSeenDateRef None st3.

(** The synchronous part of the effect on [chat.conversationId]. *)
Definition conversationEffect (conversationId : option Z) (st : State)
  : State :=
  if Js.truthy_num conversationId
  then set_loading true (set_messages [] st)
  else cleanup (set_loading false (set_messages [] st)).

(** [chat.conversationId] changes: React runs the cleanup of the
    previous effect, then the effect again. *)
Definition changeConversation (conversationId : option Z) (st : State)
  : State :=
  conversationEffect conversationId (cleanup st).

(** [loadAndConnect] from the point where the history fetch of the
    render with conversation [conversationId] has settled. *)
Definition loadAndConnect (conversationId : option Z)
    (currentUserId : Z) (outcome : FetchOutcome) (st : State) : State :=
  setupIntersectionObserver
    (connectWebSocket conversationId currentUserId
       (loadMessages conversationId currentUserId outcome st)).

(** *** One conversation session *)

(** What can happen while one conversation stays selected, after its
    history load. *)
Inductive Event :=
| Visible (entries : list Entry)
| Tick (dt : Z)
| Receive (data : Inbound)
| SocketOpened
| SocketClosed
| Typed (text : string)
| SendMessage
| FileSelected (f : FileMetadata)
| FileCancelled
| UploadStarted
| UploadSettled (outcome : UploadOutcome).

Definition step (conversationId : option Z) (currentUserId : Z)
    (st : State) (ev : Event) : State :=
  match ev with
  | Visible entries => observerCallback entries st
  | Tick dt => tick conversationId currentUserId dt st
  | Receive data => ws_onmessage currentUserId data st
  | SocketOpened => ws_onopen st
  | SocketClosed => ws_onclose st
  | Typed text => set_newMessage text st
  | SendMessage => sendMessage conversationId currentUserId st
  | FileSelected f => handleFileSelect f st
  | FileCancelled => cancelFileSelection st
  | UploadStarted => handleFileUpload conversationId st
  | UploadSettled outcome =>
      handleFileUpload_settled conversationId currentUserId outcome st
  end.

Definition run (conversationId : option Z) (currentUserId : Z)
    (events : list Event) (st : State) : State :=
  fold_left (step conversationId currentUserId) events st.

End Component.

(** The component as first mounted, at clock reading [now]. *)
Definition initial (now : Z) : State :=
  mkState [] "" true false false false None 0%nat None
    None None false None None None now 0%nat [] [] [].

End Chat.

(** ** Properties of the component *)

Module Props.
Import Chat.

Section Props.

Variable getTime : string -> option Z.
Variable toISOString : Z -> string.
Variable trim : string -> string.

(** The displayed counters agree with the store. *)
Definition unread_inv (currentUserId : Z) (st : State) : Prop :=
  unreadCount st = countUnread currentUserId (messages st)
  /\ firstUnreadId st = findFirstUnreadId currentUserId (messages st).

(** A message may only change by having [is_read] flipped to true. *)
Definition evolves (m m' : Message) : Prop :=
  m' = m \/ (is_read m = false /\ m' = with_is_read m true).

(** Position by position, the later store holds an evolved copy of
    every message of the earlier one. *)
Definition store_evolves (l l' : list Message) : Prop :=
  forall (i : nat) (m : Message),
    l !! i = Some m -> exists m', l' !! i = Some m' /\ evolves m m'.

(** Single flight: the only timeout that can be pending is the one
    whose handle the component holds. *)
Definition timers_owned (st : State) : Prop :=
  forall p, In p (timers st) -> readTimerRef st = Some (fst p).

(** *** Ordering by creation time *)

Definition timeIs (t : Z) (m : Message) : bool :=
  match getTime (created_at m) with
  | Some x => x =? t
  | None => false
  end.

Definition notAfter (a b : Message) : Prop :=
  exists ta tb,
    getTime (created_at a) = Some ta
    /\ getTime (created_at b) = Some tb /\ ta <= tb.

Definition validTime (m : Message) : Prop :=
  exists t, getTime (created_at m) = Some t.

(** *** Visibility bursts *)

(** An entry that makes the observer call [scheduleReadReceipts]. *)
Definition qualifies (e : Entry) : bool :=
  isIntersecting e && isUnreadMessage e && isFromOthers e.

(** A timestamp the cursor can take: not empty, and a date. *)
Definition dated (T : string) : Prop :=
  Js.truthy_str T = true /\ exists t, getTime T = Some t.

(** The cursor, when it is set, holds such a timestamp. *)
Definition cursor_dated (st : State) : Prop :=
  forall T, pendingLastSeenDateRef st = Some T -> dated T.

(** [T] is one of the [candidates], it is dated, and no dated candidate
    is later. *)
Definition latest (candidates : list string) (T : string) : Prop :=
  In T candidates
  /\ Js.truthy_str T = true
  /\ exists t,
       getTime T = Some t
       /\ forall T' t',
            In T' candidates -> Js.truthy_str T' = true ->
            getTime T' = Some t' -> t' <= t.

(** The timestamps in play when the entries [seen] are reported to the
    component in state [st]: the cursor left pending in [st], if any,
    and the timestamps of the entries. *)
Definition inPlay (st : State) (seen : list Entry) : list string :=
  match pendingLastSeenDateRef st with
  | Some T => [T]
  | None => []
  end ++ map createdAt seen.

(** One later schedule call: [fst c] milliseconds after the previous
    one, the observer reports the entry [snd c]. *)

Definition scheduleCall (conversationId : option Z) (currentUserId : Z)
    (st : State) (c : Z * Entry) : State :=
  observerCallback getTime [snd c]
    (tick getTime conversationId currentUserId (fst c) st).

Definition burst (conversationId : option Z) (currentUserId : Z)
    (first : Entry) (later : list (Z * Entry)) (st : State) : State :=
  fold_left (scheduleCall conversationId currentUserId) later
    (observerCallback getTime [first] st).

(** *** Store operations *)

(** The operations that write the message store. *)
Inductive StoreOp :=
| HistoryLoad (outcome : FetchOutcome)
| LiveAppend (data : Inbound)
| OptimisticText
| OptimisticFile (outcome : UploadOutcome)
| ReceiptFlush
| Reconcile (lastSeen : option string)
    (user_id reader_id readerId : option Z).

Definition apply_op (conversationId : option Z) (currentUserId : Z)
    (op : StoreOp) (st : State) : State :=
  match op with
  | HistoryLoad outcome =>
      loadMessages getTime toISOString conversationId currentUserId
        outcome st
  | LiveAppend (InMessage p) =>
      ws_onmessage getTime currentUserId (InMessage p) st
  | LiveAppend (InFile p) =>
      ws_onmessage getTime currentUserId (InFile p) st
  | LiveAppend _ => st
  | OptimisticText =>
      sendMessage toISOString trim conversationId currentUserId st
  | OptimisticFile outcome =>
      handleFileUpload_settled toISOString conversationId currentUserId
        outcome st
  | ReceiptFlush =>
      sendReadReceipts getTime conversationId currentUserId st
  | Reconcile lastSeen user_id reader_id readerId =>
      ws_onmessage getTime currentUserId
        (InMessagesRead lastSeen user_id reader_id readerId) st
  end.

(** The two optimistic sends append without recomputing. *)
Definition optimistic (op : StoreOp) : bool :=
  match op with
  | OptimisticText => true
  | OptimisticFile _ => true
  | _ => false
  end.

(** *** Send attempts *)

(** A send is refused for want of an open socket at one of three
    places: the guard of [sendMessage], the guard of
    [handleFileUpload] before the upload, and its second guard, after
    the upload has succeeded. *)
Inductive Attempt :=
| TextAttempt
| FileAttempt
| FileUploaded (data : BackendFileData).

(** There is something to send. *)
Definition hasContent (conversationId : option Z) (a : Attempt)
    (st : State) : bool :=
  match a with
  | TextAttempt => Js.truthy_str (trim (newMessage st))
  | FileAttempt =>
      is_some (fileInputRef st) && Js.truthy_num conversationId
      && is_some (selectedFile st)
  | FileUploaded _ => Js.truthy_num conversationId
  end.

Definition attempt (conversationId : option Z) (currentUserId : Z)
    (a : Attempt) (st : State) : State :=
  match a with
  | TextAttempt =>
      sendMessage toISOString trim conversationId currentUserId st
  | FileAttempt => handleFileUpload conversationId st
  | FileUploaded data =>
      handleFileUpload_settled toISOString conversationId currentUserId
        (UploadOk data) st
  end.

Definition notReadyText (a : Attempt) : string :=
  match a with
  | TextAttempt =>
      "Chat connection lost or not ready. Please wait a moment and try again."
  | FileAttempt =>
      "Chat connection not ready. Please wait and try again."
  | FileUploaded _ =>
      "Connection lost during upload. File uploaded but not sent to chat."
  end.

(** *** The state of a burst *)

(** After some schedule calls of one burst on [st]: nothing has been
    sent, and exactly one timeout is pending, a full delay away. *)
Definition waiting (st s : State) : Prop :=
  wsRef s = wsRef st
  /\ outbox s = outbox st
  /\ intersectionObserverRef s = true
  /\ exists h, readTimerRef s = Some h
               /\ timers s = [(h, clock s + 200)].

(** The cursor follows the [candidates]: it holds a latest dated one,
    and is empty only if none of them is dated. *)
Definition tracks (candidates : list string) (s : State) : Prop :=
  match pendingLastSeenDateRef s with
  | Some T => latest candidates T
  | None => forall T, In T candidates -> ~ dated T
  end.

(** *** The life of the component *)

(** Everything that can happen to the mounted component: the
    selected conversation changes, the history fetch started for a
    conversation settles, or a session event is delivered to the
    handlers of a conversation. *)
Inductive Action :=
| Select (conversationId : option Z)
| HistorySettled (conversationId : option Z) (outcome : FetchOutcome)
| During (conversationId : option Z) (ev : Event).

Definition act (currentUserId : Z) (st : State) (a : Action) : State :=
  match a with
  | Select conv => changeConversation conv st
  | HistorySettled conv outcome =>
      loadAndConnect getTime toISOString conv currentUserId outcome st
  | During conv ev => step getTime toISOString trim conv currentUserId st ev
  end.

Definition perform (currentUserId : Z) (actions : list Action)
    (st : State) : State :=
  fold_left (act currentUserId) actions st.

End Props.

End Props.

(** ** Concrete runs

    Two conversations of user 1 with user 2, on the calendar of
    [IsoDate]. *)

Module Scenario.
Import Chat Props.

Definition me : Z := 1.
Definition peer : Z := 2.
Definition convA : Z := 7.
Definition convB : Z := 8.

Definition t0 : string := "2024-01-01T00:00:00.000Z".
Definition t1 : string := "2024-01-01T00:00:01.000Z".
Definition t2 : string := "2024-01-01T00:00:02.000Z".
Definition t3 : string := "2024-01-01T00:00:03.000Z".
Definition t4 : string := "2024-01-01T00:00:04.000Z".

(** The clock reading at mount: 2024-01-01T00:00:10.000Z. *)
Definition now0 : Z := 1704067210000.

Definition item (conv mid sender : Z) (at_ : string) : RawMessage :=
  mkRaw mid conv None sender (Some "text") None None None None
    (Some at_) None None false.

Definition readA : list RawMessage := [item convA 1 peer t1].

Definition unreadA : list RawMessage :=
  [item convA 3 me t3; item convA 2 peer t2; item convA 10 me t0;
   item convA 4 peer t4].

(** History of conversation A: one read message of the peer; unread,
    and out of order, two messages of the user and two of the peer. *)
Definition historyA : HistoryResponse :=
  mkHistory (Some readA) (Some unreadA).

Definition historyB : HistoryResponse :=
  mkHistory (Some [item convB 20 peer t1]) (Some []).

Definition go : list Action -> State -> State :=
  perform IsoDate.getTime IsoDate.toISOString Js.trim me.

(** Conversation A selected and loaded; the socket still connecting. *)
Definition connecting : State :=
  go [Select (Some convA);
      HistorySettled (Some convA) (FetchOk historyA)] (initial now0).

(** The same, with the socket open. *)
Definition loaded : State :=
  go [During (Some convA) SocketOpened] connecting.

Definition visible (at_ : string) : Entry := mkEntry at_ true true true.

(** The peer's unread message has come into view. *)
Definition seen : State :=
  go [During (Some convA) (Visible [visible t2])] loaded.

(** The receipt for it has been flushed. *)
Definition flushed : State :=
  go [During (Some convA) (Tick 200)] seen.

(** A text typed while the socket is open, and while it is not. *)
Definition typing : State :=
  go [During (Some convA) (Typed " hi ")] loaded.

Definition typingOffline : State :=
  go [During (Some convA) (Typed " hi ")] connecting.

(** A file picked while the socket is not open. *)
Definition pickedOffline : State :=
  go [During (Some convA) (FileSelected (mkFile "a.txt" 3 "text/plain"))]
    connecting.

(** Conversation B selected after A; B's history request fails, its
    socket opens and a text is typed. *)
Definition afterFailedLoad : State :=
  go [Select (Some convB);
      HistorySettled (Some convB) FetchNotOk;
      During (Some convB) SocketOpened;
      During (Some convB) (Typed "hi")] loaded.

(** B is selected while A's history fetch is in flight; B's fetch
    settles first, A's afterwards. *)
Definition lateHistory : State :=
  go [Select (Some convA);
      Select (Some convB);
      HistorySettled (Some convB) (FetchOk historyB);
      HistorySettled (Some convA) (FetchOk historyA)] (initial now0).

(** What a test reads off the store. *)
Definition summary (st : State) : list (Z * Z * Z * bool) :=
  map (fun m => (conversation_id m, id m, sender_id m, is_read m))
    (messages st).

End Scenario.

(** ** The contact list ([Messenger])

    The component that owns the selection and hands [ChatArea] its
    props, in the version that polls unread counts. *)

Module Messenger.

Record Friend := mkFriend {
  id : Z;
  login : string;
  password : string;
  firstname : string;
  lastname : string;
  active : bool;
  conversation_id : option Z    (* (friend as any).conversation_id *)
}.

Record Group := mkGroup {
  group_id : Z;
  group_name : string;
  is_group : bool;
  created_at : string
}.

(** [type: 'friend' | 'group'] *)
Inductive ChatType :=
| friend
| group.

Inductive ChatData :=
| FriendData (f : Friend)
| GroupData (g : Group).

Record SelectedChat := mkChat {
  type : ChatType;
  data : ChatData;
  conversationId : option Z
}.

(** One item of the body of [POST /unreaded-user-messages]. *)
Record UnreadItem := mkUnread {
  item_conversation_id : Z;
  unreaded_messages : Z
}.

Inductive PollOutcome :=
| PollOk (data : list UnreadItem)
| PollNotOk
| PollError.

(** Both requests of [fetchFriendsAndGroups]; a response is [Some] when
    it is [ok]. *)
Inductive ListsOutcome :=
| ListsFetched (friendsData : option (list Friend))
    (groupsData : option (list Group))
| ListsError.

(** [GET /conversation/{user}/{friend}]; [conversation.id] may be
    missing from the body. *)
Inductive LookupOutcome :=
| LookupOk (conversation : option Z)
| LookupNotOk (status : Z) (errorText : string)
| LookupError.

Record State := mkState {
  friends : list Friend;
  groups : list Group;
  selectedChat : option SelectedChat;
  loading : bool;
  unreadCounts : gmap Z Z;  (* unread counts keyed by conversation_id *)
  unreadInFlight : bool;  (* unreadInFlight.current *)
  alerts : list string;  (* messages shown with alert(), oldest first *)
  pollsSent : nat;  (* POST /unreaded-user-messages requests issued *)
  pollsSettled : nat;  (* of which have settled *)
  lookups : list (Z * Z)  (* GET /conversation/{user}/{friend} requests issued *)
}.

Definition set_friends (v : list Friend) (s : State) : State :=
  mkState v (groups s) (selectedChat s) (loading s) (unreadCounts s)
    (unreadInFlight s) (alerts s) (pollsSent s) (pollsSettled s) (lookups s).

Definition set_groups (v : list Group) (s : State) : State :=
  mkState (friends s) v (selectedChat s) (loading s) (unreadCounts s)
    (unreadInFlight s) (alerts s) (pollsSent s) (pollsSettled s) (lookups s).

Definition set_selectedChat (v : option SelectedChat) (s : State) : State :=
  mkState (friends s) (groups s) v (loading s) (unreadCounts s)
    (unreadInFlight s) (alerts s) (pollsSent s) (pollsSettled s) (lookups s).

Definition set_loading (v : bool) (s : State) : State :=
  mkState (friends s) (groups s) (selectedChat s) v (unreadCounts s)
    (unreadInFlight s) (alerts s) (pollsSent s) (pollsSettled s) (lookups s).

Definition set_unreadCounts (v : gmap Z Z) (s : State) : State :=
  mkState (friends s) (groups s) (selectedChat s) (loading s) v
    (unreadInFlight s) (alerts s) (pollsSent s) (pollsSettled s) (lookups s).

Definition set_unreadInFlight (v : bool) (s : State) : State :=
  mkState (friends s) (groups s) (selectedChat s) (loading s)
    (unreadCounts s) v (alerts s) (pollsSent s) (pollsSettled s) (lookups s).

Definition set_alerts (v : list string) (s : State) : State :=
  mkState (friends s) (groups s) (selectedChat s) (loading s)
    (unreadCounts s) (unreadInFlight s) v (pollsSent s) (pollsSettled s)
    (lookups s).

Definition set_pollsSent (v : nat) (s : State) : State :=
  mkState (friends s) (groups s) (selectedChat s) (loading s)
    (unreadCounts s) (unreadInFlight s) (alerts s) v (pollsSettled s)
    (lookups s).

Definition set_pollsSettled (v : nat) (s : State) : State :=
  mkState (friends s) (groups s) (selectedChat s) (loading s)
    (unreadCounts s) (unreadInFlight s) (alerts s) (pollsSent s) v
    (lookups s).

Definition set_lookups (v : list (Z * Z)) (s : State) : State :=
  mkState (friends s) (groups s) (selectedChat s) (loading s)
    (unreadCounts s) (unreadInFlight s) (alerts s) (pollsSent s)
    (pollsSettled s) v.
(** The component as first mounted. *)
Definition initial : State :=
  mkState [] [] None true ∅ false [] 0%nat 0%nat [].

Definition alert (text : string) (st : State) : State :=
  set_alerts (alerts st ++ [text]) st.

(** *** Unread counts *)

(** The loop [for (const item of data) map[item.conversation_id] = ...]
    on an empty object. *)
Definition unreadMap (data : list UnreadItem) : gmap Z Z :=
  fold_left
    (fun map item =>
       <[item_conversation_id item := unreaded_messages item]> map)
    data ∅.

(** [poll] up to its [await fetch(...)]. *)
Definition poll (st : State) : State :=
  if unreadInFlight st then st
  else set_pollsSent (S (pollsSent st)) (set_unreadInFlight true st).

(** [poll] from the point where its request has settled. *)
Definition poll_settled (outcome : PollOutcome) (st : State) : State :=
  let st1 :=
    match outcome with
    | PollOk data => set_unreadCounts (unreadMap data) st
    | PollNotOk => st
    | PollError => st
    end in
  set_unreadInFlight false (set_pollsSettled (S (pollsSettled st1)) st1).

(** The badge of a conversation:
    [(unreadCounts[c] ?? 0) > 0 && unreadCounts[c]]. *)
Definition badge (counts : gmap Z Z) (c : Z) : option Z :=
  if 0 <? default 0 (counts !! c) then counts !! c else None.

Definition groupBadge (counts : gmap Z Z) (g : Group) : option Z :=
  badge counts (group_id g).

Definition friendBadge (counts : gmap Z Z) (f : Friend) : option Z :=
  if Js.truthy_num (conversation_id f)
  then badge counts (default 0 (conversation_id f))
  else None.

(** *** The lists *)

(** [fetchFriendsAndGroups] from the point where both requests have
    settled. *)
Definition fetchFriendsAndGroups_settled (outcome : ListsOutcome)
    (st : State) : State :=
  let st1 :=
    match outcome with
    | ListsFetched friendsData groupsData =>
        let st' :=
          match friendsData with
          | Some l => set_friends l st
          | None => st
          end in
        match groupsData with
        | Some l => set_groups l st'
        | None => st'
        end
    | ListsError => st
    end in
  set_loading false st1.

(** *** Selecting a chat *)

(** [handleFriendClick] up to its [await fetch(...)]; [user_id] is
    [user?.user_id]. *)
Definition handleFriendClick (user_id : option Z) (f : Friend)
    (st : State) : State :=
  if negb (Js.truthy_num (Some (id f)))
  then alert "Unable to start conversation: Friend ID is missing." st
  else if negb (Js.truthy_num user_id) then st
  else if Js.truthy_num (conversation_id f)
  then set_selectedChat
         (Some (mkChat friend (FriendData f) (conversation_id f))) st
  else set_lookups (lookups st ++ [(default 0 user_id, id f)]) st.

(** [handleFriendClick] from the point where the lookup has settled. *)
Definition handleFriendClick_settled (f : Friend) (outcome : LookupOutcome)
    (st : State) : State :=
  match outcome with
  | LookupOk conversation =>
      set_selectedChat (Some (mkChat friend (FriendData f) conversation)) st
  | LookupNotOk status errorText =>
      alert
        (String.append "Failed to get conversation: "
           (String.append (pretty status)
              (String.append " - " errorText))) st
  | LookupError => alert "Network error while getting conversation" st
  end.

Definition handleGroupClick (g : Group) (st : State) : State :=
  set_selectedChat (Some (mkChat group (GroupData g) (Some (group_id g))))
    st.

(** The props handed to [ChatArea]: [chat.conversationId] and
    [currentUserId = user?.user_id || 0]. *)
Definition chatConversation (st : State) : option Z :=
  match selectedChat st with
  | Some c => conversationId c
  | None => None
  end.

Definition currentUserId (user_id : option Z) : Z :=
  if Js.truthy_num user_id then default 0 user_id else 0.

(** *** What happens to the mounted list *)

Inductive Event :=
| PollTick                                  (* the 200 ms interval *)
| PollSettled (outcome : PollOutcome)
| ListsSettled (outcome : ListsOutcome)
| FriendClicked (f : Friend)
| LookupSettled (f : Friend) (outcome : LookupOutcome)
| GroupClicked (g : Group).

(** The interval runs only while a user is logged in, and a poll
    response is only delivered for a request in flight. *)
Definition step (user_id : option Z) (st : State) (ev : Event) : State :=
  match ev with
  | PollTick => if Js.truthy_num user_id then poll st else st
  | PollSettled outcome =>
      if unreadInFlight st then poll_settled outcome st else st
  | ListsSettled outcome => fetchFriendsAndGroups_settled outcome st
  | FriendClicked f => handleFriendClick user_id f st
  | LookupSettled f outcome => handleFriendClick_settled f outcome st
  | GroupClicked g => handleGroupClick g st
  end.

Definition run (user_id : option Z) (events : list Event) (st : State)
  : State :=
  fold_left (step user_id) events st.

(** The last item of a response for a conversation. *)
Definition lastItem (data : list UnreadItem) (c : Z) : option UnreadItem :=
  List.find (fun item => item_conversation_id item =? c) (rev data).

End Messenger.

(** ** The session ([AuthContext]) *)

Module Auth.

Record UserInfo := mkUser {
  user_id : Z;
  user_login : string;          (* login *)
  password : string;
  firstname : string;
  lastname : string
}.

Record State := mkState {
  user : option UserInfo;
  accessToken : option string;
  refreshToken : option string;
  isLoading : bool;
  localStorage : gmap string string
}.

Definition set_user (v : option UserInfo) (s : State) : State :=
  mkState v (accessToken s) (refreshToken s) (isLoading s) (localStorage s).

Definition set_accessToken (v : option string) (s : State) : State :=
  mkState (user s) v (refreshToken s) (isLoading s) (localStorage s).

Definition set_refreshToken (v : option string) (s : State) : State :=
  mkState (user s) (accessToken s) v (isLoading s) (localStorage s).

Definition set_isLoading (v : bool) (s : State) : State :=
  mkState (user s) (accessToken s) (refreshToken s) v (localStorage s).

Definition set_localStorage (v : gmap string string) (s : State) : State :=
  mkState (user s) (accessToken s) (refreshToken s) (isLoading s) v.
(** Body of [POST /login]. *)
Record LoginData := mkLoginData {
  message : string;
  user_info : option UserInfo
}.

(** The response of [POST /login]; the two headers are the values
    [response.headers.get] returns, header names being matched without
    regard to case. *)
Inductive LoginOutcome :=
| LoginOk (data : LoginData) (authorization x_refresh_token : option string)
| LoginNotOk
| LoginError.

Section Session.

(** [JSON.stringify] on a user, and [JSON.parse] on a stored user,
    [None] when it throws. *)
Variable stringify : UserInfo -> string.
Variable parse : string -> option UserInfo.

(** The provider as first mounted, over the storage of the browser. *)
Definition initial (storage : gmap string string) : State :=
  mkState None None None true storage.

(** [localStorage.getItem(key)], truthy. *)
Definition stored (key : string) (st : State) : bool :=
  match localStorage st !! key with
  | Some v => Js.truthy_str v
  | None => false
  end.

(** The effect run on mount; [None] when [JSON.parse] throws. *)
Definition restore (st : State) : option State :=
  if stored "accessToken" st && stored "user" st
  then
    match parse (default "" (localStorage st !! "user")) with
    | Some u =>
        Some
          (set_isLoading false
             (set_user (Some u)
                (set_refreshToken (localStorage st !! "refreshToken")
                   (set_accessToken (localStorage st !! "accessToken")
                      st))))
    | None => None
    end
  else Some (set_isLoading false st).

(** [s.replace('Bearer ', '')]: the first occurrence is removed. *)
Definition stripBearer (s : string) : string :=
  match String.index 0 "Bearer " s with
  | Some n =>
      String.append (String.substring 0 n s)
        (String.substring (n + 7) (String.length s - (n + 7)) s)
  | None => s
  end.

(** [response.headers.get('authorization')?.replace('Bearer ', '') || ''] *)
Definition tokenOf (authorization : option string) : string :=
  match authorization with
  | Some h => stripBearer h
  | None => ""
  end.

Definition setItem (key value : string) (st : State) : State :=
  set_localStorage (<[key := value]> (localStorage st)) st.

Definition removeItem (key : string) (st : State) : State :=
  set_localStorage (delete key (localStorage st)) st.

(** [login] from the point where the request has settled: the value
    the promise resolves to, and the state. *)
Definition login (outcome : LoginOutcome) (st : State) : bool * State :=
  match outcome with
  | LoginOk data authorization x_refresh_token =>
      match user_info data with
      | Some u =>
          if String.eqb (message data) "Login Successful"
          then
            let token := tokenOf authorization in
            let refresh := default "" x_refresh_token in
            let st1 :=
              set_refreshToken (Some refresh)
                (set_accessToken (Some token) (set_user (Some u) st)) in
            let st2 := setItem "user" (stringify u) st1 in
            let st3 :=
              if Js.truthy_str token then setItem "accessToken" token st2
              else st2 in
            let st4 :=
              if Js.truthy_str refresh
              then setItem "refreshToken" refresh st3
              else st3 in
            (true, st4)
          else (false, st)
      | None => (false, st)
      end
  | LoginNotOk => (false, st)
  | LoginError => (false, st)
  end.

Definition logout (st : State) : State :=
  removeItem "refreshToken"
    (removeItem "accessToken"
       (removeItem "user"
          (set_refreshToken None (set_accessToken None (set_user None st))))).

(** The page is loaded again: the provider mounts afresh over the
    storage left behind. *)
Definition reload (st : State) : option State :=
  restore (initial (localStorage st)).

End Session.

End Auth.

(** ** Conditions used by further properties *)

Module Conditions.
Import Chat Props.

(** Single flight, with the count: the pending timeouts are at most
    one, the one the component holds the handle of. *)
Definition single_flight (st : State) : Prop :=
  timers_owned st /\ (length (timers st) <= 1)%nat.

(** The message a live frame carries, if it carries one. *)
Definition liveMessage (now : Z) (data : Inbound) : option Message :=
  match data with
  | InMessage (Some p) => Some (liveTextMessage now p)
  | InFile (Some p) => Some (liveFileMessage now p)
  | _ => None
  end.

(** The upload did not lead to a send: it failed, or it succeeded
    while the socket was no longer open. *)
Definition uploadFailed (outcome : UploadOutcome) (st : State) : Prop :=
  match outcome with
  | UploadOk _ => ws_ready st = false
  | UploadNotOk => True
  | UploadError => True
  end.

Definition loadFailed (outcome : FetchOutcome) : Prop :=
  match outcome with
  | FetchOk _ => False
  | FetchNotOk => True
  | FetchError => True
  end.

(** The user of a login response that [login] accepts. *)
Definition loginAccepted (outcome : Auth.LoginOutcome)
  : option Auth.UserInfo :=
  match outcome with
  | Auth.LoginOk data _ _ =>
      if String.eqb (Auth.message data) "Login Successful"
      then Auth.user_info data else None
  | Auth.LoginNotOk => None
  | Auth.LoginError => None
  end.

(** The storage keys of a session. *)
Definition sessionKeys : list string :=
  ["user"; "accessToken"; "refreshToken"].

End Conditions.

(** ** Further concrete runs *)

Module Runs.
Import Chat Props Scenario.

(** The cutoffs of [t2] and [t4]. *)
Definition ms2 : Z := 1704067202000.
Definition ms4 : Z := 1704067204000.


(** Entries that are off screen, of a read message, of an own message. *)
Definition otherEntries : list Entry :=
  [mkEntry t4 false true true; mkEntry t4 true false true;
   mkEntry t4 true true false].

(** An entry whose date does not parse. *)
Definition undated : Entry := mkEntry "yesterday" true true true.

Definition liveText : TextPayload :=
  mkTextPayload (Some 30) convA peer "hello" t4.

Definition pickedFile : FileMetadata := mkFile "a.txt" 3 "text/plain".

Definition uploadedFile : BackendFileData :=
  mkBackendFile 5 "a.txt" "text/plain" None 3.

(** A file picked and its upload started, with the socket open; and
    the same after the socket has closed. *)
Definition uploadingFile : State :=
  go [During (Some convA) (FileSelected pickedFile);
      During (Some convA) UploadStarted] loaded.

Definition uploadingOffline : State :=
  go [During (Some convA) SocketClosed] uploadingFile.

(** The cutoffs of [t1] and [t3]. *)
Definition ms1 : Z := 1704067201000.
Definition ms3 : Z := 1704067203000.

(** The peer's message of [t4] came into view while the socket was
    still connecting; the timeout expired, then the socket opened. *)
Definition leftover : State :=
  go [During (Some convA) (Visible [visible t4]);
      During (Some convA) (Tick 200);
      During (Some convA) SocketOpened] connecting.

(** A history whose second item carries a date that does not parse. *)
Definition unparsed : list RawMessage :=
  [item convA 3 me t3; item convA 5 peer "soon"; item convA 1 peer t1].

(** U+00A0, the no-break space, in UTF-8. *)
Definition nbsp : string :=
  String (ascii_of_nat 194) (String (ascii_of_nat 160) EmptyString).

(** Only white space typed: a blank, a no-break space, a tab. *)
Definition typingBlanks : State :=
  go [During (Some convA)
        (Typed (String.append " "
                  (String.append nbsp
                     (String (ascii_of_nat 9) EmptyString))))] loaded.

(** Conversation B selected after A, its history request in flight. *)
Definition switched : State := go [Select (Some convB)] loaded.

(** A user, and a codec for the storage that knows this one user. *)
Definition alice : Auth.UserInfo :=
  Auth.mkUser 1 "alice" "secret" "Alice" "Liddell".

Definition aliceJson : string := "user 1 alice".

Definition stringifyUser (u : Auth.UserInfo) : string := aliceJson.

Definition parseUser (s : string) : option Auth.UserInfo :=
  if String.eqb s aliceJson then Some alice else None.

Definition loginData : Auth.LoginData :=
  Auth.mkLoginData "Login Successful" (Some alice).

End Runs.

(** ** Verification *)

Import Chat Props.

Section Verification.

Variable getTime : string -> option Z.
Variable toISOString : Z -> string.
Variable trim : string -> string.

(** *** Marking is pointwise and idempotent *)

Lemma markRead_evolves cur cutoff dir m :
  evolves m (markRead getTime cur cutoff dir m).
Proof.
  unfold markRead, evolves.
  destruct (negb _ || _ || is_read m) eqn:Hskip; [now left|].
  apply orb_false_iff in Hskip as [_ Hread].
  destruct dir, (sender_id m =? cur); simpl; auto.
Qed.

Lemma markSeen_evolves cur cutoff m :
  evolves m (markSeen getTime cur cutoff m).
Proof.
  unfold markSeen, evolves.
  destruct (negb (sender_id m =? cur) && _ && _ && negb (is_read m))
    eqn:Hgo; [|now left].
  apply andb_true_iff in Hgo as [_ Hread].
  apply negb_true_iff in Hread. auto.
Qed.

Lemma markRead_read cur cutoff dir m :
  is_read m = true -> markRead getTime cur cutoff dir m = m.
Proof.
  intros Hread. unfold markRead. rewrite Hread, orb_true_r. reflexivity.
Qed.

Lemma markRead_idempotent cur cutoff dir m :
  markRead getTime cur cutoff dir (markRead getTime cur cutoff dir m)
  = markRead getTime cur cutoff dir m.
Proof.
  destruct (markRead_evolves cur cutoff dir m) as [Heq | [_ Heq]].
  - now rewrite Heq.
  - rewrite Heq. now apply markRead_read.
Qed.

Lemma map_markRead_idempotent cur cutoff dir l :
  map (markRead getTime cur cutoff dir)
    (map (markRead getTime cur cutoff dir) l)
  = map (markRead getTime cur cutoff dir) l.
Proof.
  rewrite map_map. apply map_ext. intros m. apply markRead_idempotent.
Qed.

Lemma ws_onmessage_read cur lastSeen cutoff u r1 r2 st :
  Js.truthy_str lastSeen = true ->
  getTime lastSeen = Some cutoff ->
  ws_onmessage getTime cur (InMessagesRead (Some lastSeen) u r1 r2) st
  = markReadUpTo getTime cur cutoff
      (isPeerReader cur (readerIdOf u r1 r2)
         (Js.strict_eq_ref (lastSentReadDateRef st) lastSeen))
      (if Js.strict_eq_ref (lastSentReadDateRef st) lastSeen
       then set_lastSentReadDateRef None st else st).
Proof. intros Htruthy Hcut. simpl. now rewrite Htruthy, Hcut. Qed.

(** C8: reconciling twice with the same cutoff and the same direction
    gives the same state as reconciling once; a message that is
    already read is left as it is; and a [messages_read] event that
    names its reader, whose direction is therefore the same each time,
    has the same effect delivered twice as delivered once. *)
Theorem C8_reconciliation_idempotent cur cutoff dir st :
  markReadUpTo getTime cur cutoff dir
    (markReadUpTo getTime cur cutoff dir st)
  = markReadUpTo getTime cur cutoff dir st
  /\ (forall m,
        markRead getTime cur cutoff dir (with_is_read m true)
        = with_is_read m true)
  /\ (forall lastSeen reader r1 r2,
        let ev := InMessagesRead lastSeen (Some reader) r1 r2 in
        ws_onmessage getTime cur ev (ws_onmessage getTime cur ev st)
        = ws_onmessage getTime cur ev st).
Proof.
  assert (Hidem : forall c d s,
            markReadUpTo getTime cur c d (markReadUpTo getTime cur c d s)
            = markReadUpTo getTime cur c d s).
  { intros c d s. unfold markReadUpTo, recompute. simpl.
    rewrite map_markRead_idempotent. reflexivity. }
  split; [apply Hidem|]. split.
  - intros m. now apply markRead_read.
  - intros [lastSeen|] reader r1 r2 ev; [|reflexivity].
    destruct (Js.truthy_str lastSeen) eqn:Htruthy;
      [|subst ev; simpl; now rewrite Htruthy].
    destruct (getTime lastSeen) as [c|] eqn:Hcut;
      [|subst ev; simpl; now rewrite Htruthy, Hcut].
    subst ev. rewrite !(ws_onmessage_read cur lastSeen c) by assumption.
    simpl readerIdOf. unfold isPeerReader.
    destruct (Js.strict_eq_ref (lastSentReadDateRef st) lastSeen) eqn:Hm.
    + simpl. apply Hidem.
    + simpl. rewrite Hm. apply Hidem.
Qed.

(** *** The store only grows, and messages only become read *)

Lemma evolves_refl m : evolves m m.
Proof. now left. Qed.

Lemma evolves_trans m1 m2 m3 :
  evolves m1 m2 -> evolves m2 m3 -> evolves m1 m3.
Proof.
  intros [-> | [H1 ->]] [-> | [H2 ->]]; unfold evolves; auto.
  all: simpl in H2; discriminate.
Qed.

Lemma evolves_read m m' : evolves m m' -> is_read m = true -> m' = m.
Proof. intros [-> | [H _]] Hread; congruence. Qed.

Lemma store_evolves_refl l : store_evolves l l.
Proof. intros i m Hi. exists m. split; [assumption | apply evolves_refl]. Qed.

Lemma store_evolves_trans l1 l2 l3 :
  store_evolves l1 l2 -> store_evolves l2 l3 -> store_evolves l1 l3.
Proof.
  intros H12 H23 i m Hi.
  destruct (H12 i m Hi) as (m2 & Hi2 & He2).
  destruct (H23 i m2 Hi2) as (m3 & Hi3 & He3).
  exists m3. split; [assumption | eapply evolves_trans; eassumption].
Qed.

Lemma store_evolves_map f l :
  (forall m, evolves m (f m)) -> store_evolves l (map f l).
Proof.
  intros Hf i m Hi. exists (f m). split; [|apply Hf].
  rewrite list_lookup_fmap, Hi. reflexivity.
Qed.

Lemma store_evolves_app l extra : store_evolves l (l ++ extra).
Proof.
  intros i m Hi. exists m. split; [|apply evolves_refl].
  now apply lookup_app_l_Some.
Qed.

Lemma sendReadReceipts_store conv cur st :
  store_evolves (messages st)
    (messages (sendReadReceipts getTime conv cur st)).
Proof.
  unfold sendReadReceipts.
  destruct (negb (ws_ready st)); [apply store_evolves_refl|].
  destruct (pendingLastSeenDateRef st) as [lastSeen|];
    [|apply store_evolves_refl].
  destruct (negb (Js.truthy_str lastSeen)); [apply store_evolves_refl|].
  destruct (getTime lastSeen) as [cutoff|]; simpl.
  - apply store_evolves_map. intros m. apply markSeen_evolves.
  - apply store_evolves_refl.
Qed.

Lemma fold_sendReadReceipts_store {A} conv cur (fired : list A) st :
  store_evolves (messages st)
    (messages
       (fold_left (fun s _ => sendReadReceipts getTime conv cur s)
          fired st)).
Proof.
  revert st. induction fired as [|x fired IH]; intros st; simpl.
  - apply store_evolves_refl.
  - eapply store_evolves_trans; [apply sendReadReceipts_store | apply IH].
Qed.

Lemma tick_store conv cur dt st :
  store_evolves (messages st) (messages (tick getTime conv cur dt st)).
Proof.
  unfold tick.
  eapply store_evolves_trans; [|apply fold_sendReadReceipts_store].
  simpl. apply store_evolves_refl.
Qed.

Lemma scheduleReadReceipts_messages st :
  messages (scheduleReadReceipts st) = messages st.
Proof.
  unfold scheduleReadReceipts. destruct (readTimerRef st); reflexivity.
Qed.

Lemma observeEntry_messages st e :
  messages (observeEntry getTime st e) = messages st.
Proof.
  unfold observeEntry.
  destruct (isIntersecting e && isUnreadMessage e && isFromOthers e);
    [|reflexivity].
  rewrite scheduleReadReceipts_messages.
  destruct (Js.truthy_str (createdAt e)); [|reflexivity].
  destruct (Js.isFinite _ && _); reflexivity.
Qed.

Lemma observerCallback_messages entries st :
  messages (observerCallback getTime entries st) = messages st.
Proof.
  unfold observerCallback.
  destruct (intersectionObserverRef st); [|reflexivity].
  revert st. induction entries as [|e entries IH]; intros st; simpl.
  - reflexivity.
  - rewrite IH. apply observeEntry_messages.
Qed.

Lemma ws_onmessage_store cur data st :
  store_evolves (messages st) (messages (ws_onmessage getTime cur data st)).
Proof.
  destruct data as [[p|] | [p|] | [lastSeen|] u r1 r2 | tag | ]; simpl;
    try apply store_evolves_refl; try apply store_evolves_app.
  destruct (negb (Js.truthy_str lastSeen)); [apply store_evolves_refl|].
  destruct (getTime lastSeen) as [cutoff|]; [|apply store_evolves_refl].
  simpl.
  destruct (Js.strict_eq_ref (lastSentReadDateRef st) lastSeen); simpl;
    apply store_evolves_map; intros m; apply markRead_evolves.
Qed.

Lemma sendMessage_store conv cur st :
  store_evolves (messages st)
    (messages (sendMessage toISOString trim conv cur st)).
Proof.
  unfold sendMessage.
  destruct (negb (Js.truthy_str _)); [apply store_evolves_refl|].
  destruct (negb (ws_ready st)); [apply store_evolves_refl|].
  destruct conv as [c|]; [|apply store_evolves_refl].
  destruct (negb (Js.truthy_num (Some c))); [apply store_evolves_refl|].
  simpl. apply store_evolves_app.
Qed.

Lemma handleFileUpload_messages conv st :
  messages (handleFileUpload conv st) = messages st.
Proof.
  unfold handleFileUpload.
  destruct (negb _ || _ || _); [reflexivity|].
  destruct (negb (ws_ready st)); reflexivity.
Qed.

Lemma handleFileUpload_settled_store conv cur outcome st :
  store_evolves (messages st)
    (messages (handleFileUpload_settled toISOString conv cur outcome st)).
Proof.
  unfold handleFileUpload_settled.
  destruct outcome as [data| |], conv as [c|]; simpl;
    try apply store_evolves_refl.
  destruct (negb (ws_ready st)); simpl;
    [apply store_evolves_refl | apply store_evolves_app].
Qed.

Lemma ws_onopen_messages st : messages (ws_onopen st) = messages st.
Proof. unfold ws_onopen. destruct (wsRef st); reflexivity. Qed.

Lemma ws_onclose_messages st : messages (ws_onclose st) = messages st.
Proof. unfold ws_onclose. destruct (wsRef st); reflexivity. Qed.

Lemma step_store conv cur st ev :
  store_evolves (messages st)
    (messages (step getTime toISOString trim conv cur st ev)).
Proof.
  destruct ev; simpl.
  - rewrite observerCallback_messages. apply store_evolves_refl.
  - apply tick_store.
  - apply ws_onmessage_store.
  - rewrite ws_onopen_messages. apply store_evolves_refl.
  - rewrite ws_onclose_messages. apply store_evolves_refl.
  - apply store_evolves_refl.
  - apply sendMessage_store.
  - apply store_evolves_refl.
  - apply store_evolves_refl.
  - rewrite handleFileUpload_messages. apply store_evolves_refl.
  - apply handleFileUpload_settled_store.
Qed.

Lemma run_store conv cur events st :
  store_evolves (messages st)
    (messages (run getTime toISOString trim conv cur events st)).
Proof.
  unfold run. revert st.
  induction events as [|ev events IH]; intros st; simpl.
  - apply store_evolves_refl.
  - eapply store_evolves_trans; [apply step_store | apply IH].
Qed.

(** C6: over any sequence of events of one conversation session, every
    message keeps its position and changes at most by having
    [is_read] flipped from false to true; a read message stays as it
    is. *)
Theorem C6_is_read_monotonic conv cur events st (i : nat) (m : Message) :
  messages st !! i = Some m ->
  exists m',
    messages (run getTime toISOString trim conv cur events st) !! i = Some m'
    /\ evolves m m'
    /\ (is_read m = true -> m' = m /\ is_read m' = true).
Proof.
  intros Hi.
  destruct (run_store conv cur events st i m Hi) as (m' & Hi' & He).
  exists m'. repeat split; try assumption.
  - now apply evolves_read.
  - rewrite (evolves_read m m' He); assumption.
Qed.


(** *** The unread counters *)

Lemma recompute_unread_inv cur updated st :
  unread_inv cur (recompute cur updated st).
Proof. split; reflexivity. Qed.

Lemma filter_length_Permutation (f : Message -> bool) l l' :
  Permutation l l' ->
  length (List.filter f l) = length (List.filter f l').
Proof.
  induction 1 as [|x l l' _ IH|x y l|l l' l'' _ IH1 _ IH2]; simpl.
  - reflexivity.
  - destruct (f x); simpl; congruence.
  - destruct (f x), (f y); reflexivity.
  - congruence.
Qed.

Lemma sort_insert_Permutation cmp x l :
  Permutation (sort_insert cmp x l) (x :: l).
Proof.
  induction l as [|y l IH]; simpl.
  - reflexivity.
  - destruct (Js.gt (cmp x y) (Js.Num 0)).
    + rewrite IH. apply perm_swap.
    + reflexivity.
Qed.

Lemma Array_sort_Permutation cmp l : Permutation (Array_sort cmp l) l.
Proof.
  induction l as [|x l IH]; simpl.
  - reflexivity.
  - rewrite sort_insert_Permutation. now constructor.
Qed.

Lemma countUnread_app cur l1 l2 :
  countUnread cur (l1 ++ l2)%list
  = (countUnread cur l1 + countUnread cur l2)%nat.
Proof. unfold countUnread. now rewrite List.filter_app, length_app. Qed.

Lemma countUnread_taggedRead cur now data :
  countUnread cur (taggedRead toISOString now data) = 0%nat.
Proof.
  unfold countUnread, taggedRead.
  destruct (readed_messages data) as [l|]; [|reflexivity].
  induction l as [|raw l IH]; simpl; [reflexivity | assumption].
Qed.

Lemma countUnread_taggedUnread cur now data :
  countUnread cur (taggedUnread toISOString now data)
  = length
      (List.filter (fun m => negb (sender_id m =? cur))
         (taggedUnread toISOString now data)).
Proof.
  unfold countUnread, taggedUnread.
  destruct (not_readed_messages data) as [l|]; [|reflexivity].
  f_equal. apply filter_ext_in. intros m Hin.
  apply in_map_iff in Hin as (raw & <- & _). reflexivity.
Qed.

Lemma loadMessages_unread_inv conv cur data st :
  Js.truthy_num conv = true ->
  unread_inv cur
    (loadMessages getTime toISOString conv cur (FetchOk data) st).
Proof.
  intros Hconv. unfold loadMessages. rewrite Hconv. simpl.
  split; simpl; [|reflexivity].
  unfold countUnread at 1.
  rewrite (filter_length_Permutation _ _ _ (Array_sort_Permutation _ _)).
  fold (countUnread cur
          (taggedRead toISOString (clock st) data
           ++ taggedUnread toISOString (clock st) data)).
  rewrite countUnread_app, countUnread_taggedRead, countUnread_taggedUnread.
  reflexivity.
Qed.

(** Appending a message of the current user changes neither counter. *)
Lemma countUnread_own cur l m :
  sender_id m = cur ->
  countUnread cur (l ++ [m])%list = countUnread cur l.
Proof.
  intros Hown. rewrite countUnread_app. unfold countUnread at 2. simpl.
  unfold unreadFromOthers. rewrite Hown, Z.eqb_refl, andb_false_r.
  simpl. lia.
Qed.

Lemma findFirstUnreadId_own cur l m :
  sender_id m = cur ->
  findFirstUnreadId cur (l ++ [m])%list = findFirstUnreadId cur l.
Proof.
  intros Hown. unfold findFirstUnreadId.
  induction l as [|x l IH]; simpl.
  - unfold unreadFromOthers. rewrite Hown, Z.eqb_refl, andb_false_r.
    reflexivity.
  - destruct (unreadFromOthers cur x); [reflexivity | assumption].
Qed.

Lemma unread_inv_own cur m st st' :
  sender_id m = cur ->
  messages st' = (messages st ++ [m])%list ->
  unreadCount st' = unreadCount st ->
  firstUnreadId st' = firstUnreadId st ->
  unread_inv cur st -> unread_inv cur st'.
Proof.
  intros Hown Hmsgs Hcount Hfirst [Hc Hf]. unfold unread_inv.
  rewrite Hmsgs, countUnread_own, findFirstUnreadId_own by assumption.
  split; congruence.
Qed.

(** After a history load, a live append, a receipt flush or a
    [messages_read] reconciliation that writes the store, the
    displayed counters are the ones derived from the store; an
    optimistic send writes the store without recomputing, and the
    counters agree with the store after it whenever they agreed
    before. *)
Lemma unread_inv_after_mutation conv cur op st :
  messages (apply_op getTime toISOString trim conv cur op st) <> messages st ->
  (optimistic op = true -> unread_inv cur st) ->
  unread_inv cur (apply_op getTime toISOString trim conv cur op st).
Proof.
  intros Hmut Hpre. destruct op as [outcome|data| |outcome| |ls u r1 r2].
  - (* history load *)
    simpl in *. destruct (Js.truthy_num conv) eqn:Hconv.
    + destruct outcome as [data| |].
      * now apply loadMessages_unread_inv.
      * exfalso. apply Hmut. unfold loadMessages. now rewrite Hconv.
      * exfalso. apply Hmut. unfold loadMessages. now rewrite Hconv.
    + exfalso. apply Hmut. unfold loadMessages. now rewrite Hconv.
  - (* live append *)
    destruct data as [[p|] | [p|] | ? ? ? ? | ? | ]; simpl in *;
      try (exfalso; apply Hmut; reflexivity);
      apply recompute_unread_inv.
  - (* optimistic text *)
    simpl in *. specialize (Hpre eq_refl). revert Hmut.
    unfold sendMessage.
    destruct (negb (Js.truthy_str _)); [intros H; now destruct H|].
    destruct (negb (ws_ready st)); [intros H; now destruct H|].
    destruct conv as [c|]; [|intros H; now destruct H].
    destruct (negb (Js.truthy_num (Some c))); [intros H; now destruct H|].
    intros _.
    eapply (unread_inv_own cur
              (optimisticMessage toISOString (clock st) c cur
                 (newMessage st))); [| | | |exact Hpre]; reflexivity.
  - (* optimistic file *)
    simpl in *. specialize (Hpre eq_refl). revert Hmut.
    unfold handleFileUpload_settled.
    destruct outcome as [data| |], conv as [c|];
      try (intros H; now destruct H).
    destruct (negb (ws_ready st)); [intros H; now destruct H|].
    intros _.
    eapply (unread_inv_own cur
              (optimisticFileMessage toISOString (clock st) c cur data));
      [| | | |exact Hpre]; reflexivity.
  - (* receipt flush *)
    simpl in *. revert Hmut. unfold sendReadReceipts.
    destruct (negb (ws_ready st)); [intros H; now destruct H|].
    destruct (pendingLastSeenDateRef st) as [lastSeen|];
      [|intros H; now destruct H].
    destruct (negb (Js.truthy_str lastSeen)); [intros H; now destruct H|].
    destruct (getTime lastSeen) as [cutoff|];
      [|intros H; now destruct H].
    intros _. apply recompute_unread_inv.
  - (* reconciliation *)
    simpl in *. revert Hmut.
    destruct ls as [lastSeen|]; [|intros H; now destruct H].
    destruct (negb (Js.truthy_str lastSeen)); [intros H; now destruct H|].
    destruct (getTime lastSeen) as [cutoff|];
      [|intros H; now destruct H].
    intros _. apply recompute_unread_inv.
Qed.

(** The counters keep agreeing with the store through everything that
    happens to the component but a change of conversation. *)
Lemma unread_inv_frame cur st st' :
  messages st' = messages st ->
  unreadCount st' = unreadCount st ->
  firstUnreadId st' = firstUnreadId st ->
  unread_inv cur st -> unread_inv cur st'.
Proof.
  intros Hm Hc Hf [H1 H2]. unfold unread_inv. rewrite Hm, Hc, Hf.
  now split.
Qed.

Ltac same_unread :=
  intros; eapply unread_inv_frame; [| | |eassumption];
  repeat (simpl; match goal with
                 | |- context [match ?x with _ => _ end] => destruct x
                 end);
  simpl; auto.

Lemma sendReadReceipts_unread_inv conv cur st :
  unread_inv cur st ->
  unread_inv cur (sendReadReceipts getTime conv cur st).
Proof.
  intros Hinv. unfold sendReadReceipts.
  destruct (negb (ws_ready st)); [assumption|].
  destruct (pendingLastSeenDateRef st) as [T|]; [|assumption].
  destruct (negb (Js.truthy_str T)); [assumption|].
  destruct (getTime T); [apply recompute_unread_inv|].
  revert Hinv. same_unread.
Qed.

Lemma tick_unread_inv conv cur dt st :
  unread_inv cur st -> unread_inv cur (tick getTime conv cur dt st).
Proof.
  intros Hinv. unfold tick.
  match goal with
  | |- unread_inv _ (fold_left _ ?fired ?s) =>
      assert (Hs : unread_inv cur s) by exact Hinv;
      generalize fired; revert Hs; generalize s
  end.
  intros s Hs fired. revert s Hs.
  induction fired as [|x fired IH]; intros s Hs; simpl; [assumption|].
  apply IH. now apply sendReadReceipts_unread_inv.
Qed.

Lemma observeEntry_unread_inv cur st e :
  unread_inv cur st -> unread_inv cur (observeEntry getTime st e).
Proof.
  unfold observeEntry, scheduleReadReceipts, setTimeout, clearTimeout.
  same_unread.
Qed.

Lemma observerCallback_unread_inv cur entries st :
  unread_inv cur st ->
  unread_inv cur (observerCallback getTime entries st).
Proof.
  unfold observerCallback.
  destruct (intersectionObserverRef st); [|trivial].
  revert st. induction entries as [|e entries IH]; intros st Hinv; simpl.
  - assumption.
  - apply IH. now apply observeEntry_unread_inv.
Qed.

Lemma ws_onmessage_unread_inv cur data st :
  unread_inv cur st -> unread_inv cur (ws_onmessage getTime cur data st).
Proof.
  intros Hinv. unfold ws_onmessage, markReadUpTo.
  repeat match goal with
         | |- context [match ?x with _ => _ end] => destruct x
         end;
    first [assumption | apply recompute_unread_inv].
Qed.

Lemma sendMessage_unread_inv conv cur st :
  unread_inv cur st ->
  unread_inv cur (sendMessage toISOString trim conv cur st).
Proof.
  intros Hinv. unfold sendMessage.
  destruct (negb (Js.truthy_str _)); [assumption|].
  destruct (negb (ws_ready st)); [revert Hinv; same_unread|].
  destruct conv as [c|]; [|assumption].
  destruct (negb (Js.truthy_num (Some c))); [assumption|].
  eapply (unread_inv_own cur
            (optimisticMessage toISOString (clock st) c cur
               (newMessage st))); [| | | |exact Hinv]; reflexivity.
Qed.

Lemma handleFileUpload_settled_unread_inv conv cur outcome st :
  unread_inv cur st ->
  unread_inv cur
    (handleFileUpload_settled toISOString conv cur outcome st).
Proof.
  intros Hinv. unfold handleFileUpload_settled.
  destruct outcome as [data| |], conv as [c|];
    try (revert Hinv; solve [same_unread]).
  destruct (negb (ws_ready st)); [revert Hinv; same_unread|].
  eapply (unread_inv_own cur
            (optimisticFileMessage toISOString (clock st) c cur data));
    [| | | |exact Hinv]; reflexivity.
Qed.

Lemma step_unread_inv conv cur st ev :
  unread_inv cur st ->
  unread_inv cur (step getTime toISOString trim conv cur st ev).
Proof.
  destruct ev; simpl.
  - apply observerCallback_unread_inv.
  - apply tick_unread_inv.
  - apply ws_onmessage_unread_inv.
  - unfold ws_onopen. same_unread.
  - unfold ws_onclose. same_unread.
  - same_unread.
  - apply sendMessage_unread_inv.
  - same_unread.
  - same_unread.
  - unfold handleFileUpload. same_unread.
  - apply handleFileUpload_settled_unread_inv.
Qed.

Lemma loadAndConnect_unread_inv conv cur outcome st :
  unread_inv cur st ->
  unread_inv cur (loadAndConnect getTime toISOString conv cur outcome st).
Proof.
  intros Hinv. unfold loadAndConnect.
  assert (Hload : unread_inv cur
                    (loadMessages getTime toISOString conv cur outcome st)).
  { destruct (Js.truthy_num conv) eqn:Hconv.
    - destruct outcome as [data| |].
      + now apply loadMessages_unread_inv.
      + unfold loadMessages. rewrite Hconv. revert Hinv. same_unread.
      + unfold loadMessages. rewrite Hconv. revert Hinv. same_unread.
    - unfold loadMessages. rewrite Hconv. revert Hinv. same_unread. }
  revert Hload. generalize (loadMessages getTime toISOString conv cur outcome st).
  unfold setupIntersectionObserver, connectWebSocket. same_unread.
Qed.

Lemma act_unread_inv cur st a :
  (forall conv, a <> Select conv) ->
  unread_inv cur st ->
  unread_inv cur (act getTime toISOString trim cur st a).
Proof.
  destruct a as [conv|conv outcome|conv ev]; simpl; intros Hact.
  - now destruct (Hact conv).
  - apply loadAndConnect_unread_inv.
  - apply step_unread_inv.
Qed.


(** *** The two directions of a reconciliation *)

Lemma markRead_peer_other cur cutoff m :
  sender_id m <> cur -> markRead getTime cur cutoff true m = m.
Proof.
  intros Hother. unfold markRead.
  destruct (negb _ || _ || is_read m); [reflexivity|].
  apply Z.eqb_neq in Hother. now rewrite Hother.
Qed.

Lemma markRead_self_own cur cutoff m :
  sender_id m = cur -> markRead getTime cur cutoff false m = m.
Proof.
  intros Hown. unfold markRead.
  destruct (negb _ || _ || is_read m); [reflexivity|].
  apply Z.eqb_eq in Hown. now rewrite Hown.
Qed.

Lemma markRead_peer_own cur cutoff m t :
  sender_id m = cur -> is_read m = false ->
  getTime (created_at m) = Some t -> t <= cutoff ->
  markRead getTime cur cutoff true m = with_is_read m true.
Proof.
  intros Hown Hunread Ht Hle. unfold markRead.
  rewrite Ht, Hunread. simpl.
  replace (cutoff <? t) with false by (symmetry; apply Z.ltb_ge; lia).
  apply Z.eqb_eq in Hown. now rewrite Hown.
Qed.

Lemma markRead_self_other cur cutoff m t :
  sender_id m <> cur -> is_read m = false ->
  getTime (created_at m) = Some t -> t <= cutoff ->
  markRead getTime cur cutoff false m = with_is_read m true.
Proof.
  intros Hother Hunread Ht Hle. unfold markRead.
  rewrite Ht, Hunread. simpl.
  replace (cutoff <? t) with false by (symmetry; apply Z.ltb_ge; lia).
  apply Z.eqb_neq in Hother. now rewrite Hother.
Qed.

Lemma markReadUpTo_messages cur cutoff dir st :
  messages (markReadUpTo getTime cur cutoff dir st)
  = map (markRead getTime cur cutoff dir) (messages st).
Proof. reflexivity. Qed.

(** C1 (amended): when a [messages_read] event names a reader other
    than the current user, the identity decides, also when its
    [last_seen_date] is the one last flushed: the event is a peer
    read.  It marks the current user's sent messages up to the cutoff
    read, leaves every received message as it is, and still consumes
    the flushed timestamp. *)
Theorem C1_reader_identity_takes_priority
    cur lastSeen cutoff u r1 r2 reader st :
  Js.truthy_str lastSeen = true ->
  getTime lastSeen = Some cutoff ->
  lastSentReadDateRef st = Some lastSeen ->
  readerIdOf u r1 r2 = Some reader ->
  reader <> cur ->
  let st' :=
    ws_onmessage getTime cur (InMessagesRead (Some lastSeen) u r1 r2) st in
  st' = markReadUpTo getTime cur cutoff true
          (set_lastSentReadDateRef None st)
  /\ lastSentReadDateRef st' = None
  /\ (forall (i : nat) m,
        messages st !! i = Some m -> sender_id m <> cur ->
        messages st' !! i = Some m)
  /\ (forall (i : nat) m t,
        messages st !! i = Some m -> sender_id m = cur ->
        is_read m = false -> getTime (created_at m) = Some t ->
        t <= cutoff ->
        messages st' !! i = Some (with_is_read m true)).
Proof.
  intros Htruthy Hcut Hsent Hreader Hne st'.
  assert (Hst' : st' = markReadUpTo getTime cur cutoff true
                         (set_lastSentReadDateRef None st)).
  { subst st'. simpl. rewrite Htruthy, Hcut, Hsent, Hreader. simpl.
    rewrite String.eqb_refl. unfold isPeerReader.
    apply Z.eqb_neq in Hne. now rewrite Hne. }
  rewrite Hst'. repeat split.
  - intros i m Hi Hother. rewrite markReadUpTo_messages. simpl.
    rewrite list_lookup_fmap, Hi. simpl.
    now rewrite markRead_peer_other.
  - intros i m t Hi Hown Hunread Ht Hle. rewrite markReadUpTo_messages.
    simpl. rewrite list_lookup_fmap, Hi. simpl.
    now rewrite (markRead_peer_own cur cutoff m t).
Qed.

(** *** The flushed timestamp as a single-use token *)

Lemma sendReadReceipts_flush conv cur lastSeen st :
  ws_ready st = true ->
  pendingLastSeenDateRef st = Some lastSeen ->
  Js.truthy_str lastSeen = true ->
  let st' := sendReadReceipts getTime conv cur st in
  lastSentReadDateRef st' = Some lastSeen
  /\ pendingLastSeenDateRef st' = None
  /\ outbox st' = (outbox st ++ [mark_as_read lastSeen cur conv])%list
  /\ wsRef st' = wsRef st
  /\ timers st' = timers st
  /\ readTimerRef st' = readTimerRef st.
Proof.
  intros Hready Hpending Htruthy. unfold sendReadReceipts.
  rewrite Hready, Hpending, Htruthy. simpl.
  destruct (getTime lastSeen); repeat split.
Qed.


(** *** Sending *)

(** C9 (amended): a send attempt with something to send, made while
    the socket is not open, raises the connection-not-ready alert and
    sends nothing; the store, the typed text and the selected file are
    as before.  At the guards that precede any request nothing else
    changes either.  When the socket is found closed only after the
    upload has succeeded, the [finally] block still runs: it resets the
    file input and the uploading flag. *)
Theorem C9_send_blocked_when_channel_not_open conv cur a st :
  ws_ready st = false ->
  hasContent trim conv a st = true ->
  let st' := attempt toISOString trim conv cur a st in
  alerts st' = (alerts st ++ [notReadyText a])%list
  /\ outbox st' = outbox st
  /\ messages st' = messages st
  /\ newMessage st' = newMessage st
  /\ selectedFile st' = selectedFile st
  /\ match a with
     | FileUploaded _ =>
         st' = uploadFinally (alert (notReadyText a) st)
         /\ fileInputRef st' = None
         /\ uploading st' = false
     | _ =>
         st' = alert (notReadyText a) st
         /\ fileInputRef st' = fileInputRef st
         /\ uploading st' = uploading st
     end.
Proof.
  intros Hclosed Hcontent st'. subst st'. destruct a as [| |data]; simpl in *.
  - unfold sendMessage. rewrite Hcontent, Hclosed. simpl. repeat split.
  - unfold handleFileUpload.
    apply andb_true_iff in Hcontent as [Hc Hsel].
    apply andb_true_iff in Hc as [Hfile Hconv].
    rewrite Hfile, Hconv, Hsel, Hclosed. simpl. repeat split.
  - destruct conv as [c|]; [|discriminate Hcontent].
    unfold handleFileUpload_settled. rewrite Hclosed. simpl. repeat split.
Qed.

(** C10: with a non-empty trimmed input, an open socket and a
    conversation selected, [sendMessage] sends one frame and appends
    one message of the current user, unread, at the tail of the store;
    the displayed counters, and the counters derived from the store,
    are the same as before. *)
Theorem C10_text_send_appends_own_message conv cur st :
  Js.truthy_str (trim (newMessage st)) = true ->
  ws_ready st = true ->
  Js.truthy_num conv = true ->
  let st' := sendMessage toISOString trim conv cur st in
  exists m frame,
    messages st' = (messages st ++ [m])%list
    /\ sender_id m = cur
    /\ is_read m = false
    /\ content m = Some (newMessage st)
    /\ outbox st' = (outbox st ++ [frame])%list
    /\ unreadCount st' = unreadCount st
    /\ firstUnreadId st' = firstUnreadId st
    /\ countUnread cur (messages st') = countUnread cur (messages st)
    /\ findFirstUnreadId cur (messages st')
       = findFirstUnreadId cur (messages st).
Proof.
  intros Htext Hready Hconv st'. subst st'. unfold sendMessage.
  rewrite Htext, Hready. simpl.
  destruct conv as [c|]; [|discriminate]. rewrite Hconv. simpl.
  exists (optimisticMessage toISOString (clock st) c cur (newMessage st)).
  eexists. repeat split.
  - now apply countUnread_own.
  - now apply findFirstUnreadId_own.
Qed.

Lemma filter_none {A} (f : A -> bool) l :
  (forall x, In x l -> f x = false) -> List.filter f l = [].
Proof.
  induction l as [|x l IH]; intros Hf; simpl; [reflexivity|].
  rewrite (Hf x) by now left. apply IH. intros y Hy. apply Hf. now right.
Qed.

(** Scheduling leaves exactly one timeout pending, a full delay away. *)
Lemma scheduleReadReceipts_single st :
  timers_owned st ->
  let st' := scheduleReadReceipts st in
  (exists h, readTimerRef st' = Some h
             /\ timers st' = [(h, clock st' + 200)])
  /\ wsRef st' = wsRef st
  /\ outbox st' = outbox st
  /\ intersectionObserverRef st' = intersectionObserverRef st
  /\ pendingLastSeenDateRef st' = pendingLastSeenDateRef st
  /\ clock st' = clock st.
Proof.
  intros Howned. unfold scheduleReadReceipts.
  destruct (readTimerRef st) as [h|] eqn:Href; simpl.
  - rewrite filter_none.
    + repeat split. eexists. split; reflexivity.
    + intros p Hp. apply Howned in Hp. rewrite Href in Hp.
      injection Hp as ->. now rewrite Nat.eqb_refl.
  - destruct (timers st) as [|p l] eqn:Ht.
    + repeat split. eexists. split; reflexivity.
    + specialize (Howned p). rewrite Ht, Href in Howned.
      discriminate Howned. now left.
Qed.

(** *** Single flight is an invariant *)

Lemma timers_owned_frame st st' :
  (forall p, In p (timers st') -> In p (timers st)) ->
  readTimerRef st' = readTimerRef st ->
  timers_owned st -> timers_owned st'.
Proof.
  intros Hsub Href Howned p Hp. rewrite Href. apply Howned, Hsub, Hp.
Qed.

Ltac same_timers :=
  intros; eapply timers_owned_frame; [| |eassumption];
  repeat (simpl; match goal with
                 | |- context [match ?x with _ => _ end] => destruct x
                 end);
  simpl; auto.

Lemma sendReadReceipts_owned conv cur st :
  timers_owned st -> timers_owned (sendReadReceipts getTime conv cur st).
Proof. unfold sendReadReceipts. same_timers. Qed.

Lemma scheduleReadReceipts_owned st :
  timers_owned st -> timers_owned (scheduleReadReceipts st).
Proof.
  intros Howned.
  destruct (scheduleReadReceipts_single st Howned) as ((h & Href & Ht) & _).
  intros p Hp. rewrite Ht in Hp. destruct Hp as [<- | []]. exact Href.
Qed.

Lemma observeEntry_owned st e :
  timers_owned st -> timers_owned (observeEntry getTime st e).
Proof.
  intros Howned. unfold observeEntry.
  destruct (isIntersecting e && _ && _); [|assumption].
  apply scheduleReadReceipts_owned.
  destruct (Js.truthy_str (createdAt e)); [|assumption].
  destruct (Js.isFinite _ && _); assumption.
Qed.

Lemma observerCallback_owned entries st :
  timers_owned st -> timers_owned (observerCallback getTime entries st).
Proof.
  unfold observerCallback.
  destruct (intersectionObserverRef st); [|trivial].
  revert st. induction entries as [|e entries IH]; intros st Howned; simpl.
  - assumption.
  - apply IH. now apply observeEntry_owned.
Qed.

Lemma tick_owned conv cur dt st :
  timers_owned st -> timers_owned (tick getTime conv cur dt st).
Proof.
  intros Howned. unfold tick.
  match goal with
  | |- timers_owned (fold_left _ ?fired ?s) =>
      assert (Hs : timers_owned s); [|generalize fired; revert Hs;
                                      generalize s]
  end.
  - eapply timers_owned_frame; [| |exact Howned]; simpl; [|reflexivity].
    intros p Hp. now apply filter_In in Hp as [Hp _].
  - intros s Hs fired. revert s Hs.
    induction fired as [|x fired IH]; intros s Hs; simpl; [assumption|].
    apply IH. now apply sendReadReceipts_owned.
Qed.

Lemma cleanup_owned st : timers_owned st -> timers_owned (cleanup st).
Proof.
  intros Howned. unfold cleanup. simpl.
  destruct (readTimerRef st) as [h|] eqn:Href; simpl.
  - intros p Hp. simpl in Hp. rewrite filter_none in Hp; [destruct Hp|].
    intros q Hq. apply Howned in Hq. rewrite Href in Hq.
    injection Hq as ->. now rewrite Nat.eqb_refl.
  - intros p Hp. simpl in Hp. apply Howned in Hp. congruence.
Qed.

Lemma step_owned conv cur st ev :
  timers_owned st ->
  timers_owned (step getTime toISOString trim conv cur st ev).
Proof.
  destruct ev; simpl.
  - apply observerCallback_owned.
  - apply tick_owned.
  - unfold ws_onmessage, markReadUpTo. same_timers.
  - unfold ws_onopen. same_timers.
  - unfold ws_onclose. same_timers.
  - same_timers.
  - unfold sendMessage. same_timers.
  - same_timers.
  - same_timers.
  - unfold handleFileUpload. same_timers.
  - unfold handleFileUpload_settled. same_timers.
Qed.

Lemma act_owned cur st a :
  timers_owned st -> timers_owned (act getTime toISOString trim cur st a).
Proof.
  destruct a as [conv|conv outcome|conv ev]; simpl.
  - intros Howned. unfold changeConversation, conversationEffect.
    apply cleanup_owned in Howned.
    destruct (Js.truthy_num conv).
    + revert Howned. same_timers.
    + apply cleanup_owned. revert Howned. same_timers.
  - unfold loadAndConnect, setupIntersectionObserver, connectWebSocket,
      loadMessages. same_timers.
  - apply step_owned.
Qed.

(** From mounting on, whatever happens, no timeout is pending but the
    one the component holds the handle of. *)
Lemma perform_owned cur actions now :
  timers_owned (perform getTime toISOString trim cur actions (initial now)).
Proof.
  unfold perform.
  assert (H0 : timers_owned (initial now)) by (intros p []).
  revert H0. generalize (initial now).
  induction actions as [|a actions IH]; intros st Hst; simpl.
  - assumption.
  - apply IH. now apply act_owned.
Qed.

(** *** Debounce *)

Lemma waiting_owned st s : waiting st s -> timers_owned s.
Proof.
  intros (_ & _ & _ & h & Href & Ht) p Hp.
  rewrite Ht in Hp. destruct Hp as [<- | []]. exact Href.
Qed.

(** While the pending timeout is not due, time passes without effect. *)
Lemma tick_not_due conv cur dt st s :
  waiting st s -> 0 <= dt < 200 ->
  tick getTime conv cur dt s = set_clock (clock s + dt) s.
Proof.
  intros (_ & _ & _ & h & Href & Ht) Hdt. unfold tick. simpl.
  rewrite Ht. simpl. unfold due. simpl.
  replace (clock s + 200 <=? clock s + dt) with false
    by (symmetry; apply Z.leb_gt; lia).
  simpl. destruct s; simpl in *; subst; reflexivity.
Qed.

(** Once the delay has elapsed, the one pending timeout fires. *)
Lemma tick_due conv cur d st s :
  waiting st s -> 200 <= d ->
  tick getTime conv cur d s
  = sendReadReceipts getTime conv cur
      (set_timers [] (set_clock (clock s + d) s)).
Proof.
  intros (_ & _ & _ & h & Href & Ht) Hd. unfold tick. simpl.
  rewrite Ht. simpl. unfold due. simpl.
  replace (clock s + 200 <=? clock s + d) with true
    by (symmetry; apply Z.leb_le; lia).
  reflexivity.
Qed.

(** A candidate that is not dated changes nothing. *)
Lemma tracks_skip candidates c s :
  ~ dated getTime c ->
  tracks getTime candidates s -> tracks getTime (candidates ++ [c]) s.
Proof.
  intros Hc. unfold tracks.
  destruct (pendingLastSeenDateRef s) as [T|].
  - intros (Hin & Htr & t & Ht & Hmax). split; [|split; [assumption|]].
    + apply in_or_app. now left.
    + exists t. split; [assumption|]. intros T' t' Hin' Htr' Ht'.
      apply in_app_or in Hin' as [Hin' | [<- | []]].
      * now apply (Hmax T' t').
      * exfalso. apply Hc. split; [assumption | now exists t'].
  - intros Hnone T Hin. apply in_app_or in Hin as [Hin | [<- | []]].
    + now apply Hnone.
    + assumption.
Qed.

(** The cursor update of [observeEntry]. *)
Lemma observeEntry_tracks candidates e s :
  qualifies e = true ->
  timers_owned s ->
  tracks getTime candidates s ->
  tracks getTime (candidates ++ [createdAt e]) (observeEntry getTime s e)
  /\ (exists h, readTimerRef (observeEntry getTime s e) = Some h
                /\ timers (observeEntry getTime s e)
                   = [(h, clock (observeEntry getTime s e) + 200)])
  /\ wsRef (observeEntry getTime s e) = wsRef s
  /\ outbox (observeEntry getTime s e) = outbox s
  /\ intersectionObserverRef (observeEntry getTime s e)
     = intersectionObserverRef s.
Proof.
  intros Hq Howned Htracks. unfold observeEntry.
  unfold qualifies in Hq. rewrite Hq.
  match goal with
  | |- context [scheduleReadReceipts ?x] => set (s1 := x)
  end.
  assert (Hframe : timers s1 = timers s
                   /\ readTimerRef s1 = readTimerRef s
                   /\ wsRef s1 = wsRef s
                   /\ outbox s1 = outbox s
                   /\ intersectionObserverRef s1
                      = intersectionObserverRef s).
  { subst s1. destruct (Js.truthy_str (createdAt e)); [|repeat split].
    destruct (Js.isFinite _ && _); repeat split. }
  assert (Htracks1 : tracks getTime (candidates ++ [createdAt e]) s1).
  { subst s1. destruct (Js.truthy_str (createdAt e)) eqn:Htr.
    - destruct (getTime (createdAt e)) as [t'|] eqn:Hte.
      + unfold tracks in Htracks.
        destruct (pendingLastSeenDateRef s) as [T|] eqn:Hp.
        * destruct Htracks as (Hin & HtrT & t & HtT & Hmax).
          rewrite HtrT, HtT. simpl.
          destruct (t <? t') eqn:Hcmp.
          -- apply Z.ltb_lt in Hcmp. unfold tracks. simpl.
             split; [apply in_or_app; right; now left|].
             split; [assumption|]. exists t'. split; [assumption|].
             intros T' t'' Hin' Htr' Ht'.
             apply in_app_or in Hin' as [Hin' | [<- | []]].
             ++ specialize (Hmax T' t'' Hin' Htr' Ht'). lia.
             ++ rewrite Hte in Ht'. injection Ht' as <-. lia.
          -- apply Z.ltb_ge in Hcmp. unfold tracks. rewrite Hp.
             split; [apply in_or_app; now left|].
             split; [assumption|]. exists t. split; [assumption|].
             intros T' t'' Hin' Htr' Ht'.
             apply in_app_or in Hin' as [Hin' | [<- | []]].
             ++ now apply (Hmax T' t'').
             ++ rewrite Hte in Ht'. injection Ht' as <-. lia.
        * simpl. unfold tracks. simpl.
          split; [apply in_or_app; right; now left|].
          split; [assumption|]. exists t'. split; [assumption|].
          intros T' t'' Hin' Htr' Ht'.
          apply in_app_or in Hin' as [Hin' | [<- | []]].
          ++ exfalso. apply (Htracks T' Hin').
             split; [assumption | now exists t''].
          ++ rewrite Hte in Ht'. injection Ht' as <-. lia.
      + simpl. apply tracks_skip; [|assumption].
        intros (_ & t & Ht). congruence.
    - apply tracks_skip; [|assumption]. intros (Htr' & _). congruence. }
  destruct Hframe as (Ht & Hr & Hw & Ho & Hi).
  assert (Howned1 : timers_owned s1).
  { intros p Hp. rewrite Ht in Hp. rewrite Hr. now apply Howned. }
  destruct (scheduleReadReceipts_single s1 Howned1)
    as (Hsingle & Hws & Hout & Hobs & Hpend & _).
  repeat split.
  - unfold tracks. rewrite Hpend. exact Htracks1.
  - exact Hsingle.
  - now rewrite Hws.
  - now rewrite Hout.
  - now rewrite Hobs.
Qed.

Lemma observe_first candidates e st :
  intersectionObserverRef st = true ->
  timers_owned st ->
  tracks getTime candidates st ->
  qualifies e = true ->
  waiting st (observerCallback getTime [e] st)
  /\ tracks getTime (candidates ++ [createdAt e])
       (observerCallback getTime [e] st).
Proof.
  intros Hobs Howned Htracks Hq.
  unfold observerCallback. rewrite Hobs. simpl.
  destruct (observeEntry_tracks candidates e st Hq Howned Htracks)
    as (Htr & Hsingle & Hws & Hout & Hobs').
  split; [|exact Htr]. unfold waiting. rewrite Hobs' in *.
  repeat split; assumption.
Qed.

Lemma observe_later conv cur candidates st s dt e :
  waiting st s ->
  tracks getTime candidates s ->
  0 <= dt < 200 ->
  qualifies e = true ->
  waiting st (scheduleCall getTime conv cur s (dt, e))
  /\ tracks getTime (candidates ++ [createdAt e])
       (scheduleCall getTime conv cur s (dt, e)).
Proof.
  intros Hwait Htracks Hdt Hq. unfold scheduleCall. simpl.
  rewrite (tick_not_due conv cur dt st s Hwait Hdt).
  pose proof (waiting_owned st s Hwait) as Howned.
  destruct Hwait as (Hws & Hout & Hobs & h & Href & Htimers).
  unfold observerCallback. simpl. rewrite Hobs. simpl.
  destruct (observeEntry_tracks candidates e (set_clock (clock s + dt) s)
              Hq Howned Htracks)
    as (Htr & Hsingle & Hws' & Hout' & Hobs').
  split; [|exact Htr]. unfold waiting. simpl in *.
  rewrite Hws', Hout', Hobs'. repeat split; assumption.
Qed.

Lemma burst_tracks conv cur st later :
  forall candidates s,
    waiting st s ->
    tracks getTime candidates s ->
    Forall (fun c => 0 <= fst c < 200 /\ qualifies (snd c) = true) later ->
    waiting st (fold_left (scheduleCall getTime conv cur) later s)
    /\ tracks getTime (candidates ++ map createdAt (map snd later))
         (fold_left (scheduleCall getTime conv cur) later s).
Proof.
  induction later as [|[dt e] later IH];
    intros candidates s Hwait Htracks Hlater; simpl.
  - now rewrite app_nil_r.
  - inversion Hlater as [|c l [Hdt He] Hrest]; subst. simpl in *.
    destruct (observe_later conv cur candidates st s dt e
                Hwait Htracks Hdt He) as (Hwait' & Htracks').
    specialize (IH (candidates ++ [createdAt e])
                  (scheduleCall getTime conv cur s (dt, e))
                  Hwait' Htracks' Hrest).
    now rewrite <- app_assoc in IH.
Qed.

(** The cursor left pending is a latest candidate by itself. *)
Lemma cursor_dated_tracks st :
  cursor_dated getTime st -> tracks getTime (inPlay st []) st.
Proof.
  intros Hdated. unfold tracks, inPlay.
  destruct (pendingLastSeenDateRef st) as [T|] eqn:Hp; simpl.
  - destruct (Hdated T Hp) as (Htr & t & Ht).
    split; [now left|]. split; [assumption|]. exists t.
    split; [assumption|].
    intros T' t' [<- | []] _ Ht'. rewrite Ht in Ht'. injection Ht' as <-. lia.
  - intros T [].
Qed.

(** C3 (amended): a burst of schedule calls, each made before the
    timeout of the previous one expires, sends nothing while it lasts.
    When the delay has elapsed after the last call the one pending
    timeout fires and the cursor is empty afterwards.  If the cursor
    left pending before the burst or one of the reported entries
    carries a date, exactly one [mark_as_read] frame is sent, and it
    carries a latest one among these timestamps; if none does, no
    frame is sent. *)
Theorem C3_debounce_single_flush conv cur first later d st :
  ws_ready st = true ->
  intersectionObserverRef st = true ->
  timers_owned st ->
  cursor_dated getTime st ->
  qualifies first = true ->
  Forall (fun c => 0 <= fst c < 200 /\ qualifies (snd c) = true) later ->
  200 <= d ->
  let st1 := burst getTime conv cur first later st in
  let st2 := tick getTime conv cur d st1 in
  let candidates := inPlay st (first :: map snd later) in
  outbox st1 = outbox st
  /\ pendingLastSeenDateRef st2 = None
  /\ timers st2 = []
  /\ ((exists T, In T candidates /\ dated getTime T) ->
      exists T,
        latest getTime candidates T
        /\ outbox st2 = (outbox st ++ [mark_as_read T cur conv])%list
        /\ lastSentReadDateRef st2 = Some T)
  /\ ((forall T, In T candidates -> ~ dated getTime T) ->
      outbox st2 = outbox st).
Proof.
  intros Hready Hobs Howned Hdated Hfirst Hlater Hd st1 st2 candidates.
  destruct (observe_first (inPlay st []) first st Hobs Howned
              (cursor_dated_tracks st Hdated) Hfirst) as (Hwait0 & Htracks0).
  destruct (burst_tracks conv cur st later _ _ Hwait0 Htracks0 Hlater)
    as (Hwait & Htracks).
  fold (burst getTime conv cur first later st) in Hwait, Htracks.
  fold st1 in Hwait, Htracks.
  assert (Hcands : ((inPlay st [] ++ [createdAt first])
                    ++ map createdAt (map snd later))%list = candidates).
  { subst candidates. unfold inPlay. simpl.
    rewrite app_nil_r, <- app_assoc. reflexivity. }
  rewrite Hcands in Htracks.
  pose proof Hwait as (Hws & Hout & _).
  assert (Hst2 : st2 = sendReadReceipts getTime conv cur
                         (set_timers [] (set_clock (clock st1 + d) st1)))
    by (subst st2; exact (tick_due conv cur d st st1 Hwait Hd)).
  clearbody st1 st2 candidates.
  assert (Hready1 : ws_ready (set_timers [] (set_clock (clock st1 + d) st1))
                    = true)
    by (unfold ws_ready in *; simpl; now rewrite Hws).
  unfold tracks in Htracks.
  destruct (pendingLastSeenDateRef st1) as [T|] eqn:Hpend.
  - pose proof Htracks as (HinT & HtrT & _).
    destruct (sendReadReceipts_flush conv cur T
                (set_timers [] (set_clock (clock st1 + d) st1))
                Hready1 Hpend HtrT)
      as (Hsent & Hcleared & Hsentout & _ & Htimers & _).
    rewrite <- Hst2 in Hsent, Hcleared, Hsentout, Htimers.
    simpl in Hsentout, Htimers. rewrite Hout in Hsentout.
    repeat split; try assumption.
    + intros _. exists T. split; [exact Htracks|]. split; assumption.
    + intros Hnone. exfalso. destruct Htracks as (Hin & Htr & t & Ht & _).
      apply (Hnone T Hin). split; [assumption | now exists t].
  - assert (Hsame : st2 = set_timers [] (set_clock (clock st1 + d) st1)).
    { rewrite Hst2. unfold sendReadReceipts. rewrite Hready1. simpl.
      now rewrite Hpend. }
    rewrite Hsame. simpl. repeat split; try assumption.
    + intros (T & Hin & HT). exfalso. exact (Htracks T Hin HT).
    + intros _. assumption.
Qed.

(** The hypothesis on the cursor holds of every state the component
    can reach: the observer is the only writer of the cursor, and it
    writes dated timestamps. *)
Lemma cursor_dated_frame st st' :
  pendingLastSeenDateRef st' = None
  \/ pendingLastSeenDateRef st' = pendingLastSeenDateRef st ->
  cursor_dated getTime st -> cursor_dated getTime st'.
Proof.
  intros [Hnone | Hsame] Hdated T HT.
  - congruence.
  - rewrite Hsame in HT. now apply Hdated.
Qed.

Ltac same_cursor :=
  intros; eapply cursor_dated_frame; [|eassumption];
  repeat (simpl; match goal with
                 | |- context [match ?x with _ => _ end] => destruct x eqn:?
                 end);
  simpl; auto.

Lemma sendReadReceipts_dated conv cur st :
  cursor_dated getTime st ->
  cursor_dated getTime (sendReadReceipts getTime conv cur st).
Proof. unfold sendReadReceipts. same_cursor. Qed.

Lemma scheduleReadReceipts_dated st :
  cursor_dated getTime st -> cursor_dated getTime (scheduleReadReceipts st).
Proof. unfold scheduleReadReceipts, clearTimeout. same_cursor. Qed.

Lemma observeEntry_dated st e :
  cursor_dated getTime st -> cursor_dated getTime (observeEntry getTime st e).
Proof.
  intros Hdated. unfold observeEntry.
  destruct (isIntersecting e && _ && _); [|assumption].
  apply scheduleReadReceipts_dated.
  destruct (Js.truthy_str (createdAt e)) eqn:Htr; [|assumption].
  destruct (getTime (createdAt e)) as [t|] eqn:Ht; simpl; [|assumption].
  match goal with
  | |- context [if ?b then _ else _] => destruct b
  end; [|assumption].
  intros T HT. simpl in HT. injection HT as <-.
  split; [assumption | now exists t].
Qed.

Lemma observerCallback_dated entries st :
  cursor_dated getTime st ->
  cursor_dated getTime (observerCallback getTime entries st).
Proof.
  unfold observerCallback.
  destruct (intersectionObserverRef st); [|trivial].
  revert st. induction entries as [|e entries IH]; intros st Hdated; simpl.
  - assumption.
  - apply IH. now apply observeEntry_dated.
Qed.

Lemma tick_dated conv cur dt st :
  cursor_dated getTime st ->
  cursor_dated getTime (tick getTime conv cur dt st).
Proof.
  intros Hdated. unfold tick.
  match goal with
  | |- cursor_dated _ (fold_left _ ?fired ?s) =>
      assert (Hs : cursor_dated getTime s) by exact Hdated;
      generalize fired; revert Hs; generalize s
  end.
  intros s Hs fired. revert s Hs.
  induction fired as [|x fired IH]; intros s Hs; simpl; [assumption|].
  apply IH. now apply sendReadReceipts_dated.
Qed.

Lemma cleanup_dated st : cursor_dated getTime (cleanup st).
Proof. intros T HT. unfold cleanup in HT. simpl in HT. discriminate HT. Qed.

Lemma step_dated conv cur st ev :
  cursor_dated getTime st ->
  cursor_dated getTime (step getTime toISOString trim conv cur st ev).
Proof.
  destruct ev; simpl.
  - apply observerCallback_dated.
  - apply tick_dated.
  - unfold ws_onmessage, markReadUpTo. same_cursor.
  - unfold ws_onopen. same_cursor.
  - unfold ws_onclose. same_cursor.
  - same_cursor.
  - unfold sendMessage. same_cursor.
  - same_cursor.
  - same_cursor.
  - unfold handleFileUpload. same_cursor.
  - unfold handleFileUpload_settled. same_cursor.
Qed.

Lemma act_dated cur st a :
  cursor_dated getTime st ->
  cursor_dated getTime (act getTime toISOString trim cur st a).
Proof.
  destruct a as [conv|conv outcome|conv ev]; simpl.
  - intros _. unfold changeConversation, conversationEffect.
    destruct (Js.truthy_num conv).
    + generalize (cleanup_dated st). same_cursor.
    + apply cleanup_dated.
  - unfold loadAndConnect, setupIntersectionObserver, connectWebSocket,
      loadMessages. same_cursor.
  - apply step_dated.
Qed.

(** From mounting on, whatever happens, the cursor is empty or dated. *)
Lemma perform_cursor_dated cur actions now :
  cursor_dated getTime
    (perform getTime toISOString trim cur actions (initial now)).
Proof.
  unfold perform.
  assert (H0 : cursor_dated getTime (initial now))
    by (intros T HT; discriminate HT).
  revert H0. generalize (initial now).
  induction actions as [|a actions IH]; intros st Hst; simpl.
  - assumption.
  - apply IH. now apply act_dated.
Qed.

(** *** The history load sorts by creation time, stably *)

Lemma byCreatedAt_gt a b ta tb :
  getTime (created_at a) = Some ta ->
  getTime (created_at b) = Some tb ->
  Js.gt (byCreatedAt getTime a b) (Js.Num 0) = (tb <? ta).
Proof.
  intros Ha Hb. unfold byCreatedAt. rewrite Ha, Hb. simpl.
  destruct (tb <? ta) eqn:H.
  - apply Z.ltb_lt. apply Z.ltb_lt in H. lia.
  - apply Z.ltb_ge. apply Z.ltb_ge in H. lia.
Qed.

Lemma notAfter_trans a b c :
  notAfter getTime a b -> notAfter getTime b c -> notAfter getTime a c.
Proof.
  intros (ta & tb & Ha & Hb & Hab) (tb' & tc & Hb' & Hc & Hbc).
  exists ta, tc. repeat split; try assumption.
  rewrite Hb in Hb'. injection Hb' as <-. lia.
Qed.

Lemma sort_insert_sorted x l :
  validTime getTime x ->
  Forall (validTime getTime) l ->
  StronglySorted (notAfter getTime) l ->
  StronglySorted (notAfter getTime)
    (sort_insert (byCreatedAt getTime) x l).
Proof.
  intros [tx Hx] Hvalid Hsorted.
  induction Hsorted as [|y r Hr IH Hy]; simpl.
  - constructor; constructor.
  - inversion Hvalid as [|? ? [ty Hty] Hvr]; subst.
    rewrite (byCreatedAt_gt x y tx ty Hx Hty).
    destruct (ty <? tx) eqn:Hcmp.
    + apply Z.ltb_lt in Hcmp. constructor; [now apply IH|].
      rewrite sort_insert_Permutation. constructor; [|assumption].
      exists ty, tx. repeat split; try assumption. lia.
    + apply Z.ltb_ge in Hcmp.
      assert (Hxy : notAfter getTime x y)
        by (exists tx, ty; repeat split; assumption).
      constructor; [now constructor|].
      constructor; [assumption|].
      eapply List.Forall_impl; [|exact Hy].
      intros z Hyz. eapply notAfter_trans; eassumption.
Qed.

Lemma Array_sort_sorted l :
  Forall (validTime getTime) l ->
  StronglySorted (notAfter getTime) (Array_sort (byCreatedAt getTime) l).
Proof.
  induction 1 as [|x l Hx Hl IH]; simpl.
  - constructor.
  - apply sort_insert_sorted; [assumption| |assumption].
    now rewrite Array_sort_Permutation.
Qed.

(** Stability: messages created at the same instant keep their order. *)
Lemma sort_insert_stable t x l :
  validTime getTime x ->
  Forall (validTime getTime) l ->
  List.filter (timeIs getTime t) (sort_insert (byCreatedAt getTime) x l)
  = List.filter (timeIs getTime t) (x :: l).
Proof.
  intros [tx Hx] Hvalid.
  assert (Htx : timeIs getTime t x = (tx =? t))
    by (unfold timeIs; now rewrite Hx).
  induction Hvalid as [|y r [ty Hty] Hr IH]; [reflexivity|].
  assert (Hty' : timeIs getTime t y = (ty =? t))
    by (unfold timeIs; now rewrite Hty).
  simpl. rewrite (byCreatedAt_gt x y tx ty Hx Hty).
  destruct (ty <? tx) eqn:Hcmp; [|reflexivity].
  apply Z.ltb_lt in Hcmp. simpl in *. rewrite IH, Htx, Hty'.
  destruct (ty =? t) eqn:Hyt, (tx =? t) eqn:Hxt; try reflexivity.
  apply Z.eqb_eq in Hyt, Hxt. lia.
Qed.

Lemma Array_sort_stable t l :
  Forall (validTime getTime) l ->
  List.filter (timeIs getTime t) (Array_sort (byCreatedAt getTime) l)
  = List.filter (timeIs getTime t) l.
Proof.
  induction 1 as [|x l Hx Hl IH]; [reflexivity|].
  simpl. rewrite sort_insert_stable.
  - simpl. now rewrite IH.
  - assumption.
  - now rewrite Array_sort_Permutation.
Qed.

(** A settled fetch is applied as it is: the store it writes depends on
    the response and the clock alone. *)
Lemma loadMessages_store conv cur data st :
  Js.truthy_num conv = true ->
  messages
    (loadMessages getTime toISOString conv cur (FetchOk data) st)
  = Array_sort (byCreatedAt getTime)
      (taggedRead toISOString (clock st) data
       ++ taggedUnread toISOString (clock st) data).
Proof. intros Hconv. unfold loadMessages. now rewrite Hconv. Qed.

(** What [ensureType] and the tag make of a history record. *)
Lemma ensureType_fields now raw b :
  let m := with_is_read (ensureType toISOString now raw) b in
  m = mkMessage (raw_id raw) (raw_conversation_id raw)
        (raw_attachment_id raw) (raw_sender_id raw) (raw_content raw)
        (raw_file_name raw) (raw_file_type raw) (raw_description raw)
        (raw_file_size raw)
        (match raw_created_at raw, raw_timestamp raw with
         | Some c, _ => c
         | None, Some t => t
         | None, None => toISOString now
         end)
        (type m) b
  /\ (type m = file <->
      raw_type raw = Some "file"
      \/ ((raw_type raw = None \/ raw_type raw = Some "")
          /\ (raw_attachment_id raw <> None \/ raw_file_name raw <> None))).
Proof.
  split.
  - unfold with_is_read, ensureType. simpl.
    destruct (raw_created_at raw), (raw_timestamp raw); reflexivity.
  - unfold with_is_read, ensureType. cbn [type].
    destruct (raw_type raw) as [[|c s]|];
      cbn [Js.truthy_ostr Js.truthy_str Js.strict_eq_ref].
    + destruct (raw_attachment_id raw), (raw_file_name raw); simpl; split;
        first
          [ discriminate
          | now intros _
          | intros _; right; split; [now right|];
            first [left; discriminate | right; discriminate]
          | intros [H | (_ & [H | H])];
            [discriminate H | now destruct H | now destruct H] ].
    + destruct (String.eqb_spec (String c s) "file") as [E | Hne].
      * rewrite E. split; [intros _; now left | reflexivity].
      * split; [discriminate|].
        intros [H | ([H | H] & _)]; [|discriminate H..].
        exfalso. apply Hne. congruence.
    + destruct (raw_attachment_id raw), (raw_file_name raw); simpl; split;
        first
          [ discriminate
          | now intros _
          | intros _; right; split; [now left|];
            first [left; discriminate | right; discriminate]
          | intros [H | (_ & [H | H])];
            [discriminate H | now destruct H | now destruct H] ].
Qed.

(** C7 (amended): a successful history load whose items all carry a
    creation time that parses (after [ensureType] has filled in the
    missing ones) replaces the store by the read array tagged read
    followed by the unread array tagged unread, sorted ascending by
    creation time with a stable sort: the store is a permutation of the
    tagged items, ascending, and items created at the same instant keep
    the order they had; what the store held before plays no part.  A
    tagged item carries the fields of its record, the creation time
    being [created_at], else [timestamp], else the current time. *)
Theorem C7_history_load_sorted conv cur reads unreads st :
  let item (b : bool) (raw : RawMessage) :=
    with_is_read (ensureType toISOString (clock st) raw) b in
  let tagged := map (item true) reads ++ map (item false) unreads in
  let load :=
    loadMessages getTime toISOString conv cur
      (FetchOk (mkHistory (Some reads) (Some unreads))) in
  Js.truthy_num conv = true ->
  Forall (validTime getTime) tagged ->
  Permutation (messages (load st)) tagged
  /\ StronglySorted (notAfter getTime) (messages (load st))
  /\ (forall t,
        List.filter (timeIs getTime t) (messages (load st))
        = List.filter (timeIs getTime t) tagged)
  /\ (forall prior,
        messages (load (set_messages prior st)) = messages (load st))
  /\ (forall raw b,
        item b raw
        = mkMessage (raw_id raw) (raw_conversation_id raw)
            (raw_attachment_id raw) (raw_sender_id raw) (raw_content raw)
            (raw_file_name raw) (raw_file_type raw) (raw_description raw)
            (raw_file_size raw)
            (match raw_created_at raw, raw_timestamp raw with
             | Some c, _ => c
             | None, Some t => t
             | None, None => toISOString (clock st)
             end)
            (type (item b raw)) b
        /\ (type (item b raw) = file <->
            raw_type raw = Some "file"
            \/ ((raw_type raw = None \/ raw_type raw = Some "")
                /\ (raw_attachment_id raw <> None
                    \/ raw_file_name raw <> None)))).
Proof.
  intros item tagged load Hconv Hvalid.
  assert (Hload : forall s, clock s = clock st ->
            messages (load s) = Array_sort (byCreatedAt getTime) tagged).
  { intros s Hclock. subst load tagged item.
    rewrite (loadMessages_store conv cur _ s Hconv).
    unfold taggedRead, taggedUnread. simpl. now rewrite Hclock. }
  rewrite (Hload st eq_refl).
  split; [apply Array_sort_Permutation|].
  split; [now apply Array_sort_sorted|].
  split; [intros t; now apply Array_sort_stable|].
  split; [intros prior; now rewrite (Hload (set_messages prior st))|].
  intros raw b. exact (ensureType_fields (clock st) raw b).
Qed.

End Verification.

(** ** The theorems on concrete runs *)

Import Scenario.

(** C1, the claim as stated, fails: the user has flushed a receipt for
    [t2], and a [messages_read] for [t2] arrives that names the peer as
    reader.  The event is not treated as a self-echo: the user's own
    message 10, sent before [t2], becomes read. *)
Lemma C1_counterexample_identity_wins :
  let ev := InMessagesRead (Some t2) (Some peer) None None in
  let st' := ws_onmessage IsoDate.getTime me ev flushed in
  lastSentReadDateRef flushed = Some t2
  /\ summary flushed
     = [(7, 10, 1, false); (7, 1, 2, true); (7, 2, 2, true);
        (7, 3, 1, false); (7, 4, 2, false)]
  /\ summary st'
     = [(7, 10, 1, true); (7, 1, 2, true); (7, 2, 2, true);
        (7, 3, 1, false); (7, 4, 2, false)]
  /\ st' <> markReadUpTo IsoDate.getTime me 1704067202000 false
              (set_lastSentReadDateRef None flushed).
Proof.
  repeat split; try (vm_compute; reflexivity).
  intros H. apply (f_equal summary) in H. vm_compute in H. discriminate H.
Qed.

(** C1 (amended), on the same run. *)
Lemma C1_reader_identity_witness :
  let ev := InMessagesRead (Some t2) (Some peer) None None in
  let st' := ws_onmessage IsoDate.getTime me ev flushed in
  Js.truthy_str t2 = true
  /\ IsoDate.getTime t2 = Some 1704067202000
  /\ lastSentReadDateRef flushed = Some t2
  /\ readerIdOf (Some peer) None None = Some peer
  /\ peer <> me
  /\ st' = markReadUpTo IsoDate.getTime me 1704067202000 true
             (set_lastSentReadDateRef None flushed)
  /\ lastSentReadDateRef st' = None
  /\ (forall (i : nat) m,
        messages flushed !! i = Some m -> sender_id m <> me ->
        messages st' !! i = Some m)
  /\ (forall (i : nat) m t,
        messages flushed !! i = Some m -> sender_id m = me ->
        is_read m = false -> IsoDate.getTime (created_at m) = Some t ->
        t <= 1704067202000 ->
        messages st' !! i = Some (with_is_read m true)).
Proof.
  assert (H1 : Js.truthy_str t2 = true) by reflexivity.
  assert (H2 : IsoDate.getTime t2 = Some 1704067202000)
    by (vm_compute; reflexivity).
  assert (H3 : lastSentReadDateRef flushed = Some t2)
    by (vm_compute; reflexivity).
  assert (H4 : readerIdOf (Some peer) None None = Some peer) by reflexivity.
  assert (H5 : peer <> me) by (unfold peer, me; lia).
  exact (conj H1 (conj H2 (conj H3 (conj H4 (conj H5
           (C1_reader_identity_takes_priority IsoDate.getTime me t2
              1704067202000 (Some peer) None None peer flushed
              H1 H2 H3 H4 H5)))))).
Defined.

(** C2: conversation B is selected while the history fetch of
    conversation A is in flight.  B's history arrives, then A's: the
    store ends up holding A's five messages and none of B's, and the
    socket has been replaced by one to conversation A. *)
Theorem C2_late_history_overwrites_store :
  summary
    (go [Select (Some convA); Select (Some convB);
         HistorySettled (Some convB) (FetchOk historyB)] (initial now0))
  = [(8, 20, 2, true)]
  /\ summary lateHistory
     = [(7, 10, 1, false); (7, 1, 2, true); (7, 2, 2, false);
        (7, 3, 1, false); (7, 4, 2, false)]
  /\ wsRef lateHistory = Some (mkWebSocket convA me CONNECTING).
Proof. repeat split; vm_compute; reflexivity. Qed.

(** C3, the claim as stated, fails.  The peer's message of [t4] came
    into view while the socket was still connecting: the timeout
    expired without a flush and left [t4] in the cursor.  With the
    socket open, one schedule call is made, for the message of [t2],
    and the window expires: the one frame sent carries [t4], which is
    not among the scheduled timestamps.  And after a schedule call
    whose entry carries no date, the window expires without any
    frame. *)
Lemma C3_counterexample_leftover_cursor :
  let st2 :=
    tick IsoDate.getTime (Some convA) me 200
      (burst IsoDate.getTime (Some convA) me (visible t2) []
         Runs.leftover) in
  let st2' :=
    tick IsoDate.getTime (Some convA) me 200
      (burst IsoDate.getTime (Some convA) me Runs.undated [] loaded) in
  ws_ready Runs.leftover = true
  /\ timers Runs.leftover = []
  /\ outbox Runs.leftover = []
  /\ pendingLastSeenDateRef Runs.leftover = Some t4
  /\ qualifies (visible t2) = true
  /\ IsoDate.getTime t2 = Some Runs.ms2
  /\ IsoDate.getTime t4 = Some Runs.ms4
  /\ outbox st2 = [mark_as_read t4 me (Some convA)]
  /\ ws_ready loaded = true
  /\ pendingLastSeenDateRef loaded = None
  /\ qualifies Runs.undated = true
  /\ IsoDate.getTime (createdAt Runs.undated) = None
  /\ outbox st2' = []
  /\ timers st2' = [].
Proof. repeat split; vm_compute; reflexivity. Qed.

(** C3 (amended), on the same leftover cursor and a burst of three
    calls 50 ms and 199 ms apart, the second without a date: the one
    frame sent carries [t4], the latest of the timestamps in play. *)
Lemma C3_debounce_witness :
  let later := [(50, Runs.undated); (199, visible t1)] in
  let st1 :=
    burst IsoDate.getTime (Some convA) me (visible t2) later
      Runs.leftover in
  let st2 := tick IsoDate.getTime (Some convA) me 200 st1 in
  let candidates := inPlay Runs.leftover (visible t2 :: map snd later) in
  ws_ready Runs.leftover = true
  /\ intersectionObserverRef Runs.leftover = true
  /\ timers_owned Runs.leftover
  /\ cursor_dated IsoDate.getTime Runs.leftover
  /\ qualifies (visible t2) = true
  /\ Forall (fun c => 0 <= fst c < 200 /\ qualifies (snd c) = true) later
  /\ 200 <= 200
  /\ candidates = [t4; t2; "yesterday"; t1]
  /\ outbox st2 = [mark_as_read t4 me (Some convA)]
  /\ outbox st1 = outbox Runs.leftover
  /\ pendingLastSeenDateRef st2 = None
  /\ timers st2 = []
  /\ ((exists T, In T candidates /\ dated IsoDate.getTime T) ->
      exists T,
        latest IsoDate.getTime candidates T
        /\ outbox st2
           = outbox Runs.leftover ++ [mark_as_read T me (Some convA)]
        /\ lastSentReadDateRef st2 = Some T)
  /\ ((forall T, In T candidates -> ~ dated IsoDate.getTime T) ->
      outbox st2 = outbox Runs.leftover).
Proof.
  intros later st1 st2 candidates.
  assert (H1 : ws_ready Runs.leftover = true) by reflexivity.
  assert (H2 : intersectionObserverRef Runs.leftover = true) by reflexivity.
  assert (H3 : timers_owned Runs.leftover)
    by (intros p Hp; vm_compute in Hp; destruct Hp).
  assert (H4 : cursor_dated IsoDate.getTime Runs.leftover).
  { intros T HT. vm_compute in HT. injection HT as <-.
    split; [reflexivity|]. exists Runs.ms4. vm_compute. reflexivity. }
  assert (H5 : qualifies (visible t2) = true) by reflexivity.
  assert (H6 : Forall (fun c => 0 <= fst c < 200
                                /\ qualifies (snd c) = true) later).
  { repeat constructor; simpl; lia. }
  assert (H7 : 200 <= 200) by lia.
  assert (H8 : candidates = [t4; t2; "yesterday"; t1]) by reflexivity.
  assert (H9 : outbox st2 = [mark_as_read t4 me (Some convA)])
    by (vm_compute; reflexivity).
  exact (conj H1 (conj H2 (conj H3 (conj H4 (conj H5 (conj H6 (conj H7
           (conj H8 (conj H9
              (C3_debounce_single_flush IsoDate.getTime (Some convA) me
                 (visible t2) later 200 Runs.leftover
                 H1 H2 H3 H4 H5 H6 H7)))))))))).
Defined.


(** C5: the displayed counters do not follow the store across a change
    of conversation.  Conversation A is loaded with two unread messages
    of the peer, and the counters agree with the store.  Conversation B
    is selected: the effect empties the store and leaves both counters
    as they were.  B's history request fails, its socket opens, and the
    user sends a text: the send writes the store, which now holds the
    one message of the user, while the counters still show two unread
    messages, the first of them message 2 of conversation A. *)
Theorem C5_stale_counters_after_conversation_change :
  let st' :=
    apply_op IsoDate.getTime IsoDate.toISOString Js.trim (Some convB) me
      OptimisticText afterFailedLoad in
  unread_inv me loaded
  /\ unreadCount loaded = 2%nat
  /\ firstUnreadId loaded = Some 2
  /\ messages Runs.switched = []
  /\ unreadCount Runs.switched = 2%nat
  /\ firstUnreadId Runs.switched = Some 2
  /\ ~ unread_inv me Runs.switched
  /\ messages st' <> messages afterFailedLoad
  /\ summary st' = [(8, 1704067210000, 1, false)]
  /\ unreadCount st' = 2%nat
  /\ countUnread me (messages st') = 0%nat
  /\ firstUnreadId st' = Some 2
  /\ findFirstUnreadId me (messages st') = None
  /\ ~ unread_inv me st'.
Proof.
  repeat split; try (vm_compute; reflexivity).
  - intros [H _]. vm_compute in H. discriminate H.
  - intros H. apply (f_equal (@length Message)) in H.
    vm_compute in H. discriminate H.
  - intros [H _]. vm_compute in H. discriminate H.
Qed.

(** C6, on the read message at position 1 of the loaded store, through
    a view, a flush, its echo and a send. *)
Lemma C6_monotonic_witness :
  let m :=
    with_is_read (ensureType IsoDate.toISOString now0 (item convA 1 peer t1))
      true in
  let events :=
    [Visible [visible t2]; Tick 200;
     Receive (InMessagesRead (Some t2) None None None);
     Typed "seen"; SendMessage] in
  messages loaded !! 1%nat = Some m
  /\ exists m',
       messages
         (run IsoDate.getTime IsoDate.toISOString Js.trim (Some convA) me events
            loaded) !! 1%nat = Some m'
       /\ evolves m m'
       /\ (is_read m = true -> m' = m /\ is_read m' = true).
Proof.
  intros m events.
  assert (H1 : messages loaded !! 1%nat = Some m) by reflexivity.
  exact (conj H1
           (C6_is_read_monotonic IsoDate.getTime IsoDate.toISOString Js.trim
              (Some convA) me events loaded 1%nat m H1)).
Defined.

(** C7, the claim as stated, fails: the second record of the read array
    carries a creation time that is not a date.  The comparator yields
    [NaN] against it, the sort moves nothing, and the store keeps the
    message of [t3] ahead of the message of [t1]. *)
Lemma C7_counterexample_unparsed_date :
  let load :=
    loadMessages IsoDate.getTime IsoDate.toISOString (Some convA) me
      (FetchOk (mkHistory (Some Runs.unparsed) (Some []))) in
  let store := messages (load (initial now0)) in
  map created_at store = [t3; "soon"; t1]
  /\ map id store = [3; 5; 1]
  /\ IsoDate.getTime "soon" = None
  /\ (exists a b,
        store !! 0%nat = Some a /\ store !! 2%nat = Some b
        /\ IsoDate.getTime (created_at a) = Some Runs.ms3
        /\ IsoDate.getTime (created_at b) = Some Runs.ms1
        /\ Runs.ms1 < Runs.ms3)
  /\ ~ StronglySorted (notAfter IsoDate.getTime) store.
Proof.
  intros load store.
  eassert (E : store = _) by (vm_compute; reflexivity).
  clearbody store. subst store.
  split; [reflexivity|].
  split; [reflexivity|].
  split; [vm_compute; reflexivity|].
  split.
  - do 2 eexists.
    split; [reflexivity|]. split; [reflexivity|].
    split; [vm_compute; reflexivity|].
    split; [vm_compute; reflexivity|]. reflexivity.
  - intros H. apply StronglySorted_inv in H as [_ Hall].
    apply List.Forall_inv_tail, List.Forall_inv in Hall.
    destruct Hall as (ta & tb & Ha & Hb & Hle).
    vm_compute in Ha, Hb. injection Ha as <-. injection Hb as <-. lia.
Qed.

(** C7 (amended), on the history of conversation A, whose unread array
    is out of order: the store comes out ascending. *)
Lemma C7_history_load_witness :
  let item (b : bool) (raw : RawMessage) :=
    with_is_read (ensureType IsoDate.toISOString now0 raw) b in
  let tagged := map (item true) readA ++ map (item false) unreadA in
  let load :=
    loadMessages IsoDate.getTime IsoDate.toISOString (Some convA) me
      (FetchOk (mkHistory (Some readA) (Some unreadA))) in
  Js.truthy_num (Some convA) = true
  /\ Forall (validTime IsoDate.getTime) tagged
  /\ summary (load (initial now0))
     = [(7, 10, 1, false); (7, 1, 2, true); (7, 2, 2, false);
        (7, 3, 1, false); (7, 4, 2, false)]
  /\ Permutation (messages (load (initial now0))) tagged
  /\ StronglySorted (notAfter IsoDate.getTime)
       (messages (load (initial now0)))
  /\ (forall t,
        List.filter (timeIs IsoDate.getTime t)
          (messages (load (initial now0)))
        = List.filter (timeIs IsoDate.getTime t) tagged)
  /\ (forall prior,
        messages (load (set_messages prior (initial now0)))
        = messages (load (initial now0))).
Proof.
  intros item tagged load.
  assert (H1 : Js.truthy_num (Some convA) = true) by reflexivity.
  assert (H2 : Forall (validTime IsoDate.getTime) tagged).
  { repeat constructor; eexists; vm_compute; reflexivity. }
  assert (H3 : summary (load (initial now0))
               = [(7, 10, 1, false); (7, 1, 2, true); (7, 2, 2, false);
                  (7, 3, 1, false); (7, 4, 2, false)])
    by (vm_compute; reflexivity).
  destruct (C7_history_load_sorted IsoDate.getTime IsoDate.toISOString
              (Some convA) me readA unreadA (initial now0) H1 H2)
    as (Hperm & Hsorted & Hstable & Hprior & _).
  exact (conj H1 (conj H2 (conj H3
           (conj Hperm (conj Hsorted (conj Hstable Hprior)))))).
Defined.

(** C9, the claim as stated, fails: the socket closes while the file is
    being uploaded, and the upload succeeds.  The alert is raised and
    nothing is sent, but the file input is reset: the file card is
    still shown, and pressing send again, even with the socket open
    again, does nothing at all. *)
Lemma C9_counterexample_file_input_reset :
  let st' :=
    handleFileUpload_settled IsoDate.toISOString (Some convA) me
      (UploadOk Runs.uploadedFile) Runs.uploadingOffline in
  ws_ready Runs.uploadingOffline = false
  /\ fileInputRef Runs.uploadingOffline = Some Runs.pickedFile
  /\ selectedFile Runs.uploadingOffline = Some Runs.pickedFile
  /\ alerts st'
     = ["Connection lost during upload. File uploaded but not sent to chat."]
  /\ outbox st' = []
  /\ selectedFile st' = Some Runs.pickedFile
  /\ fileInputRef st' = None
  /\ handleFileUpload (Some convA) st' = st'
  /\ handleFileUpload (Some convA) (ws_onopen st') = ws_onopen st'.
Proof. repeat split. Qed.

(** C9 (amended), on a text typed while the socket is still
    connecting. *)
Lemma C9_send_blocked_witness :
  let st' :=
    attempt IsoDate.toISOString Js.trim (Some convA) me TextAttempt
      typingOffline in
  ws_ready typingOffline = false
  /\ hasContent Js.trim (Some convA) TextAttempt typingOffline = true
  /\ alerts st' = alerts typingOffline ++ [notReadyText TextAttempt]
  /\ outbox st' = outbox typingOffline
  /\ messages st' = messages typingOffline
  /\ newMessage st' = newMessage typingOffline
  /\ selectedFile st' = selectedFile typingOffline
  /\ st' = alert (notReadyText TextAttempt) typingOffline
  /\ fileInputRef st' = fileInputRef typingOffline
  /\ uploading st' = uploading typingOffline.
Proof.
  intros st'.
  assert (H1 : ws_ready typingOffline = false) by reflexivity.
  assert (H2 : hasContent Js.trim (Some convA) TextAttempt typingOffline
               = true)
    by reflexivity.
  exact (conj H1 (conj H2
           (C9_send_blocked_when_channel_not_open IsoDate.toISOString
              Js.trim (Some convA) me TextAttempt typingOffline H1 H2))).
Defined.

(** The same for a file picked while the socket is still connecting. *)
Example file_send_blocked :
  let st' := handleFileUpload (Some convA) pickedOffline in
  alerts st' = ["Chat connection not ready. Please wait and try again."]
  /\ outbox st' = []
  /\ selectedFile st' = selectedFile pickedOffline
  /\ uploading st' = false.
Proof. repeat split. Qed.

(** C10, on a text typed in the loaded conversation. *)
Lemma C10_text_send_witness :
  let st' := sendMessage IsoDate.toISOString Js.trim (Some convA) me typing in
  Js.truthy_str (Js.trim (newMessage typing)) = true
  /\ ws_ready typing = true
  /\ Js.truthy_num (Some convA) = true
  /\ exists m frame,
       messages st' = messages typing ++ [m]
       /\ sender_id m = me
       /\ is_read m = false
       /\ content m = Some (newMessage typing)
       /\ outbox st' = outbox typing ++ [frame]
       /\ unreadCount st' = unreadCount typing
       /\ firstUnreadId st' = firstUnreadId typing
       /\ countUnread me (messages st') = countUnread me (messages typing)
       /\ findFirstUnreadId me (messages st')
          = findFirstUnreadId me (messages typing).
Proof.
  intros st'.
  assert (H1 : Js.truthy_str (Js.trim (newMessage typing)) = true)
    by reflexivity.
  assert (H2 : ws_ready typing = true) by reflexivity.
  assert (H3 : Js.truthy_num (Some convA) = true) by reflexivity.
  exact (conj H1 (conj H2 (conj H3
           (C10_text_send_appends_own_message IsoDate.toISOString Js.trim
              (Some convA) me typing H1 H2 H3)))).
Defined.

(** ** Further properties of the component *)

Import Conditions.

Section More.

Variable getTime : string -> option Z.
Variable toISOString : Z -> string.
Variable trim : string -> string.

(** *** Teardown *)

Lemma cleanup_timers st : timers_owned st -> timers (cleanup st) = [].
Proof.
  intros Howned. unfold cleanup. simpl.
  destruct (readTimerRef st) as [h|] eqn:Href; simpl.
  - apply filter_none. intros q Hq. apply Howned in Hq.
    rewrite Href in Hq. injection Hq as ->. now rewrite Nat.eqb_refl.
  - destruct (timers st) as [|p l] eqn:Ht; [reflexivity|].
    specialize (Howned p). rewrite Ht, Href in Howned.
    discriminate Howned. now left.
Qed.

(** X1: after the cleanup of the conversation effect the component is
    quiet: no socket, no observer, no pending timeout, no cursor; the
    observer callback and the passing of time then change nothing but
    the clock. *)
Theorem X1_cleanup_quiesces conv cur entries dt st :
  timers_owned st ->
  let c := cleanup st in
  wsRef c = None
  /\ wsConnected c = false
  /\ intersectionObserverRef c = false
  /\ readTimerRef c = None
  /\ timers c = []
  /\ pendingLastSeenDateRef c = None
  /\ observerCallback getTime entries c = c
  /\ tick getTime conv cur dt c = set_clock (clock c + dt) c.
Proof.
  intros Howned c.
  assert (Ht : timers c = []) by now apply cleanup_timers.
  assert (Href : readTimerRef c = None).
  { subst c. unfold cleanup. cbn.
    destruct (readTimerRef st) eqn:E; simpl; congruence. }
  assert (Hobs : intersectionObserverRef c = false).
  { subst c. unfold cleanup. cbn. destruct (readTimerRef st); reflexivity. }
  assert (Hws : wsRef c = None /\ wsConnected c = false
                /\ pendingLastSeenDateRef c = None).
  { subst c. unfold cleanup. cbn. destruct (readTimerRef st); repeat split. }
  destruct Hws as (Hws & Hconn & Hpend). clearbody c.
  repeat split; try assumption.
  - unfold observerCallback. now rewrite Hobs.
  - unfold tick. simpl. rewrite Ht. simpl.
    destruct c; simpl in *; subst; reflexivity.
Qed.

(** *** Single flight *)

Lemma single_flight_frame st st' :
  timers st' = timers st -> readTimerRef st' = readTimerRef st ->
  single_flight st -> single_flight st'.
Proof.
  intros Ht Href [Howned Hlen]. split.
  - intros p Hp. rewrite Href. apply Howned. now rewrite <- Ht.
  - now rewrite Ht.
Qed.

Ltac same_queue :=
  intros; eapply single_flight_frame; [| |eassumption];
  repeat (simpl; match goal with
                 | |- context [match ?x with _ => _ end] => destruct x
                 end);
  simpl; auto.

Lemma filter_length_le {A} (f : A -> bool) l :
  (length (List.filter f l) <= length l)%nat.
Proof.
  induction l as [|x l IH]; simpl; [lia|]. destruct (f x); simpl; lia.
Qed.

Lemma sendReadReceipts_single_flight conv cur st :
  single_flight st -> single_flight (sendReadReceipts getTime conv cur st).
Proof. unfold sendReadReceipts. same_queue. Qed.

Lemma scheduleReadReceipts_single_flight st :
  single_flight st -> single_flight (scheduleReadReceipts st).
Proof.
  intros [Howned _].
  destruct (scheduleReadReceipts_single st Howned) as ((h & Href & Ht) & _).
  split.
  - intros p Hp. rewrite Ht in Hp. destruct Hp as [<- | []]. exact Href.
  - rewrite Ht. simpl. lia.
Qed.

Lemma observerCallback_single_flight entries st :
  single_flight st -> single_flight (observerCallback getTime entries st).
Proof.
  unfold observerCallback.
  destruct (intersectionObserverRef st); [|trivial].
  revert st. induction entries as [|e entries IH]; intros st Hst; simpl.
  - assumption.
  - apply IH. unfold observeEntry.
    destruct (isIntersecting e && _ && _); [|assumption].
    apply scheduleReadReceipts_single_flight.
    destruct (Js.truthy_str (createdAt e)); [|assumption].
    destruct (Js.isFinite _ && _); [|assumption].
    revert Hst. same_queue.
Qed.

Lemma tick_single_flight conv cur dt st :
  single_flight st -> single_flight (tick getTime conv cur dt st).
Proof.
  intros [Howned Hlen]. unfold tick.
  match goal with
  | |- single_flight (fold_left _ ?fired ?s) =>
      assert (Hs : single_flight s); [|generalize fired; revert Hs;
                                       generalize s]
  end.
  - split; simpl.
    + intros p Hp. simpl in Hp. apply filter_In in Hp as [Hp _].
      now apply Howned.
    + etransitivity; [apply filter_length_le | exact Hlen].
  - intros s Hs fired. revert s Hs.
    induction fired as [|x fired IH]; intros s Hs; simpl; [assumption|].
    apply IH. now apply sendReadReceipts_single_flight.
Qed.

Lemma cleanup_single_flight st :
  single_flight st -> single_flight (cleanup st).
Proof.
  intros [Howned _]. split.
  - now apply cleanup_owned.
  - rewrite cleanup_timers by assumption. simpl. lia.
Qed.

Lemma step_single_flight conv cur st ev :
  single_flight st ->
  single_flight (step getTime toISOString trim conv cur st ev).
Proof.
  destruct ev; simpl.
  - apply observerCallback_single_flight.
  - apply tick_single_flight.
  - unfold ws_onmessage, markReadUpTo. same_queue.
  - unfold ws_onopen. same_queue.
  - unfold ws_onclose. same_queue.
  - same_queue.
  - unfold sendMessage. same_queue.
  - same_queue.
  - same_queue.
  - unfold handleFileUpload. same_queue.
  - unfold handleFileUpload_settled. same_queue.
Qed.

Lemma act_single_flight cur st a :
  single_flight st -> single_flight (act getTime toISOString trim cur st a).
Proof.
  destruct a as [conv|conv outcome|conv ev]; simpl.
  - intros Hst. unfold changeConversation, conversationEffect.
    apply cleanup_single_flight in Hst.
    destruct (Js.truthy_num conv).
    + revert Hst. same_queue.
    + apply cleanup_single_flight. revert Hst. same_queue.
  - unfold loadAndConnect, setupIntersectionObserver, connectWebSocket,
      loadMessages. same_queue.
  - apply step_single_flight.
Qed.

(** X2: the read-receipt timer is single flight.  From mounting on,
    whatever happens (conversation changes, settled fetches, session
    events, in any order), at most one timeout is pending, and it is
    the one whose handle the component holds. *)
Theorem X2_timer_single_flight cur actions now :
  let st := perform getTime toISOString trim cur actions (initial now) in
  (length (timers st) <= 1)%nat
  /\ forall p, In p (timers st) -> readTimerRef st = Some (fst p).
Proof.
  intros st.
  assert (H : single_flight st).
  { subst st. unfold perform.
    assert (H0 : single_flight (initial now)).
    { split; [intros p []|simpl; lia]. }
    revert H0. generalize (initial now).
    induction actions as [|a actions IH]; intros s Hs; simpl.
    - assumption.
    - apply IH. now apply act_single_flight. }
  destruct H as [Howned Hlen]. split; assumption.
Qed.

(** *** The visibility observer *)

Lemma scheduleReadReceipts_pending st :
  pendingLastSeenDateRef (scheduleReadReceipts st)
  = pendingLastSeenDateRef st.
Proof. unfold scheduleReadReceipts. destruct (readTimerRef st); reflexivity. Qed.

Lemma observeEntry_cursor st e T t :
  pendingLastSeenDateRef st = Some T ->
  Js.truthy_str T = true ->
  getTime T = Some t ->
  exists T' t',
    pendingLastSeenDateRef (observeEntry getTime st e) = Some T'
    /\ Js.truthy_str T' = true /\ getTime T' = Some t' /\ t <= t'.
Proof.
  intros Hpend Htruthy Ht. unfold observeEntry.
  destruct (isIntersecting e && _ && _);
    [|exists T, t; repeat split; auto; lia].
  rewrite scheduleReadReceipts_pending.
  destruct (Js.truthy_str (createdAt e)) eqn:He;
    [|exists T, t; repeat split; auto; lia].
  rewrite Hpend, Htruthy, Ht.
  destruct (getTime (createdAt e)) as [t'|] eqn:Ht'; simpl;
    [|exists T, t; repeat split; auto; lia].
  destruct (t <? t') eqn:Hlt.
  - apply Z.ltb_lt in Hlt. exists (createdAt e), t'. simpl.
    repeat split; auto. lia.
  - exists T, t. repeat split; auto. lia.
Qed.

(** X3: the pending cursor is a running maximum.  Whatever entries the
    observer reports, a cursor that holds a timestamp keeps holding
    one, and never an earlier one. *)
Theorem X3_cursor_never_moves_back entries st T t :
  pendingLastSeenDateRef st = Some T ->
  Js.truthy_str T = true ->
  getTime T = Some t ->
  exists T' t',
    pendingLastSeenDateRef (observerCallback getTime entries st) = Some T'
    /\ Js.truthy_str T' = true /\ getTime T' = Some t' /\ t <= t'.
Proof.
  unfold observerCallback.
  destruct (intersectionObserverRef st);
    [|intros; exists T, t; repeat split; auto; lia].
  revert st T t.
  induction entries as [|e entries IH]; intros st T t Hpend Htruthy Ht; simpl.
  - exists T, t. repeat split; auto. lia.
  - destruct (observeEntry_cursor st e T t Hpend Htruthy Ht)
      as (T1 & t1 & Hpend1 & Htruthy1 & Ht1 & Hle1).
    destruct (IH _ T1 t1 Hpend1 Htruthy1 Ht1)
      as (T2 & t2 & Hpend2 & Htruthy2 & Ht2 & Hle2).
    exists T2, t2. repeat split; auto. lia.
Qed.

(** X4: entries that are not on screen, or belong to a read message, or
    to a message of the user, are ignored: no cursor, no timer. *)
Theorem X4_other_entries_ignored entries st :
  Forall (fun e => isIntersecting e && isUnreadMessage e && isFromOthers e
                   = false) entries ->
  observerCallback getTime entries st = st.
Proof.
  intros Hall. unfold observerCallback.
  destruct (intersectionObserverRef st); [|reflexivity].
  induction Hall as [|e entries He _ IH]; simpl; [reflexivity|].
  unfold observeEntry at 2. now rewrite He.
Qed.



(** *** What a flush marks *)

(** The optimistic marking of a flush is the self direction of a
    reconciliation. *)
Lemma markSeen_markRead cur cutoff m :
  markSeen getTime cur cutoff m = markRead getTime cur cutoff false m.
Proof.
  unfold markSeen, markRead.
  destruct (getTime (created_at m)) as [t|]; simpl.
  - destruct (sender_id m =? cur), (t <=? cutoff) eqn:Hle,
      (is_read m); simpl;
      try (replace (cutoff <? t) with false
             by (symmetry; apply Z.ltb_ge; apply Z.leb_le in Hle; lia));
      try (replace (cutoff <? t) with true
             by (symmetry; apply Z.ltb_lt; apply Z.leb_gt in Hle; lia));
      reflexivity.
  - now rewrite andb_false_r.
Qed.

Lemma markSeen_cases cur cutoff m :
  markSeen getTime cur cutoff m = with_is_read m true
  \/ (markSeen getTime cur cutoff m = m
      /\ (sender_id m = cur \/ is_read m = true
          \/ getTime (created_at m) = None
          \/ exists t, getTime (created_at m) = Some t /\ cutoff < t)).
Proof.
  unfold markSeen.
  destruct (sender_id m =? cur) eqn:Hs; simpl.
  { right. split; [reflexivity|]. left. now apply Z.eqb_eq. }
  destruct (getTime (created_at m)) as [t|] eqn:Ht; simpl.
  - destruct (t <=? cutoff) eqn:Hle; simpl.
    + destruct (is_read m) eqn:Hr; simpl; [right | now left].
      split; [reflexivity|]. right. now left.
    + right. split; [reflexivity|]. right. right. right.
      exists t. split; [reflexivity|]. now apply Z.leb_gt.
  - right. split; [reflexivity|]. right. right. now left.
Qed.

Lemma countUnread_le_map cur (f : Message -> Message) l :
  (forall m, evolves m (f m)) ->
  (countUnread cur (map f l) <= countUnread cur l)%nat.
Proof.
  intros Hf. unfold countUnread.
  induction l as [|m l IH]; simpl; [lia|].
  destruct (Hf m) as [-> | [_ ->]].
  - destruct (unreadFromOthers cur m); simpl; lia.
  - unfold unreadFromOthers at 1. simpl.
    destruct (unreadFromOthers cur m); simpl; lia.
Qed.

(** X7: a flush marks what the user has seen.  After it no unread
    message of another user is left at or before the cutoff, the
    messages of the user are as they were, no message is added or
    dropped, and the unread count has not grown. *)
Theorem X7_flush_marks_up_to_cutoff conv cur lastSeen cutoff st :
  ws_ready st = true ->
  pendingLastSeenDateRef st = Some lastSeen ->
  Js.truthy_str lastSeen = true ->
  getTime lastSeen = Some cutoff ->
  let st' := sendReadReceipts getTime conv cur st in
  length (messages st') = length (messages st)
  /\ (forall m t,
        In m (messages st') -> unreadFromOthers cur m = true ->
        getTime (created_at m) = Some t -> cutoff < t)
  /\ (forall (i : nat) m,
        messages st !! i = Some m -> sender_id m = cur ->
        messages st' !! i = Some m)
  /\ unreadCount st' = countUnread cur (messages st')
  /\ (unreadCount st' <= countUnread cur (messages st))%nat.
Proof.
  intros Hready Hpend Htruthy Hcut st'.
  assert (Hst' : messages st'
                 = map (markSeen getTime cur cutoff) (messages st)
                 /\ unreadCount st' = countUnread cur (messages st')).
  { subst st'. unfold sendReadReceipts.
    rewrite Hready, Hpend, Htruthy, Hcut. simpl. split; reflexivity. }
  destruct Hst' as [Hmsgs Hcount]. rewrite Hcount, Hmsgs. repeat split.
  - apply length_map.
  - intros m t Hin Hunread Ht. apply in_map_iff in Hin as (m0 & <- & _).
    destruct (markSeen_cases cur cutoff m0) as [Heq | [Heq Hwhy]];
      rewrite Heq in *.
    + unfold unreadFromOthers in Hunread. simpl in Hunread. discriminate.
    + unfold unreadFromOthers in Hunread.
      apply andb_true_iff in Hunread as [Hr Hs].
      apply negb_true_iff in Hr. apply negb_true_iff, Z.eqb_neq in Hs.
      destruct Hwhy as [Hown | [Hread | [Hnone | (t0 & Ht0 & Hlt)]]];
        try congruence.
  - intros i m Hi Hown. rewrite list_lookup_fmap, Hi. simpl.
    rewrite markSeen_markRead. now rewrite markRead_self_own.
  - apply countUnread_le_map. intros m. apply markSeen_evolves.
Qed.

(** X8: the echo of a flush changes nothing but the token.  The flush
    has already marked what the echo confirms, so the store and the
    counters stay as the flush left them. *)
Theorem X8_echo_after_flush_is_silent conv cur lastSeen cutoff st :
  ws_ready st = true ->
  pendingLastSeenDateRef st = Some lastSeen ->
  Js.truthy_str lastSeen = true ->
  getTime lastSeen = Some cutoff ->
  let st1 := sendReadReceipts getTime conv cur st in
  ws_onmessage getTime cur (InMessagesRead (Some lastSeen) None None None)
    st1
  = set_lastSentReadDateRef None st1.
Proof.
  intros Hready Hpend Htruthy Hcut st1.
  assert (Hst1 : st1
                 = recompute cur
                     (map (markSeen getTime cur cutoff) (messages st))
                     (set_pendingLastSeenDateRef None
                        (ws_send (mark_as_read lastSeen cur conv)
                           (set_lastSentReadDateRef (Some lastSeen) st)))).
  { subst st1. unfold sendReadReceipts.
    now rewrite Hready, Hpend, Htruthy, Hcut. }
  rewrite (ws_onmessage_read getTime cur lastSeen cutoff) by assumption.
  rewrite Hst1. simpl. rewrite String.eqb_refl. simpl.
  unfold markReadUpTo, recompute. simpl.
  rewrite map_map.
  rewrite (map_ext _ (markSeen getTime cur cutoff)); [reflexivity|].
  intros m. rewrite markSeen_markRead. apply markRead_idempotent.
Qed.

(** *** The two directions and the counters *)

Lemma unreadFromOthers_peer cur cutoff m :
  unreadFromOthers cur (markRead getTime cur cutoff true m)
  = unreadFromOthers cur m.
Proof.
  destruct (Z.eq_dec (sender_id m) cur) as [Hown | Hother].
  - destruct (markRead_evolves getTime cur cutoff true m)
      as [-> | [_ ->]]; [reflexivity|].
    unfold unreadFromOthers. simpl.
    apply Z.eqb_eq in Hown. rewrite Hown. now rewrite !andb_false_r.
  - now rewrite markRead_peer_other.
Qed.

Lemma id_markRead cur cutoff dir m :
  id (markRead getTime cur cutoff dir m) = id m.
Proof.
  destruct (markRead_evolves getTime cur cutoff dir m)
    as [-> | [_ ->]]; reflexivity.
Qed.

Lemma countUnread_peer cur cutoff l :
  countUnread cur (map (markRead getTime cur cutoff true) l)
  = countUnread cur l.
Proof.
  unfold countUnread. induction l as [|m l IH]; simpl; [reflexivity|].
  rewrite unreadFromOthers_peer.
  destruct (unreadFromOthers cur m); simpl; congruence.
Qed.

Lemma findFirstUnreadId_peer cur cutoff l :
  findFirstUnreadId cur (map (markRead getTime cur cutoff true) l)
  = findFirstUnreadId cur l.
Proof.
  unfold findFirstUnreadId. induction l as [|m l IH]; simpl; [reflexivity|].
  rewrite unreadFromOthers_peer.
  destruct (unreadFromOthers cur m); [|assumption].
  now rewrite id_markRead.
Qed.

(** X9: a peer read only concerns the messages of the user, so it
    leaves the unread count and the first unread message as derived
    from the store, and as displayed after it, where they were. *)
Theorem X9_peer_read_keeps_unread_state cur cutoff st :
  let st' := markReadUpTo getTime cur cutoff true st in
  countUnread cur (messages st') = countUnread cur (messages st)
  /\ findFirstUnreadId cur (messages st')
     = findFirstUnreadId cur (messages st)
  /\ unreadCount st' = countUnread cur (messages st)
  /\ firstUnreadId st' = findFirstUnreadId cur (messages st).
Proof.
  intros st'. subst st'. rewrite markReadUpTo_messages.
  rewrite countUnread_peer, findFirstUnreadId_peer. simpl.
  rewrite countUnread_peer, findFirstUnreadId_peer. repeat split.
Qed.

(** X10: a [messages_read] that names the current user as its reader is
    a self read whether or not its timestamp is the one last flushed:
    received messages up to the cutoff become read, the messages of the
    user are left as they are, and the token is cleared only on a
    match. *)
Theorem X10_own_identity_is_self_read
    cur lastSeen cutoff u r1 r2 st :
  Js.truthy_str lastSeen = true ->
  getTime lastSeen = Some cutoff ->
  readerIdOf u r1 r2 = Some cur ->
  let matched := Js.strict_eq_ref (lastSentReadDateRef st) lastSeen in
  let st' :=
    ws_onmessage getTime cur (InMessagesRead (Some lastSeen) u r1 r2) st in
  st' = markReadUpTo getTime cur cutoff false
          (if matched then set_lastSentReadDateRef None st else st)
  /\ lastSentReadDateRef st'
     = (if matched then None else lastSentReadDateRef st)
  /\ (forall (i : nat) m,
        messages st !! i = Some m -> sender_id m = cur ->
        messages st' !! i = Some m)
  /\ (forall (i : nat) m t,
        messages st !! i = Some m -> sender_id m <> cur ->
        is_read m = false -> getTime (created_at m) = Some t ->
        t <= cutoff ->
        messages st' !! i = Some (with_is_read m true)).
Proof.
  intros Htruthy Hcut Hreader matched st'.
  assert (Hst' : st' = markReadUpTo getTime cur cutoff false
                         (if matched then set_lastSentReadDateRef None st
                          else st)).
  { subst st'. rewrite (ws_onmessage_read getTime cur lastSeen cutoff)
      by assumption.
    rewrite Hreader. unfold isPeerReader. now rewrite Z.eqb_refl. }
  assert (Hmsgs : messages st'
                  = map (markRead getTime cur cutoff false) (messages st)).
  { rewrite Hst', markReadUpTo_messages. now destruct matched. }
  split; [exact Hst'|]. split; [rewrite Hst'; now destruct matched|]. split.
  - intros i m Hi Hown. rewrite Hmsgs, list_lookup_fmap, Hi. simpl.
    now rewrite markRead_self_own.
  - intros i m t Hi Hother Hunread Ht Hle.
    rewrite Hmsgs, list_lookup_fmap, Hi. simpl.
    now rewrite (markRead_self_other getTime cur cutoff m t).
Qed.

(** *** Inbound frames that are dropped *)

(** X11: a frame of an unknown type, a frame that does not parse, a
    message or file frame without payload, and a [messages_read] whose
    [last_seen_date] is missing, empty or not a date leave the whole
    state as it is; in particular the token is not consumed. *)
Theorem X11_dropped_frames_change_nothing cur st :
  (forall tag, ws_onmessage getTime cur (InUnknown tag) st = st)
  /\ ws_onmessage getTime cur InMalformed st = st
  /\ ws_onmessage getTime cur (InMessage None) st = st
  /\ ws_onmessage getTime cur (InFile None) st = st
  /\ (forall u r1 r2,
        ws_onmessage getTime cur (InMessagesRead None u r1 r2) st = st)
  /\ (forall lastSeen u r1 r2,
        Js.truthy_str lastSeen = false \/ getTime lastSeen = None ->
        ws_onmessage getTime cur (InMessagesRead (Some lastSeen) u r1 r2) st
        = st).
Proof.
  repeat split.
  intros lastSeen u r1 r2 [Hempty | Hbad]; simpl.
  - now rewrite Hempty.
  - rewrite Hbad. now destruct (negb (Js.truthy_str lastSeen)).
Qed.

(** *** Live messages *)

Lemma findFirstUnreadId_app_some cur l extra :
  findFirstUnreadId cur l <> None ->
  findFirstUnreadId cur (l ++ extra) = findFirstUnreadId cur l.
Proof.
  unfold findFirstUnreadId.
  induction l as [|m l IH]; simpl; [congruence|].
  destruct (unreadFromOthers cur m); [reflexivity | assumption].
Qed.

Lemma findFirstUnreadId_app_none cur l m :
  findFirstUnreadId cur l = None ->
  findFirstUnreadId cur (l ++ [m])
  = (if unreadFromOthers cur m then Some (id m) else None).
Proof.
  unfold findFirstUnreadId.
  induction l as [|x l IH]; simpl.
  - now destruct (unreadFromOthers cur m).
  - destruct (unreadFromOthers cur x); [discriminate | assumption].
Qed.

(** X12: a live text or file message goes to the tail of the store,
    unread.  A message of another user raises the unread count by one
    and becomes the first unread message if there was none; a message
    of the user changes neither. *)
Theorem X12_live_message_appended cur data m st :
  liveMessage (clock st) data = Some m ->
  let st' := ws_onmessage getTime cur data st in
  let others := negb (sender_id m =? cur) in
  messages st' = messages st ++ [m]
  /\ is_read m = false
  /\ unreadCount st'
     = (countUnread cur (messages st) + (if others then 1 else 0))%nat
  /\ firstUnreadId st'
     = match findFirstUnreadId cur (messages st) with
       | Some first => Some first
       | None => if others then Some (id m) else None
       end.
Proof.
  intros Hlive st' others.
  assert (Hst' : st' = recompute cur (messages st ++ [m]) st
                 /\ is_read m = false).
  { subst st'.
    destruct data as [[p|] | [p|] | ? ? ? ? | ? | ]; try discriminate;
      injection Hlive as <-; split; reflexivity. }
  destruct Hst' as [Hst' Hunread]. rewrite Hst'. simpl.
  assert (Hu : unreadFromOthers cur m = others).
  { unfold unreadFromOthers. now rewrite Hunread. }
  repeat split; try assumption.
  - rewrite countUnread_app. unfold countUnread at 2. simpl.
    rewrite Hu. now destruct others.
  - destruct (findFirstUnreadId cur (messages st)) as [first|] eqn:Hfirst.
    + rewrite findFirstUnreadId_app_some; congruence.
    + rewrite findFirstUnreadId_app_none by assumption. now rewrite Hu.
Qed.

(** *** Files *)

(** X13: when the upload has succeeded and the socket is still open,
    one file frame is sent and one file message of the user, unread, is
    appended; the frame and the message carry the same identifier,
    attachment and timestamp; the selection and the file input are
    cleared, and the counters are as before. *)
Theorem X13_file_send_appends_own_message conv cur data st :
  ws_ready st = true ->
  let st' :=
    handleFileUpload_settled toISOString (Some conv) cur (UploadOk data) st in
  let m := optimisticFileMessage toISOString (clock st) conv cur data in
  messages st' = messages st ++ [m]
  /\ sender_id m = cur /\ is_read m = false /\ type m = file
  /\ id m = clock st /\ attachment_id m = Some (b_attachment_id data)
  /\ outbox st'
     = outbox st
       ++ [out_file (id m) conv cur (b_attachment_id data)
             (b_file_name data) (b_file_type data)
             (or_else (description m) "") (b_file_size data)
             (created_at m)]
  /\ selectedFile st' = None
  /\ fileInputRef st' = None
  /\ uploading st' = false
  /\ alerts st' = alerts st
  /\ unreadCount st' = unreadCount st
  /\ firstUnreadId st' = firstUnreadId st
  /\ countUnread cur (messages st') = countUnread cur (messages st)
  /\ findFirstUnreadId cur (messages st')
     = findFirstUnreadId cur (messages st).
Proof.
  intros Hready st' m. subst st'. unfold handleFileUpload_settled.
  rewrite Hready. simpl. repeat split.
  - now apply countUnread_own.
  - now apply findFirstUnreadId_own.
Qed.

(** X14: when the upload fails, or succeeds after the socket has
    closed, exactly one alert is raised and nothing is sent or
    appended; the upload flag and the file input are reset, while the
    selected file stays on display. *)
Theorem X14_failed_upload_sends_nothing conv cur outcome st :
  uploadFailed outcome st ->
  let st' :=
    handleFileUpload_settled toISOString (Some conv) cur outcome st in
  (exists text, alerts st' = alerts st ++ [text])
  /\ outbox st' = outbox st
  /\ messages st' = messages st
  /\ selectedFile st' = selectedFile st
  /\ fileInputRef st' = None
  /\ uploading st' = false.
Proof.
  intros Hfail st'. subst st'. unfold handleFileUpload_settled.
  destruct outcome as [data| |]; simpl in *.
  - rewrite Hfail. simpl. repeat split. eexists. reflexivity.
  - repeat split. eexists. reflexivity.
  - repeat split. eexists. reflexivity.
Qed.

(** *** Text *)

(** The instance [Js.trim] takes white space for what it is: a text
    made of white space code points only trims to the empty string. *)
Lemma strip_white_space w l :
  In w Js.whiteSpace ->
  Js.strip false (map ascii_of_nat w ++ l) = Js.strip false l.
Proof.
  unfold Js.whiteSpace. simpl In. intros H.
  repeat (destruct H as [<- | H]; [reflexivity|]). destruct H.
Qed.

Lemma trim_white_space ws :
  Forall (fun w => In w Js.whiteSpace) ws ->
  Js.trim (string_of_list_ascii (map ascii_of_nat (concat ws))) = "".
Proof.
  intros Hws. unfold Js.trim.
  rewrite list_ascii_of_string_of_list_ascii.
  replace (Js.strip false (map ascii_of_nat (concat ws))) with (@nil ascii);
    [reflexivity|].
  induction Hws as [|w ws Hw _ IH]; [reflexivity|].
  simpl. rewrite map_app, (strip_white_space w _ Hw). exact IH.
Qed.

(** X15: an input that [trim] reduces to the empty string, nothing but
    white space, is not sent: [sendMessage] does nothing at all,
    whatever the state of the socket. *)
Theorem X15_blank_input_is_not_sent conv cur st :
  trim (newMessage st) = "" ->
  sendMessage toISOString trim conv cur st = st.
Proof. intros Hblank. unfold sendMessage. now rewrite Hblank. Qed.

(** X16: a text send puts on the wire what it shows.  The frame and the
    optimistic message carry the same identifier (the clock reading),
    conversation, sender, timestamp and text, the text being the input
    as typed, not trimmed; the input is then cleared. *)
Theorem X16_sent_frame_matches_message conv cur st :
  Js.truthy_str (trim (newMessage st)) = true ->
  ws_ready st = true ->
  conv <> 0 ->
  let st' := sendMessage toISOString trim (Some conv) cur st in
  let m := optimisticMessage toISOString (clock st) conv cur (newMessage st) in
  outbox st'
  = outbox st
    ++ [out_message (id m) (conversation_id m) (sender_id m)
          (newMessage st) (created_at m)]
  /\ messages st' = messages st ++ [m]
  /\ content m = Some (newMessage st)
  /\ id m = clock st
  /\ conversation_id m = conv
  /\ newMessage st' = ""
  /\ sending st' = false
  /\ alerts st' = alerts st.
Proof.
  intros Htext Hready Hconv st' m. subst st'. unfold sendMessage.
  rewrite Htext, Hready. simpl.
  apply Z.eqb_neq in Hconv. rewrite Hconv. simpl. repeat split.
Qed.

(** *** Loading and connecting *)

(** X17: once the history request of a conversation has settled the
    component connects, whether the request succeeded or not.  Loading
    is over and the observer is set up; a socket that is open is kept,
    whatever conversation it belongs to, and otherwise a new socket to
    the conversation starts connecting.  A failed request leaves the
    store and the counters as they were. *)
Theorem X17_load_always_connects conv cur outcome st :
  conv <> 0 ->
  let st' := loadAndConnect getTime toISOString (Some conv) cur outcome st in
  loading st' = false
  /\ intersectionObserverRef st' = true
  /\ (ws_ready st = true -> wsRef st' = wsRef st /\ wsConnected st' = true)
  /\ (ws_ready st = false ->
      wsRef st' = Some (mkWebSocket conv cur CONNECTING)
      /\ wsConnected st' = wsConnected st)
  /\ (loadFailed outcome ->
      messages st' = messages st /\ unreadCount st' = unreadCount st
      /\ firstUnreadId st' = firstUnreadId st).
Proof.
  intros Hconv st'. subst st'.
  unfold loadAndConnect, setupIntersectionObserver, connectWebSocket.
  apply Z.eqb_neq in Hconv.
  assert (Hload : forall s,
            ws_ready (loadMessages getTime toISOString (Some conv) cur
                        outcome s) = ws_ready s).
  { intros s. unfold loadMessages. simpl. rewrite Hconv. simpl.
    destruct outcome; reflexivity. }
  simpl Js.truthy_num. rewrite Hconv. simpl negb. cbv iota.
  rewrite Hload.
  unfold loadMessages. simpl. rewrite Hconv. simpl.
  destruct (ws_ready st) eqn:Hready, outcome as [data| |]; simpl;
    repeat split; try discriminate; try contradiction.
Qed.

(** X18: a conversation change clears the store, the socket, the
    observer, the timer and the cursor; it keeps the displayed
    counters, the flushed token, the input, the selected file and what
    was sent. *)
Theorem X18_conversation_change conv st :
  timers_owned st ->
  let st' := changeConversation conv st in
  messages st' = []
  /\ loading st' = Js.truthy_num conv
  /\ wsRef st' = None
  /\ wsConnected st' = false
  /\ intersectionObserverRef st' = false
  /\ timers st' = []
  /\ pendingLastSeenDateRef st' = None
  /\ unreadCount st' = unreadCount st
  /\ firstUnreadId st' = firstUnreadId st
  /\ lastSentReadDateRef st' = lastSentReadDateRef st
  /\ newMessage st' = newMessage st
  /\ selectedFile st' = selectedFile st
  /\ outbox st' = outbox st.
Proof.
  intros Howned st'.
  assert (Ht : timers (cleanup st) = []) by now apply cleanup_timers.
  assert (Hc : wsRef (cleanup st) = None /\ wsConnected (cleanup st) = false
               /\ intersectionObserverRef (cleanup st) = false
               /\ pendingLastSeenDateRef (cleanup st) = None
               /\ readTimerRef (cleanup st) = None
               /\ unreadCount (cleanup st) = unreadCount st
               /\ firstUnreadId (cleanup st) = firstUnreadId st
               /\ lastSentReadDateRef (cleanup st) = lastSentReadDateRef st
               /\ newMessage (cleanup st) = newMessage st
               /\ selectedFile (cleanup st) = selectedFile st
               /\ outbox (cleanup st) = outbox st).
  { unfold cleanup. cbn.
    destruct (readTimerRef st) eqn:E; simpl; repeat split; congruence. }
  destruct Hc as (H1 & H2 & H3 & H4 & H5 & H6 & H7 & H8 & H9 & H10 & H11).
  subst st'. unfold changeConversation, conversationEffect.
  generalize dependent (cleanup st). intros c Ht H1 H2 H3 H4 H5 H6 H7 H8 H9
    H10 H11.
  destruct (Js.truthy_num conv); simpl.
  - repeat split; assumption.
  - unfold cleanup. cbn. rewrite H5. simpl. repeat split; assumption.
Qed.

End More.

(** ** The contact list and the session *)

(** *** The contact list *)

Lemma unreadMap_snoc data item :
  Messenger.unreadMap (data ++ [item])
  = <[Messenger.item_conversation_id item
      := Messenger.unreaded_messages item]> (Messenger.unreadMap data).
Proof. unfold Messenger.unreadMap. now rewrite fold_left_app. Qed.

Lemma unreadMap_lookup data c :
  Messenger.unreadMap data !! c
  = Messenger.unreaded_messages <$> Messenger.lastItem data c.
Proof.
  unfold Messenger.lastItem.
  induction data as [|item data IH] using rev_ind; [reflexivity|].
  rewrite unreadMap_snoc, rev_app_distr. simpl.
  destruct (Messenger.item_conversation_id item =? c) eqn:Hc.
  - apply Z.eqb_eq in Hc. subst c. now rewrite lookup_insert_eq.
  - apply Z.eqb_neq in Hc. now rewrite lookup_insert_ne.
Qed.

(** X19: a successful poll replaces the unread counts by the response:
    the count of a conversation is the one of the last item that names
    it, a conversation the response does not name has none, whatever
    was held before, and a badge is shown exactly for a positive
    count. *)
Theorem X19_unread_counts_follow_last_item data c st :
  let st' := Messenger.poll_settled (Messenger.PollOk data) st in
  Messenger.unreadCounts st' !! c
  = Messenger.unreaded_messages <$> Messenger.lastItem data c
  /\ Messenger.badge (Messenger.unreadCounts st') c
     = match Messenger.lastItem data c with
       | Some item =>
           if 0 <? Messenger.unreaded_messages item
           then Some (Messenger.unreaded_messages item) else None
       | None => None
       end
  /\ Messenger.unreadInFlight st' = false.
Proof.
  intros st'.
  assert (H : Messenger.unreadCounts st' !! c
              = Messenger.unreaded_messages <$> Messenger.lastItem data c)
    by apply unreadMap_lookup.
  split; [exact H|]. split; [|reflexivity].
  unfold Messenger.badge. rewrite H.
  destruct (Messenger.lastItem data c) as [item|]; reflexivity.
Qed.

(** X20: polling is single flight.  Over any sequence of interval
    ticks, settled polls, clicks and settled lookups, the polls sent
    are the polls settled plus the one in flight, if any: never two at
    a time, and none while no user is logged in. *)
Theorem X20_poll_single_flight user_id events :
  let st := Messenger.run user_id events Messenger.initial in
  Messenger.pollsSent st
  = (Messenger.pollsSettled st
     + (if Messenger.unreadInFlight st then 1 else 0))%nat
  /\ (Js.truthy_num user_id = false -> Messenger.pollsSent st = 0%nat).
Proof.
  intros st. subst st. unfold Messenger.run.
  assert (H0 : Messenger.pollsSent Messenger.initial
               = (Messenger.pollsSettled Messenger.initial
                  + (if Messenger.unreadInFlight Messenger.initial
                     then 1 else 0))%nat
               /\ (Js.truthy_num user_id = false ->
                   Messenger.pollsSent Messenger.initial = 0%nat))
    by (split; reflexivity).
  revert H0. generalize Messenger.initial.
  induction events as [|ev events IH]; intros st Hst; simpl; [assumption|].
  apply IH. destruct Hst as [Hcount Hnone].
  destruct ev as [|outcome|outcome|f|f outcome|g]; simpl.
  - destruct (Js.truthy_num user_id) eqn:Hu; [|now split].
    unfold Messenger.poll.
    destruct (Messenger.unreadInFlight st) eqn:Hf;
      [split; [now rewrite Hf | discriminate]|].
    simpl. split; [lia | discriminate].
  - destruct (Messenger.unreadInFlight st) eqn:Hf; [|split; [now rewrite Hf|assumption]].
    unfold Messenger.poll_settled. destruct outcome; simpl; split; try lia.
    all: intros Hu; specialize (Hnone Hu); lia.
  - unfold Messenger.fetchFriendsAndGroups_settled.
    destruct outcome as [[fs|] [gs|]|]; split; [exact Hcount | exact Hnone
      | exact Hcount | exact Hnone | exact Hcount | exact Hnone
      | exact Hcount | exact Hnone | exact Hcount | exact Hnone].
  - unfold Messenger.handleFriendClick.
    destruct (negb (Js.truthy_num (Some (Messenger.id f))));
      [split; [exact Hcount | exact Hnone]|].
    destruct (negb (Js.truthy_num user_id));
      [split; [exact Hcount | exact Hnone]|].
    destruct (Js.truthy_num (Messenger.conversation_id f));
      (split; [exact Hcount | exact Hnone]).
  - destruct outcome; (split; [exact Hcount | exact Hnone]).
  - split; [exact Hcount | exact Hnone].
Qed.

(** X21: a click on a friend never selects anything but a chat with
    that friend.  Without a friend id it only raises an alert and
    without a user it does nothing; a friend that carries a
    conversation is selected at once, without a request; otherwise one
    lookup is requested, and a lookup that fails raises one alert and
    leaves the selection as it was. *)
Theorem X21_friend_click user_id f outcome st :
  let st1 := Messenger.handleFriendClick user_id f st in
  let st2 := Messenger.handleFriendClick_settled f outcome st1 in
  let chat c := Some (Messenger.mkChat Messenger.friend
                        (Messenger.FriendData f) c) in
  (Messenger.id f = 0 ->
   Messenger.selectedChat st1 = Messenger.selectedChat st
   /\ Messenger.lookups st1 = Messenger.lookups st
   /\ length (Messenger.alerts st1) = S (length (Messenger.alerts st)))
  /\ (Messenger.id f <> 0 -> Js.truthy_num user_id = false -> st1 = st)
  /\ (Messenger.id f <> 0 -> Js.truthy_num user_id = true ->
      Js.truthy_num (Messenger.conversation_id f) = true ->
      Messenger.selectedChat st1 = chat (Messenger.conversation_id f)
      /\ Messenger.lookups st1 = Messenger.lookups st)
  /\ (Messenger.id f <> 0 -> Js.truthy_num user_id = true ->
      Js.truthy_num (Messenger.conversation_id f) = false ->
      Messenger.selectedChat st1 = Messenger.selectedChat st
      /\ Messenger.lookups st1
         = Messenger.lookups st ++ [(default 0 user_id, Messenger.id f)])
  /\ match outcome with
     | Messenger.LookupOk conversation =>
         Messenger.selectedChat st2 = chat conversation
         /\ Messenger.alerts st2 = Messenger.alerts st1
     | _ =>
         Messenger.selectedChat st2 = Messenger.selectedChat st1
         /\ length (Messenger.alerts st2) = S (length (Messenger.alerts st1))
     end.
Proof.
  intros st1 st2 chat.
  split; [|split; [|split; [|split]]].
  - intros Hid. subst st1. unfold Messenger.handleFriendClick. simpl.
    rewrite Hid. simpl. repeat split. rewrite length_app. simpl. lia.
  - intros Hid Hu. apply Z.eqb_neq in Hid. subst st1.
    unfold Messenger.handleFriendClick. simpl. now rewrite Hid, Hu.
  - intros Hid Hu Hc. apply Z.eqb_neq in Hid. subst st1.
    unfold Messenger.handleFriendClick. simpl. rewrite Hid, Hu, Hc.
    split; reflexivity.
  - intros Hid Hu Hc. apply Z.eqb_neq in Hid. subst st1.
    unfold Messenger.handleFriendClick. simpl. rewrite Hid, Hu, Hc.
    split; reflexivity.
  - subst st2. destruct outcome; simpl; split; try reflexivity.
    all: rewrite length_app; simpl; lia.
Qed.

Section Session.

Variable stringify : Auth.UserInfo -> string.
Variable parse : string -> option Auth.UserInfo.

(** *** The session *)

Lemma login_storage_user data authorization refresh u st :
  Auth.message data = "Login Successful" ->
  Auth.user_info data = Some u ->
  let st1 :=
    snd (Auth.login stringify (Auth.LoginOk data authorization refresh) st) in
  Auth.user st1 = Some u
  /\ Auth.accessToken st1 = Some (Auth.tokenOf authorization)
  /\ Auth.localStorage st1 !! "user" = Some (stringify u)
  /\ Auth.localStorage st1 !! "accessToken"
     = (if Js.truthy_str (Auth.tokenOf authorization)
        then Some (Auth.tokenOf authorization)
        else Auth.localStorage st !! "accessToken")
  /\ Auth.localStorage st1 !! "refreshToken"
     = (if Js.truthy_str (default "" refresh)
        then Some (default "" refresh)
        else Auth.localStorage st !! "refreshToken").
Proof.
  intros Hmsg Huser st1. subst st1. unfold Auth.login.
  rewrite Huser, Hmsg. simpl.
  destruct (Js.truthy_str (Auth.tokenOf authorization)),
    (Js.truthy_str (default "" refresh)); simpl;
    repeat split; unfold Auth.setItem; simpl; now simplify_map_eq.
Qed.

(** X22: [login] resolves to true exactly when the response is ok, its
    message is ['Login Successful'] and it carries a user; then the
    user is in the state and in the storage.  In every other case the
    state and the storage are left untouched. *)
Theorem X22_login_accepts_exactly outcome st :
  let r := Auth.login stringify outcome st in
  match loginAccepted outcome with
  | Some u =>
      fst r = true
      /\ Auth.user (snd r) = Some u
      /\ Auth.localStorage (snd r) !! "user" = Some (stringify u)
  | None => fst r = false /\ snd r = st
  end.
Proof.
  intros r. subst r.
  destruct outcome as [data authorization refresh| |];
    [|split; reflexivity|split; reflexivity].
  unfold loginAccepted.
  destruct (String.eqb (Auth.message data) "Login Successful") eqn:Hmsg.
  - destruct (Auth.user_info data) as [u|] eqn:Hu.
    + apply String.eqb_eq in Hmsg.
      destruct (login_storage_user data authorization refresh u st Hmsg Hu)
        as (H1 & _ & H3 & _).
      repeat split; try assumption.
      unfold Auth.login. rewrite Hu, Hmsg. reflexivity.
    + unfold Auth.login. rewrite Hu. split; reflexivity.
  - unfold Auth.login. rewrite Hmsg.
    destruct (Auth.user_info data); split; reflexivity.
Qed.

(** X23: [logout] ends the session: the user and both tokens are gone
    from the state and from the storage, nothing else in the storage is
    touched, and a reload finds nobody logged in. *)
Theorem X23_logout_ends_session st :
  let st' := Auth.logout st in
  Auth.user st' = None
  /\ Auth.accessToken st' = None
  /\ Auth.refreshToken st' = None
  /\ (forall k, In k sessionKeys -> Auth.localStorage st' !! k = None)
  /\ (forall k, ~ In k sessionKeys ->
                Auth.localStorage st' !! k = Auth.localStorage st !! k)
  /\ exists st'', Auth.reload parse st' = Some st''
                  /\ Auth.user st'' = None
                  /\ Auth.accessToken st'' = None
                  /\ Auth.isLoading st'' = false.
Proof.
  intros st'. subst st'. unfold Auth.logout, Auth.removeItem. simpl.
  repeat split.
  - intros k [<- | [<- | [<- | []]]]; now simplify_map_eq.
  - intros k Hk. unfold sessionKeys in Hk. simpl in Hk.
    rewrite !lookup_delete_ne; [reflexivity|..];
      intros E; apply Hk; rewrite <- E; auto.
  - unfold Auth.reload, Auth.restore, Auth.stored. simpl.
    rewrite lookup_delete_ne by discriminate.
    rewrite lookup_delete_eq. simpl. eexists. repeat split.
Qed.

(** X24: a session survives a reload when the login response carried an
    access token: the provider mounted afresh over the storage recovers
    the same user and token.  The refresh token recovered is the one of
    the response, or, if the response had none, whatever the storage
    held before. *)
Theorem X24_session_survives_reload data authorization refresh u st :
  Auth.message data = "Login Successful" ->
  Auth.user_info data = Some u ->
  Js.truthy_str (Auth.tokenOf authorization) = true ->
  Js.truthy_str (stringify u) = true ->
  parse (stringify u) = Some u ->
  let st1 :=
    snd (Auth.login stringify (Auth.LoginOk data authorization refresh) st) in
  exists st2,
    Auth.reload parse st1 = Some st2
    /\ Auth.user st2 = Some u
    /\ Auth.accessToken st2 = Some (Auth.tokenOf authorization)
    /\ Auth.refreshToken st2
       = (if Js.truthy_str (default "" refresh)
          then Some (default "" refresh)
          else Auth.localStorage st !! "refreshToken")
    /\ Auth.isLoading st2 = false.
Proof.
  intros Hmsg Huser Htoken Hjson Hparse st1.
  destruct (login_storage_user data authorization refresh u st Hmsg Huser)
    as (_ & _ & Hsu & Hsa & Hsr).
  fold st1 in Hsu, Hsa, Hsr. rewrite Htoken in Hsa.
  unfold Auth.reload, Auth.restore, Auth.stored. simpl.
  rewrite Hsu, Hsa, Htoken, Hjson. simpl. rewrite Hparse.
  eexists. repeat split. simpl. exact Hsr.
Qed.

(** X25: a login whose response carries no access token succeeds, yet
    it is lost on reload: unless the storage already held a token, the
    provider mounted afresh finds nobody logged in. *)
Theorem X25_login_without_token_lost_on_reload
    data authorization refresh u st :
  Auth.message data = "Login Successful" ->
  Auth.user_info data = Some u ->
  Js.truthy_str (Auth.tokenOf authorization) = false ->
  Auth.stored "accessToken" st = false ->
  let r := Auth.login stringify (Auth.LoginOk data authorization refresh) st in
  fst r = true
  /\ Auth.user (snd r) = Some u
  /\ exists st2,
       Auth.reload parse (snd r) = Some st2
       /\ Auth.user st2 = None
       /\ Auth.accessToken st2 = None
       /\ Auth.isLoading st2 = false.
Proof.
  intros Hmsg Huser Htoken Hstored r.
  destruct (login_storage_user data authorization refresh u st Hmsg Huser)
    as (Hu & _ & _ & Hsa & _).
  rewrite Htoken in Hsa. split; [|split; [exact Hu|]].
  - subst r. unfold Auth.login. rewrite Huser, Hmsg. reflexivity.
  - unfold Auth.reload, Auth.restore. 
    assert (Hs : Auth.stored "accessToken"
                   (Auth.initial (Auth.localStorage (snd r))) = false).
    { unfold Auth.stored in *. simpl. unfold r. now rewrite Hsa. }
    rewrite Hs. simpl. eexists. repeat split.
Qed.

End Session.

(** ** The further properties on concrete runs *)

Import Runs.

Lemma seen_owned : timers_owned seen.
Proof.
  intros p Hp. vm_compute in Hp. destruct Hp as [<- | []]. reflexivity.
Qed.

(** X1, on the run where a receipt is pending: after the cleanup a
    visible entry and half a second change nothing but the clock. *)
Lemma X1_cleanup_witness :
  let c := cleanup seen in
  timers_owned seen
  /\ timers seen = [(0%nat, now0 + 200)]
  /\ timers c = []
  /\ pendingLastSeenDateRef c = None
  /\ observerCallback IsoDate.getTime [visible t4] c = c
  /\ tick IsoDate.getTime (Some convA) me 500 c = set_clock (clock c + 500) c.
Proof.
  intros c.
  assert (H1 : timers_owned seen) by exact seen_owned.
  assert (H2 : timers seen = [(0%nat, now0 + 200)]) by reflexivity.
  destruct (X1_cleanup_quiesces IsoDate.getTime (Some convA) me
              [visible t4] 500 seen H1)
    as (_ & _ & _ & _ & Ht & Hp & Ho & Hk).
  exact (conj H1 (conj H2 (conj Ht (conj Hp (conj Ho Hk))))).
Defined.

(** X3, on the run where the cursor holds [t2]: an earlier and a later
    entry leave it at a timestamp not before [t2]. *)
Lemma X3_cursor_witness :
  pendingLastSeenDateRef seen = Some t2
  /\ Js.truthy_str t2 = true
  /\ IsoDate.getTime t2 = Some ms2
  /\ pendingLastSeenDateRef
       (observerCallback IsoDate.getTime [visible t1; visible t4] seen)
     = Some t4
  /\ exists T' t',
       pendingLastSeenDateRef
         (observerCallback IsoDate.getTime [visible t1; visible t4] seen)
       = Some T'
       /\ Js.truthy_str T' = true /\ IsoDate.getTime T' = Some t'
       /\ ms2 <= t'.
Proof.
  assert (H1 : pendingLastSeenDateRef seen = Some t2) by reflexivity.
  assert (H2 : Js.truthy_str t2 = true) by reflexivity.
  assert (H3 : IsoDate.getTime t2 = Some ms2) by (vm_compute; reflexivity).
  assert (H4 : pendingLastSeenDateRef
                 (observerCallback IsoDate.getTime [visible t1; visible t4]
                    seen) = Some t4) by (vm_compute; reflexivity).
  exact (conj H1 (conj H2 (conj H3 (conj H4
           (X3_cursor_never_moves_back IsoDate.getTime
              [visible t1; visible t4] seen t2 ms2 H1 H2 H3))))).
Defined.

(** X4, on three entries that each fail one of the three tests. *)
Lemma X4_other_entries_witness :
  Forall (fun e => isIntersecting e && isUnreadMessage e && isFromOthers e
                   = false) otherEntries
  /\ observerCallback IsoDate.getTime otherEntries loaded = loaded.
Proof.
  assert (H1 : Forall (fun e => isIntersecting e && isUnreadMessage e
                                && isFromOthers e = false) otherEntries)
    by (repeat constructor).
  exact (conj H1
           (X4_other_entries_ignored IsoDate.getTime otherEntries loaded H1)).
Defined.



(** X7, on the flush of [t2]. *)
Lemma X7_flush_witness :
  let st' := sendReadReceipts IsoDate.getTime (Some convA) me seen in
  ws_ready seen = true
  /\ pendingLastSeenDateRef seen = Some t2
  /\ Js.truthy_str t2 = true
  /\ IsoDate.getTime t2 = Some ms2
  /\ summary st'
     = [(7, 10, 1, false); (7, 1, 2, true); (7, 2, 2, true);
        (7, 3, 1, false); (7, 4, 2, false)]
  /\ length (messages st') = length (messages seen)
  /\ (forall m t,
        In m (messages st') -> unreadFromOthers me m = true ->
        IsoDate.getTime (created_at m) = Some t -> ms2 < t)
  /\ (forall (i : nat) m,
        messages seen !! i = Some m -> sender_id m = me ->
        messages st' !! i = Some m)
  /\ unreadCount st' = countUnread me (messages st')
  /\ (unreadCount st' <= countUnread me (messages seen))%nat.
Proof.
  intros st'.
  assert (H1 : ws_ready seen = true) by reflexivity.
  assert (H2 : pendingLastSeenDateRef seen = Some t2) by reflexivity.
  assert (H3 : Js.truthy_str t2 = true) by reflexivity.
  assert (H4 : IsoDate.getTime t2 = Some ms2) by (vm_compute; reflexivity).
  assert (H5 : summary st'
               = [(7, 10, 1, false); (7, 1, 2, true); (7, 2, 2, true);
                  (7, 3, 1, false); (7, 4, 2, false)])
    by (vm_compute; reflexivity).
  exact (conj H1 (conj H2 (conj H3 (conj H4 (conj H5
           (X7_flush_marks_up_to_cutoff IsoDate.getTime (Some convA) me t2
              ms2 seen H1 H2 H3 H4)))))).
Defined.

(** X8, on the echo of that flush. *)
Lemma X8_echo_witness :
  let st1 := sendReadReceipts IsoDate.getTime (Some convA) me seen in
  ws_ready seen = true
  /\ pendingLastSeenDateRef seen = Some t2
  /\ Js.truthy_str t2 = true
  /\ IsoDate.getTime t2 = Some ms2
  /\ ws_onmessage IsoDate.getTime me
       (InMessagesRead (Some t2) None None None) st1
     = set_lastSentReadDateRef None st1.
Proof.
  intros st1.
  assert (H1 : ws_ready seen = true) by reflexivity.
  assert (H2 : pendingLastSeenDateRef seen = Some t2) by reflexivity.
  assert (H3 : Js.truthy_str t2 = true) by reflexivity.
  assert (H4 : IsoDate.getTime t2 = Some ms2) by (vm_compute; reflexivity).
  exact (conj H1 (conj H2 (conj H3 (conj H4
           (X8_echo_after_flush_is_silent IsoDate.getTime (Some convA) me
              t2 ms2 seen H1 H2 H3 H4))))).
Defined.

(** X10, on a [messages_read] for [t4] that names the user, while the
    token is [t2]: both messages of the peer become read, the token
    stays. *)
Lemma X10_own_identity_witness :
  let st' :=
    ws_onmessage IsoDate.getTime me
      (InMessagesRead (Some t4) None (Some me) None) flushed in
  Js.truthy_str t4 = true
  /\ IsoDate.getTime t4 = Some ms4
  /\ readerIdOf None (Some me) None = Some me
  /\ summary st'
     = [(7, 10, 1, false); (7, 1, 2, true); (7, 2, 2, true);
        (7, 3, 1, false); (7, 4, 2, true)]
  /\ lastSentReadDateRef st' = Some t2.
Proof.
  intros st'.
  assert (H1 : Js.truthy_str t4 = true) by reflexivity.
  assert (H2 : IsoDate.getTime t4 = Some ms4) by (vm_compute; reflexivity).
  assert (H3 : readerIdOf None (Some me) None = Some me) by reflexivity.
  assert (H4 : summary st'
               = [(7, 10, 1, false); (7, 1, 2, true); (7, 2, 2, true);
                  (7, 3, 1, false); (7, 4, 2, true)])
    by (vm_compute; reflexivity).
  destruct (X10_own_identity_is_self_read IsoDate.getTime me t4 ms4
              None (Some me) None flushed H1 H2 H3) as (_ & Htoken & _).
  exact (conj H1 (conj H2 (conj H3 (conj H4 Htoken)))).
Defined.

(** X12, on a live text of the peer. *)
Lemma X12_live_message_witness :
  let data := InMessage (Some liveText) in
  let m := liveTextMessage (clock loaded) liveText in
  let st' := ws_onmessage IsoDate.getTime me data loaded in
  liveMessage (clock loaded) data = Some m
  /\ messages st' = messages loaded ++ [m]
  /\ is_read m = false
  /\ unreadCount st' = 3%nat
  /\ firstUnreadId st' = Some 2.
Proof.
  intros data m st'.
  assert (H1 : liveMessage (clock loaded) data = Some m) by reflexivity.
  destruct (X12_live_message_appended IsoDate.getTime me data m loaded H1)
    as (Hm & Hr & Hc & Hf).
  exact (conj H1 (conj Hm (conj Hr (conj Hc Hf)))).
Defined.

(** X13, on an upload that has succeeded with the socket open. *)
Lemma X13_file_send_witness :
  let st' :=
    handleFileUpload_settled IsoDate.toISOString (Some convA) me
      (UploadOk uploadedFile) uploadingFile in
  let m :=
    optimisticFileMessage IsoDate.toISOString (clock uploadingFile) convA me
      uploadedFile in
  ws_ready uploadingFile = true
  /\ uploading uploadingFile = true
  /\ messages st' = messages uploadingFile ++ [m]
  /\ selectedFile st' = None
  /\ fileInputRef st' = None
  /\ uploading st' = false.
Proof.
  intros st' m.
  assert (H1 : ws_ready uploadingFile = true) by reflexivity.
  assert (H2 : uploading uploadingFile = true) by reflexivity.
  destruct (X13_file_send_appends_own_message IsoDate.toISOString convA me
              uploadedFile uploadingFile H1)
    as (Hm & _ & _ & _ & _ & _ & _ & Hs & Hf & Hu & _).
  exact (conj H1 (conj H2 (conj Hm (conj Hs (conj Hf Hu))))).
Defined.

(** X14, on an upload that succeeds after the socket has closed. *)
Lemma X14_failed_upload_witness :
  let st' :=
    handleFileUpload_settled IsoDate.toISOString (Some convA) me
      (UploadOk uploadedFile) uploadingOffline in
  uploadFailed (UploadOk uploadedFile) uploadingOffline
  /\ (exists text, alerts st' = alerts uploadingOffline ++ [text])
  /\ outbox st' = outbox uploadingOffline
  /\ messages st' = messages uploadingOffline
  /\ selectedFile st' = selectedFile uploadingOffline
  /\ fileInputRef st' = None
  /\ uploading st' = false.
Proof.
  intros st'.
  assert (H1 : uploadFailed (UploadOk uploadedFile) uploadingOffline)
    by reflexivity.
  exact (conj H1
           (X14_failed_upload_sends_nothing IsoDate.toISOString convA me
              (UploadOk uploadedFile) uploadingOffline H1)).
Defined.

(** X15, on a blank, a no-break space and a tab. *)
Lemma X15_blank_input_witness :
  Js.trim (newMessage typingBlanks) = ""
  /\ sendMessage IsoDate.toISOString Js.trim (Some convA) me typingBlanks
     = typingBlanks.
Proof.
  assert (H1 : Js.trim (newMessage typingBlanks) = "")
    by (vm_compute; reflexivity).
  exact (conj H1
           (X15_blank_input_is_not_sent IsoDate.toISOString Js.trim
              (Some convA) me typingBlanks H1)).
Defined.

(** X16, on the text [" hi "]: it is sent with its blanks. *)
Lemma X16_sent_frame_witness :
  let st' := sendMessage IsoDate.toISOString Js.trim (Some convA) me typing in
  Js.truthy_str (Js.trim (newMessage typing)) = true
  /\ ws_ready typing = true
  /\ convA <> 0
  /\ outbox st'
     = [out_message now0 convA me " hi " "2024-01-01T00:00:10.000Z"]
  /\ newMessage st' = "".
Proof.
  intros st'.
  assert (H1 : Js.truthy_str (Js.trim (newMessage typing)) = true)
    by reflexivity.
  assert (H2 : ws_ready typing = true) by reflexivity.
  assert (H3 : convA <> 0) by (unfold convA; lia).
  destruct (X16_sent_frame_matches_message IsoDate.toISOString Js.trim convA me
              typing H1 H2 H3) as (Ho & _ & _ & _ & _ & Hn & _).
  exact (conj H1 (conj H2 (conj H3 (conj Ho Hn)))).
Defined.

(** X17, on the failed history request of conversation B. *)
Lemma X17_load_connects_witness :
  let st' :=
    loadAndConnect IsoDate.getTime IsoDate.toISOString (Some convB) me
      FetchNotOk switched in
  convB <> 0
  /\ ws_ready switched = false
  /\ loading st' = false
  /\ intersectionObserverRef st' = true
  /\ wsRef st' = Some (mkWebSocket convB me CONNECTING)
  /\ messages st' = messages switched.
Proof.
  intros st'.
  assert (H1 : convB <> 0) by (unfold convB; lia).
  assert (H2 : ws_ready switched = false) by reflexivity.
  destruct (X17_load_always_connects IsoDate.getTime IsoDate.toISOString
              convB me FetchNotOk switched H1)
    as (Hl & Ho & _ & Hw & Hf).
  destruct (Hw H2) as [Hws _]. destruct (Hf I) as [Hm _].
  exact (conj H1 (conj H2 (conj Hl (conj Ho (conj Hws Hm))))).
Defined.

(** X18, on a change to conversation B while a receipt is pending. *)
Lemma X18_conversation_change_witness :
  let st' := changeConversation (Some convB) seen in
  timers_owned seen
  /\ messages st' = []
  /\ loading st' = true
  /\ timers st' = []
  /\ unreadCount st' = 2%nat
  /\ firstUnreadId st' = Some 2.
Proof.
  intros st'.
  assert (H1 : timers_owned seen) by exact seen_owned.
  destruct (X18_conversation_change (Some convB) seen H1)
    as (Hm & Hl & _ & _ & _ & Ht & _ & Hc & Hf & _).
  exact (conj H1 (conj Hm (conj Hl (conj Ht (conj Hc Hf))))).
Defined.

(** X24, on a login with a bearer token and no refresh token. *)
Lemma X24_reload_witness :
  let st1 :=
    snd (Auth.login stringifyUser
           (Auth.LoginOk loginData (Some "Bearer abc") None)
           (Auth.initial ∅)) in
  Auth.message loginData = "Login Successful"
  /\ Auth.user_info loginData = Some alice
  /\ Js.truthy_str (Auth.tokenOf (Some "Bearer abc")) = true
  /\ Js.truthy_str (stringifyUser alice) = true
  /\ parseUser (stringifyUser alice) = Some alice
  /\ Auth.tokenOf (Some "Bearer abc") = "abc"
  /\ exists st2,
       Auth.reload parseUser st1 = Some st2
       /\ Auth.user st2 = Some alice
       /\ Auth.accessToken st2 = Some (Auth.tokenOf (Some "Bearer abc"))
       /\ Auth.refreshToken st2
          = (if Js.truthy_str (default "" None)
             then Some (default "" None)
             else Auth.localStorage (Auth.initial ∅) !! "refreshToken")
       /\ Auth.isLoading st2 = false.
Proof.
  intros st1.
  assert (H1 : Auth.message loginData = "Login Successful") by reflexivity.
  assert (H2 : Auth.user_info loginData = Some alice) by reflexivity.
  assert (H3 : Js.truthy_str (Auth.tokenOf (Some "Bearer abc")) = true)
    by reflexivity.
  assert (H4 : Js.truthy_str (stringifyUser alice) = true) by reflexivity.
  assert (H5 : parseUser (stringifyUser alice) = Some alice) by reflexivity.
  assert (H6 : Auth.tokenOf (Some "Bearer abc") = "abc") by reflexivity.
  exact (conj H1 (conj H2 (conj H3 (conj H4 (conj H5 (conj H6
           (X24_session_survives_reload stringifyUser parseUser loginData
              (Some "Bearer abc") None alice (Auth.initial ∅)
              H1 H2 H3 H4 H5))))))).
Defined.

(** X25, on a login whose response shows no authorization header. *)
Lemma X25_lost_on_reload_witness :
  let r :=
    Auth.login stringifyUser (Auth.LoginOk loginData None None)
      (Auth.initial ∅) in
  Auth.message loginData = "Login Successful"
  /\ Auth.user_info loginData = Some alice
  /\ Js.truthy_str (Auth.tokenOf None) = false
  /\ Auth.stored "accessToken" (Auth.initial ∅) = false
  /\ fst r = true
  /\ Auth.user (snd r) = Some alice
  /\ exists st2,
       Auth.reload parseUser (snd r) = Some st2
       /\ Auth.user st2 = None
       /\ Auth.accessToken st2 = None
       /\ Auth.isLoading st2 = false.
Proof.
  intros r.
  assert (H1 : Auth.message loginData = "Login Successful") by reflexivity.
  assert (H2 : Auth.user_info loginData = Some alice) by reflexivity.
  assert (H3 : Js.truthy_str (Auth.tokenOf None) = false) by reflexivity.
  assert (H4 : Auth.stored "accessToken" (Auth.initial ∅) = false)
    by reflexivity.
  exact (conj H1 (conj H2 (conj H3 (conj H4
           (X25_login_without_token_lost_on_reload stringifyUser parseUser
              loginData None None alice (Auth.initial ∅) H1 H2 H3 H4))))).
Defined.
